(** * PortRecon: a shallow embedding of the scanning pipeline

  The development follows the three scripts of the repository:
  - [Scanner]   : scanner.py (nmap range scan with per-target checkpoint),
  - [Checker]   : 2.ollama-checker.py (HTTP liveness check with periodic
                  checkpoint),
  - [ModelList] : 3. ollama-model-list.py (model harvesting).

  Python values are modelled as the code has them: [int] as [Z], [float] as
  IEEE-754 binary64 ([spec_float] with precision 53), [str] as [string],
  lists as [list], [dict]/[set] as [gmap]/[gset] or association lists, and
  exceptions as the [Raise] branch of [result]. *)

From Stdlib Require Import ZArith String Ascii List Lia Bool.
From Stdlib Require Import Decimal DecimalString DecimalZ SpecFloat.
From stdpp Require Import base option list strings gmap.

Local Open Scope Z_scope.

(** ** Python runtime: exceptions and results *)

Module Py.

(** The exception classes the three scripts can meet.  [SystemExit] carries
    what [sys.exit] was given: an exit code and the text printed on stderr
    ([sys.exit("text")] prints the text and exits with code 1). *)
Inductive exn : Type :=
| ValueError (msg : string)
| IndexError
| KeyError (key : string)
| ZeroDivisionError
| OverflowError
| AttributeError (msg : string)
| TypeError (msg : string)
| FileNotFoundError (path : string)
| OSError (msg : string)
| RequestException (msg : string)
| GenericException (msg : string)
| KeyboardInterrupt
| SystemExit (code : Z) (stderr : string).

(** [except Exception] does not catch [KeyboardInterrupt] nor [SystemExit];
    a bare [except:] catches everything. *)
Definition is_Exception (e : exn) : bool :=
  match e with
  | KeyboardInterrupt | SystemExit _ _ => false
  | _ => true
  end.

(** [str(e)] *)
Definition exn_str (e : exn) : string :=
  match e with
  | ValueError m | AttributeError m | TypeError m | OSError m
  | RequestException m | GenericException m => m
  | IndexError => "list index out of range"
  | KeyError k => String "'" (k +:+ "'")
  | ZeroDivisionError => "division by zero"
  | OverflowError => "cannot convert float infinity to integer"
  | FileNotFoundError p => "[Errno 2] No such file or directory: '" +:+ p +:+ "'"
  | KeyboardInterrupt => ""
  | SystemExit _ m => m
  end.

Inductive result (A : Type) : Type :=
| Ok (a : A)
| Raise (e : exn).
Arguments Ok {A} a.
Arguments Raise {A} e.

Definition bind {A B} (m : result A) (k : A -> result B) : result B :=
  match m with
  | Ok a => k a
  | Raise e => Raise e
  end.

#[export] Instance result_ret : MRet result := fun A a => Ok a.
#[export] Instance result_bind : MBind result := fun A B k m => bind m k.

Definition raises {A} (m : result A) : bool :=
  match m with Ok _ => false | Raise _ => true end.

(** *** Strings *)

(** [s.split(sep)] for a one-character separator. *)
Fixpoint split (sep : ascii) (s : string) : list string :=
  match s with
  | EmptyString => [EmptyString]
  | String c rest =>
      if Ascii.eqb c sep then EmptyString :: split sep rest
      else match split sep rest with
           | [] => [String c EmptyString]
           | w :: ws => String c w :: ws
           end
  end.

(** [sep.join(parts)] *)
Fixpoint join (sep : string) (parts : list string) : string :=
  match parts with
  | [] => EmptyString
  | [p] => p
  | p :: ps => p +:+ sep +:+ join sep ps
  end.

(** [needle in hay] on strings. *)
Fixpoint contains (needle hay : string) : bool :=
  String.prefix needle hay ||
  match hay with
  | EmptyString => false
  | String _ rest => contains needle rest
  end.

(** [str(n)] and the [{n}] field of an f-string, for an [int]: its
    decimal text.  CPython 3.11 with its default settings converts an [int]
    of at most 4300 digits and raises [ValueError] beyond; [str_of_int] is
    the text below that limit, and a statement about an integer that may be
    larger says so with [printable]. *)
Definition str_of_int (z : Z) : string :=
  NilZero.string_of_int (Z.to_int z).

Definition int_max_str_digits : Z := 4300.

Definition printable (z : Z) : Prop :=
  - 10 ^ int_max_str_digits < z < 10 ^ int_max_str_digits.

Definition is_space (c : ascii) : bool :=
  let n := nat_of_ascii c in
  ((9 <=? n) && (n <=? 13))%nat || (28 <=? n)%nat && (n <=? 32)%nat.

Fixpoint lstrip (s : string) : string :=
  match s with
  | String c rest => if is_space c then lstrip rest else s
  | EmptyString => EmptyString
  end.

(** Drops trailing white space: the string is rebuilt from the right. *)
Fixpoint rstrip (s : string) : string :=
  match s with
  | EmptyString => EmptyString
  | String c rest =>
      match rstrip rest with
      | EmptyString => if is_space c then EmptyString else String c EmptyString
      | r => String c r
      end
  end.

Definition is_digit (c : ascii) : bool :=
  let n := nat_of_ascii c in ((48 <=? n) && (n <=? 57))%nat.

(** The white space [int()] skips around a literal: tab, line feed,
    vertical tab, form feed, carriage return and space.  The separators 28
    to 31, which [strip()] drops, are no white space for [int()]. *)
Definition is_int_space (c : ascii) : bool :=
  let n := nat_of_ascii c in
  ((9 <=? n) && (n <=? 13))%nat || (n =? 32)%nat.

Fixpoint skip_space (s : string) : string :=
  match s with
  | String c rest => if is_int_space c then skip_space rest else s
  | EmptyString => EmptyString
  end.

Fixpoint drop_space (s : string) : string :=
  match s with
  | EmptyString => EmptyString
  | String c rest =>
      match drop_space rest with
      | EmptyString => if is_int_space c then EmptyString else String c EmptyString
      | r => String c r
      end
  end.

(** The digits of a literal body: decimal digits, with single underscores
    allowed between two digits and nowhere else.  [after_digit] tells
    whether the character before was a digit. *)
Fixpoint digits_of (after_digit : bool) (s : string) : option string :=
  match s with
  | EmptyString => if after_digit then Some EmptyString else None
  | String c rest =>
      if is_digit c then option_map (String c) (digits_of true rest)
      else if Ascii.eqb c "_" then
        (if after_digit then digits_of false rest else None)
      else None
  end.

(** [int(s)]: white space around the literal is skipped, then come an
    optional sign and the digits, with single underscores between digits.
    Two things CPython does are not modelled, and the statements that
    depend on them say so: a digit or a space outside ASCII is accepted by
    [int()] and refused here, and a literal of more than 4300 digits is
    refused by [int()] (the default limit of CPython 3.11) and read here.
    The text of the [ValueError] is given for a literal that [repr] only
    puts between quotes. *)
Definition int_of_str (s : string) : result Z :=
  let t := drop_space (skip_space s) in
  let signed := match t with
                | String "-" r => (true, r)
                | String "+" r => (false, r)
                | _ => (false, t)
                end in
  match digits_of false (snd signed) ≫= NilZero.uint_of_string with
  | Some d =>
      let n := Z.of_N (N.of_uint d) in
      Ok (if fst signed then - n else n)
  | None => Raise (ValueError ("invalid literal for int() with base 10: '" +:+ s +:+ "'"))
  end.

(** [list(map(f, xs))] for a fallible [f]: stops at the first exception. *)
Fixpoint map_result {A B} (f : A -> result B) (xs : list A) : result (list B) :=
  match xs with
  | [] => Ok []
  | x :: xs' => y ← f x; ys ← map_result f xs'; Ok (y :: ys)
  end.

(** [xs[i]] for [i >= 0]. *)
Definition index {A} (xs : list A) (i : nat) : result A :=
  match xs !! i with
  | Some x => Ok x
  | None => Raise IndexError
  end.

Fixpoint all_chars (P : ascii -> bool) (s : string) : bool :=
  match s with
  | EmptyString => true
  | String c r => P c && all_chars P r
  end.

(** A character of ASCII. *)
Definition is_ascii (c : ascii) : bool := (nat_of_ascii c <? 128)%nat.

(** The texts on which [int_of_str] is [int()]: characters of ASCII only,
    and at most 4300 of them. *)
Definition within_int (s : string) : Prop :=
  all_chars is_ascii s && (String.length s <=? 4300)%nat = true.

End Py.
Export Py.

(** ** Reading a range expression back

  The range syntax of the scanning engine, read independently of
  [to_nmap_range]: four fields separated by dots, each field [lo-hi], each
  bound an unsigned decimal number.  A field stands for the integers from
  [lo] to [hi]; the expression stands for every address whose four octets
  lie in the four fields. *)

Module RangeExpr.

Definition unsigned_of_str (s : string) : option Z :=
  match NilZero.uint_of_string s with
  | Some d => Some (Z.of_N (N.of_uint d))
  | None => None
  end.

Definition field_bounds (f : string) : option (Z * Z) :=
  match split "-" f with
  | [lo; hi] =>
      match unsigned_of_str lo, unsigned_of_str hi with
      | Some l, Some h => Some (l, h)
      | _, _ => None
      end
  | _ => None
  end.

Definition interval (b : Z * Z) : list Z := seqZ (fst b) (snd b - fst b + 1).

Definition expand (expr : string) : option (list (Z * Z * Z * Z)) :=
  match split "." expr with
  | [f0; f1; f2; f3] =>
      match field_bounds f0, field_bounds f1, field_bounds f2, field_bounds f3 with
      | Some b0, Some b1, Some b2, Some b3 =>
          Some (a ← interval b0; b ← interval b1;
                c ← interval b2; d ← interval b3; [(a, b, c, d)])
      | _, _, _, _ => None
      end
  | _ => None
  end.

(** A dotted quad: exactly four fields, each the decimal literal of an
    octet. *)
Definition octet_of_str (s : string) : option Z :=
  match int_of_str s with
  | Ok z => if (0 <=? z) && (z <=? 255) then Some z else None
  | Raise _ => None
  end.

Definition dotted_quad (s : string) : option (Z * Z * Z * Z) :=
  match split "." s with
  | [a; b; c; d] =>
      match octet_of_str a, octet_of_str b, octet_of_str c, octet_of_str d with
      | Some a', Some b', Some c', Some d' => Some (a', b', c', d')
      | _, _, _, _ => None
      end
  | _ => None
  end.

End RangeExpr.


(** ** Python numbers: [float] is IEEE-754 binary64 *)

Module F64.

Definition prec : Z := 53.
Definition emax : Z := 1024.

Definition float : Type := spec_float.

Definition sub : float -> float -> float := SFsub prec emax.
Definition mul : float -> float -> float := SFmul prec emax.
Definition div : float -> float -> float := SFdiv prec emax.

Definition is_zero (x : float) : bool :=
  match x with S754_zero _ => true | _ => false end.

(** An integer as an exact operand, before any rounding. *)
Definition exact_int (z : Z) : float :=
  match z with
  | Z0 => S754_zero false
  | Zpos p => S754_finite false p 0
  | Zneg p => S754_finite true p 0
  end.

(** The nearest double of an integer. *)
Definition of_Z (z : Z) : float := binary_normalize prec emax z 0 false.

(** [float(n)]: the nearest double; too large an [int] is an
    [OverflowError]. *)
Definition of_int (z : Z) : result float :=
  match of_Z z with
  | S754_infinity _ => Raise OverflowError
  | x => Ok x
  end.

(** [a / b] on two [int]s: the correctly rounded quotient. *)
Definition int_truediv (a b : Z) : result float :=
  if b =? 0 then Raise ZeroDivisionError
  else match div (exact_int a) (exact_int b) with
       | S754_infinity _ => Raise OverflowError
       | q => Ok q
       end.

(** [x / y] on two [float]s. *)
Definition truediv (x y : float) : result float :=
  if is_zero y then Raise ZeroDivisionError else Ok (div x y).

(** [int(x)]: truncation towards zero. *)
Definition trunc (x : float) : result Z :=
  match x with
  | S754_zero _ => Ok 0
  | S754_infinity _ => Raise OverflowError
  | S754_nan => Raise (ValueError "cannot convert float NaN to integer")
  | S754_finite s m e =>
      let mag := if 0 <=? e then Z.pos m * 2 ^ e else Z.pos m / 2 ^ (- e) in
      Ok (if s then - mag else mag)
  end.

(** [n] written with at least [width] digits. *)
Fixpoint zero_pad (width : nat) (s : string) : string :=
  match width with
  | O => s
  | S w => if (String.length s <? width)%nat
           then String "0" (zero_pad w s) else s
  end.

(** [format(x, ".<d>f")] for [d > 0]: the exact binary value is rounded to
    [d] decimals, ties to even. *)
Definition format_fixed (d : nat) (x : float) : string :=
  match x with
  | S754_nan => "nan"
  | S754_infinity s => if s then "-inf" else "inf"
  | S754_zero s =>
      (if s then "-" else "") +:+ "0." +:+ zero_pad d ""
  | S754_finite s m e =>
      let scale := 10 ^ Z.of_nat d in
      let num := if 0 <=? e then Z.pos m * 2 ^ e * scale else Z.pos m * scale in
      let den := if 0 <=? e then 1 else 2 ^ (- e) in
      let q := num / den in
      let r := num mod den in
      let n := if 2 * r <? den then q
               else if den <? 2 * r then q + 1
               else if Z.even q then q else q + 1 in
      (if s then "-" else "") +:+ str_of_int (n / scale) +:+ "." +:+
      zero_pad d (str_of_int (n mod scale))
  end.

End F64.

(** A Python number where the code lets a variable be an [int] on one
    branch and a [float] on the other. *)
Inductive number : Type :=
| PInt (z : Z)
| PFloat (x : F64.float).

Definition number_float (n : number) : result F64.float :=
  match n with
  | PInt z => F64.of_int z
  | PFloat x => Ok x
  end.

(** [int(n)] *)
Definition number_int (n : number) : result Z :=
  match n with
  | PInt z => Ok z
  | PFloat x => F64.trunc x
  end.

(** [f"{n:.<d>f}"] *)
Definition number_fixed (d : nat) (n : number) : result string :=
  x ← number_float n; Ok (F64.format_fixed d x).

(** [s * n] on a string, for a count the machine can hold: CPython raises
    [OverflowError] for a count beyond [sys.maxsize] and [MemoryError] for a
    text too long for memory, so the statements keep the count small. *)
Definition str_repeat (s : string) (n : Z) : string :=
  Nat.iter (Z.to_nat n) (fun acc => s +:+ acc) EmptyString.

Definition CR : string := String (ascii_of_nat 13) EmptyString.
Definition LF : string := String (ascii_of_nat 10) EmptyString.

Module Progress.

(** *** scanner.py: [print_progress] *)

(** [percent = (completed / total) * 100 if total > 0 else 0] *)
Definition percent_of (completed total : Z) : result number :=
  if 0 <? total then
    q ← F64.int_truediv completed total;
    Ok (PFloat (F64.mul q (F64.of_Z 100)))
  else Ok (PInt 0).

(** The [if completed > 0: ... else: remaining = 0] statement. *)
Definition remaining_of (elapsed : F64.float) (completed total : Z) : result number :=
  if 0 <? completed then
    q ← F64.int_truediv completed total;
    est_total_time ← F64.truediv elapsed q;
    Ok (PFloat (F64.sub est_total_time elapsed))
  else Ok (PInt 0).

(** [print_progress(completed, total)]; [clock] is what [time.time()]
    returns and [start_time] the module-level start stamp.  The result is the
    text handed to [print]. *)
Definition print_progress (clock start_time : F64.float) (completed total : Z)
  : result string :=
  let elapsed := F64.sub clock start_time in
  percent ← percent_of completed total;
  remaining ← remaining_of elapsed completed total;
  pct ← number_fixed 2 percent;
  eta ← number_int remaining;
  Ok (CR +:+ "Progress: " +:+ str_of_int completed +:+ "/" +:+ str_of_int total +:+
      " (" +:+ pct +:+ "%), ETA: " +:+ str_of_int eta +:+ "s").

(** *** 2.ollama-checker.py: [update_progress] *)

Definition bar_length : Z := 40.

Definition update_progress (checked total found : Z) : result string :=
  percentage ← percent_of checked total;
  let filled := if 0 <? total then bar_length * checked / total else 0 in
  let bar := str_repeat "█" filled +:+ str_repeat "░" (bar_length - filled) in
  pct ← number_fixed 1 percentage;
  Ok (CR +:+ "[" +:+ bar +:+ "] " +:+ pct +:+ "% (" +:+ str_of_int checked +:+ "/" +:+
      str_of_int total +:+ ") | Found: " +:+ str_of_int found +:+ "   ").

(** The estimate as the specification words it:
    [elapsed * total / completed - elapsed], evaluated left to right. *)
Definition remaining_as_specified (elapsed : F64.float) (completed total : Z)
  : result number :=
  if 0 <? completed then
    t ← F64.of_int total;
    c ← F64.of_int completed;
    total_time ← F64.truediv (F64.mul elapsed t) c;
    Ok (PFloat (F64.sub total_time elapsed))
  else Ok (PInt 0).

End Progress.

(** ** Values read from JSON, and files *)

(** What [json.load] and [resp.json()] return.  Numbers are the integers;
    an object keeps its members in order, and a key is looked up from the
    left. *)
#[warnings="-register-all"]
Inductive json : Type :=
| JNull
| JBool (b : bool)
| JNum (z : Z)
| JStr (s : string)
| JArr (items : list json)
| JObj (members : list (string * json)).

(** [bool(v)] *)
Definition truthy (v : json) : bool :=
  match v with
  | JNull => false
  | JBool b => b
  | JNum z => negb (z =? 0)
  | JStr s => negb (String.eqb s "")
  | JArr l => match l with [] => false | _ => true end
  | JObj m => match m with [] => false | _ => true end
  end.

(** [type(v).__name__] *)
Definition type_name (v : json) : string :=
  match v with
  | JNull => "NoneType"
  | JBool _ => "bool"
  | JNum _ => "int"
  | JStr _ => "str"
  | JArr _ => "list"
  | JObj _ => "dict"
  end.

Fixpoint assoc {A} (k : string) (m : list (string * A)) : option A :=
  match m with
  | [] => None
  | (k', v) :: rest => if String.eqb k k' then Some v else assoc k rest
  end.

Definition no_attribute (v : json) (attr : string) : exn :=
  AttributeError ("'" +:+ type_name v +:+ "' object has no attribute '" +:+ attr +:+ "'").

(** [v.get(k)] *)
Definition get (v : json) (k : string) : result json :=
  match v with
  | JObj m => Ok (default JNull (assoc k m))
  | _ => Raise (no_attribute v "get")
  end.

(** [v.get(k, d)] *)
Definition get_default (v : json) (k : string) (d : json) : result json :=
  match v with
  | JObj m => Ok (default d (assoc k m))
  | _ => Raise (no_attribute v "get")
  end.

(** [v[k]] for a string key. *)
Definition getitem (v : json) (k : string) : result json :=
  match v with
  | JObj m => match assoc k m with
              | Some x => Ok x
              | None => Raise (KeyError k)
              end
  | JArr _ => Raise (TypeError "list indices must be integers or slices, not str")
  | JStr _ => Raise (TypeError "string indices must be integers, not 'str'")
  | _ => Raise (TypeError ("'" +:+ type_name v +:+ "' object is not subscriptable"))
  end.

(** [iter(v)]: what a [for] loop or a comprehension runs over. *)
Definition iterate (v : json) : result (list json) :=
  match v with
  | JArr l => Ok l
  | JObj m => Ok (map (fun kv => JStr (fst kv)) m)
  | JStr s => Ok (map (fun c => JStr (String c EmptyString)) (list_ascii_of_string s))
  | _ => Raise (TypeError ("'" +:+ type_name v +:+ "' object is not iterable"))
  end.

(** A file on disk as a script sees it: absent, present but failing at
    [open] or at decoding, or present with a decoded content. *)
Inductive file (A : Type) : Type :=
| Missing
| Unreadable
| Holds (content : A).
Arguments Missing {A}.
Arguments Unreadable {A}.
Arguments Holds {A} content.

(** [os.path.exists(path)] *)
Definition exists_ {A} (f : file A) : bool :=
  match f with Missing => false | _ => true end.

(** [with open(path, "r") as f: decode(f)] *)
Definition read_file {A} (path : string) (f : file A) : result A :=
  match f with
  | Missing => Raise (FileNotFoundError path)
  | Unreadable => Raise (ValueError ("cannot decode " +:+ path))
  | Holds a => Ok a
  end.

(** ** scanner.py *)

Module Scanner.

Definition PORTS : string := "11434".
Definition MAX_WORKERS : nat := 24.
Definition RETRIES : nat := 3.
Definition CSV_FILE : string := "nmap_results.csv".
Definition STATE_FILE : string := "state.json".
Definition DATA_FILE : string := "data.json".

(** [list(map(int, v.split('.')))]: [v] has to be a string. *)
Definition split_ints (v : json) : result (list Z) :=
  match v with
  | JStr s => map_result int_of_str (split "." s)
  | _ => Raise (no_attribute v "split")
  end.

(** [to_nmap_range(start, end)] *)
Definition to_nmap_range (start end_ : json) : result string :=
  s ← split_ints start;
  e ← split_ints end_;
  s0 ← index s 0; e0 ← index e 0;
  s1 ← index s 1; e1 ← index e 1;
  s2 ← index s 2; e2 ← index e 2;
  s3 ← index s 3; e3 ← index e 3;
  Ok (str_of_int s0 +:+ "-" +:+ str_of_int e0 +:+ "." +:+
      str_of_int s1 +:+ "-" +:+ str_of_int e1 +:+ "." +:+
      str_of_int s2 +:+ "-" +:+ str_of_int e2 +:+ "." +:+
      str_of_int s3 +:+ "-" +:+ str_of_int e3).

(** *** Start of the script: input, checkpoint and sink *)

(** A row of a CSV file: its fields.  A CSV file is the list of its rows,
    the header first; the bytes on disk are a function of the rows. *)
Definition row : Type := list string.

Record disk : Type := {
  data_json : file json;                  (* data.json *)
  state_json : file (list string);        (* state.json: the "completed_targets" list *)
  results_csv : option (list row)         (* nmap_results.csv *)
}.

(** How a run of the script ends. *)
Record exit : Type := {
  exit_code : Z;
  stderr : string
}.

(** [sys.exit(arg)] raises [SystemExit]; a text argument is printed on
    stderr and the exit code is 1. *)
Definition sys_exit_text {A} (msg : string) : result A := Raise (SystemExit 1 msg).

(** An exception that leaves the script: [SystemExit] carries its own code
    and text; anything else ends the interpreter with a traceback and code
    1, except [KeyboardInterrupt], which ends it with code 130. *)
Definition exit_of_exn (e : exn) : exit :=
  match e with
  | SystemExit code msg => {| exit_code := code; stderr := msg |}
  | KeyboardInterrupt => {| exit_code := 130; stderr := "KeyboardInterrupt" |}
  | _ => {| exit_code := 1; stderr := "Traceback (most recent call last): " +:+ exn_str e |}
  end.

(** Lines 14-20: the [try] around loading data.json, closed by a bare
    [except:], which also catches the [SystemExit] raised inside it. *)
Definition load_data (d : disk) : result json :=
  match (data ← read_file DATA_FILE (data_json d);
         if negb (truthy data) then sys_exit_text "No data found in the JSON file."
         else Ok data) with
  | Ok data => Ok data
  | Raise _ => sys_exit_text "Error reading the JSON file."
  end.

(** Lines 28-33: one item of the loop building [targets]; only [KeyError]
    is caught, and reported on stdout. *)
Definition target_of_item (item : json) : result (option string * list string) :=
  match (start ← getitem item "start";
         end_ ← getitem item "end";
         to_nmap_range start end_) with
  | Ok t => Ok (Some t, [])
  | Raise (KeyError k) =>
      Ok (None, ["Missing key in data item: " +:+ exn_str (KeyError k)])
  | Raise e => Raise e
  end.

Fixpoint build_targets (items : list json) : result (list string * list string) :=
  match items with
  | [] => Ok ([], [])
  | item :: rest =>
      r ← target_of_item item;
      rs ← build_targets rest;
      Ok (option_list (fst r) ++ fst rs, snd r ++ snd rs)
  end.

(** Lines 46-50: the checkpoint is read when the file exists; no [try]
    surrounds the read. *)
Definition load_state (d : disk) : result (list string) :=
  if exists_ (state_json d) then read_file STATE_FILE (state_json d)
  else Ok [].

Definition csv_header : row := ["Host"; "Open Ports"]%string.

(** Lines 53-56 *)
Definition init_csv (d : disk) : list row :=
  match results_csv d with
  | Some rows => rows
  | None => [csv_header]
  end.

(** *** The probe and the worker *)

(** What the scanning engine reports for one host: its name and, per TCP
    port it has an entry for, the state of the port. *)
Record host_report : Type := {
  host_name : string;
  tcp : gmap Z string
}.

(** The result of one [nm.scan]: the reports, in [nm.all_hosts()] order. *)
Definition scan_result : Type := list host_report.

(** [ports_list = [int(p) for p in PORTS.split(",")]] *)
Definition ports_list : list Z :=
  match map_result int_of_str (split "," PORTS) with
  | Ok l => l
  | Raise _ => []
  end.

(** The inner loop over [ports_list]. *)
Definition open_ports (h : host_report) : list string :=
  map str_of_int
      (filter (fun p => tcp h !! p = Some "open"%string) ports_list).

(** The row written for a host. *)
Definition csv_row (h : host_report) : row :=
  [host_name h; join "," (open_ports h)].

Definition interesting (h : host_report) : bool :=
  match open_ports h with [] => false | _ => true end.

(** What happens outside the script during a run.  Workers are numbered
    in submission order and attempts from 0:
    - [portscanner i]: what [nmap.PortScanner()] raises in worker [i]
      (line 78, before the [try]), or [None] when it returns an engine;
    - [scan_outcome i a]: [nm.scan] of worker [i] at attempt [a] returns a
      result, or raises (an [Exception]) when [None];
    - [csv_fails i a n]: appending the row of the [n]-th host raises;
    - [save_outcome i a]: how [save_state()] of worker [i] ends. *)
Inductive save_result : Type :=
| Saved                (* the file holds the dumped state *)
| Garbled              (* the writes of two workers overlap: nothing is
                          raised and the file is left undecodable *)
| FailsBeforeOpen      (* [open] raises, the file is untouched *)
| FailsAfterTruncate.  (* [json.dump] raises, the file is left cut *)

Record world : Type := {
  portscanner : nat -> option exn;
  scan_outcome : nat -> nat -> option scan_result;
  csv_fails : nat -> nat -> nat -> bool;
  save_outcome : nat -> nat -> save_result
}.

(** Where a worker is inside [scan_target]. *)
Inductive pc : Type :=
| AtScan (attempt : nat)                          (* before [nm.scan] *)
| AtHosts (attempt : nat) (res : scan_result) (n : nat)
                                                  (* in [for host in nm.all_hosts()],
                                                     before host number [n] *)
| AtSave (attempt : nat) (res : scan_result)      (* before [save_state()] *)
| AtSleep (attempt : nat)                         (* in [time.sleep(2)] *)
| Returned (value : Z)
| Raised (e : exn).                               (* an exception left
                                                     [scan_target] *)

Inductive event : Type :=
| EvScan (i : nat) (target : string)     (* [nm.scan] is called *)
| EvSleep (i : nat) (seconds : Z)
| EvRow (i : nat) (r : row)              (* a row is appended to the CSV file *)
| EvMark (i : nat) (target : string)     (* the key joins [completed_targets] *)
| EvSave (i : nat)                       (* [save_state()] has run *)
| EvExhausted (i : nat)                  (* the last attempt has raised *)
| EvReturn (i : nat) (value : Z)
| EvRaised (i : nat).                    (* [nmap.PortScanner()] has raised *)

(** What the workers share: the [state] dictionary and the two files. *)
Record shared : Type := {
  completed_targets : list string;  (* [state["completed_targets"]] *)
  csv : list row;                   (* rows of nmap_results.csv *)
  checkpoint : file (list string)   (* state.json *)
}.

(** The [except Exception] clause at attempt [a]. *)
Definition handler (i a : nat) : pc * list event :=
  if (a + 1 =? RETRIES)%nat then (Returned 0, [EvExhausted i; EvReturn i 0])
  else (AtSleep a, []).

(** Lines 78-79, the first thing a future does: [nmap.PortScanner()] and
    the list of ports.  They stand before the [try]: what the constructor
    raises leaves [scan_target] and ends the future, with no attempt made. *)
Definition start_pc (w : world) (i : nat) : pc :=
  match portscanner w i with
  | None => AtScan 0
  | Some e => Raised e
  end.

Definition start_events (w : world) (i : nat) : list event :=
  match portscanner w i with
  | None => []
  | Some _ => [EvRaised i]
  end.

(** One atomic step of [scan_target(t)] run by worker [i] from its first
    attempt on; [None] once it has returned or raised. *)
Definition local_step (w : world) (i : nat) (t : string) (p : pc) (sh : shared)
  : option (pc * shared * list event) :=
  let raise (a : nat) (evs : list event) (sh' : shared) :=
    Some (fst (handler i a), sh', evs ++ snd (handler i a)) in
  match p with
  | AtScan a =>
      match scan_outcome w i a with
      | Some res => Some (AtHosts a res 0, sh, [EvScan i t])
      | None => raise a [EvScan i t] sh
      end
  | AtHosts a res n =>
      match res !! n with
      | Some h =>
          if interesting h then
            if csv_fails w i a n then raise a [] sh
            else Some (AtHosts a res (S n),
                       {| completed_targets := completed_targets sh;
                          csv := csv sh ++ [csv_row h];
                          checkpoint := checkpoint sh |},
                       [EvRow i (csv_row h)])
          else Some (AtHosts a res (S n), sh, [])
      | None =>
          Some (AtSave a res,
                {| completed_targets := completed_targets sh ++ [t];
                   csv := csv sh;
                   checkpoint := checkpoint sh |},
                [EvMark i t])
      end
  | AtSave a res =>
      let written (ck : file (list string)) :=
        {| completed_targets := completed_targets sh;
           csv := csv sh;
           checkpoint := ck |} in
      let value := Z.of_nat (length res) in
      match save_outcome w i a with
      | Saved =>
          Some (Returned value, written (Holds (completed_targets sh)),
                [EvSave i; EvReturn i value])
      | Garbled =>
          Some (Returned value, written Unreadable, [EvSave i; EvReturn i value])
      | FailsBeforeOpen => raise a [] sh
      | FailsAfterTruncate => raise a [] (written Unreadable)
      end
  | AtSleep a => Some (AtScan (S a), sh, [EvSleep i 2])
  | Returned _ | Raised _ => None
  end.

(** The attempts of [scan_target(t)] (lines 80-104) run to the [return]
    with nothing else moving. *)
Fixpoint scan_target_from (fuel : nat) (w : world) (i : nat) (t : string)
    (p : pc) (sh : shared) (tr : list event) : option (Z * shared * list event) :=
  match p with
  | Returned v => Some (v, sh, tr)
  | _ =>
      match fuel with
      | O => None
      | S fuel' =>
          match local_step w i t p sh with
          | Some (p', sh', evs) => scan_target_from fuel' w i t p' sh' (tr ++ evs)
          | None => None
          end
      end
  end.

(** [scan_target(t)]: the value it returns or the exception that leaves
    it, what it did to the shared state and its events. *)
Definition scan_target (fuel : nat) (w : world) (i : nat) (t : string) (sh : shared)
  : option (result Z * shared * list event) :=
  match portscanner w i with
  | Some e => Some (Raise e, sh, [EvRaised i])
  | None =>
      match scan_target_from fuel w i t (AtScan 0) sh [] with
      | Some (v, sh', tr) => Some (Ok v, sh', tr)
      | None => None
      end
  end.

(** *** The pool *)

(** A future: its target and where its worker is; [None] while it waits
    for a free thread. *)
Record worker : Type := {
  target : string;
  at_ : option pc
}.

(** The script while the pool runs. *)
Record state : Type := {
  workers : list worker;     (* the futures, in submission order *)
  pending : list string;     (* targets the submitting loop has yet to reach *)
  mem : shared;
  trace : list event
}.

Definition busy (wk : worker) : bool :=
  match at_ wk with
  | None | Some (Returned _) | Some (Raised _) => false
  | Some _ => true
  end.

Definition running (ws : list worker) : nat := length (List.filter busy ws).

Definition set_pc (i : nat) (p : pc) (ws : list worker) : list worker :=
  alter (fun wk => {| target := target wk; at_ := Some p |}) i ws.

(** One step of worker [i]: a waiting future starts (lines 78-79) when
    fewer than [MAX_WORKERS] are running, a started one takes its next
    step. *)
Definition worker_step (w : world) (i : nat) (st : state) : option state :=
  wk ← workers st !! i;
  match at_ wk with
  | None =>
      if (running (workers st) <? MAX_WORKERS)%nat
      then Some {| workers := set_pc i (start_pc w i) (workers st);
                   pending := pending st;
                   mem := mem st;
                   trace := trace st ++ start_events w i |}
      else None
  | Some p =>
      '(p', sh', evs) ← local_step w i (target wk) p (mem st);
      Some {| workers := set_pc i p' (workers st);
              pending := pending st;
              mem := sh';
              trace := trace st ++ evs |}
  end.

(** One turn of the submitting loop (lines 111-113): the next target gets
    a future unless its key is already in [completed_targets]. *)
Definition submit_step (st : state) : option state :=
  match pending st with
  | [] => None
  | t :: rest =>
      Some {| workers := if bool_decide (t ∈ completed_targets (mem st))
                         then workers st
                         else workers st ++ [{| target := t; at_ := None |}];
              pending := rest;
              mem := mem st;
              trace := trace st |}
  end.

(** Who moves next: the main thread or a worker. *)
Inductive actor : Type :=
| Main
| Worker (i : nat).

Definition step (w : world) (a : actor) (st : state) : option state :=
  match a with
  | Main => submit_step st
  | Worker i => worker_step w i st
  end.

(** A schedule is run from the left; it is refused as soon as it names an
    actor that cannot move. *)
Fixpoint run (w : world) (sched : list actor) (st : state) : option state :=
  match sched with
  | [] => Some st
  | a :: rest => st' ← step w a st; run w rest st'
  end.

(** The script up to the pool (lines 14-59), from the files on disk: the
    state the pool starts in and what was printed. *)
Definition boot (d : disk) : result (state * list string) :=
  data ← load_data d;
  items ← iterate data;
  ts ← build_targets items;
  loaded ← load_state d;
  Ok ({| workers := [];
         pending := fst ts;
         mem := {| completed_targets := loaded;
                   csv := init_csv d;
                   checkpoint := state_json d |};
         trace := [] |}, snd ts).

(** The pool has nothing left to do: every target was looked at and every
    future is done, with a value or with an exception ([as_completed] hands
    back both, and the script never asks a future for its result).  What
    remains of the script prints the progress line of each future and "Scan
    completed.". *)
Definition finished (st : state) : bool :=
  match pending st with
  | [] => forallb (fun wk => match at_ wk with
                             | Some (Returned _) | Some (Raised _) => true
                             | _ => false
                             end) (workers st)
  | _ => false
  end.

(** What is on disk when the run stops in [st]. *)
Definition disk_after (d : disk) (st : state) : disk :=
  {| data_json := data_json d;
     state_json := checkpoint (mem st);
     results_csv := Some (csv (mem st)) |}.

(** How far a run of the script got. *)
Inductive ending : Type :=
| Running                 (* stopped from outside while the pool was at work *)
| Completed               (* "Scan completed." was printed *)
| Died (e : exn).         (* an exception left the script *)

(** The exit status of the process, when it ended by itself. *)
Definition exit_of (e : ending) : option exit :=
  match e with
  | Running => None
  | Completed => Some {| exit_code := 0; stderr := "" |}
  | Died e => Some (exit_of_exn e)
  end.

Record report : Type := {
  ended : ending;
  on_disk : disk;
  events : list event
}.

(** The whole script under a schedule of the pool; [None] when the
    schedule names an actor that cannot move.  An exception before the pool
    leaves the files as they were. *)
Definition script (w : world) (sched : list actor) (d : disk) : option report :=
  match boot d with
  | Raise e => Some {| ended := Died e; on_disk := d; events := [] |}
  | Ok (st0, _) =>
      st ← run w sched st0;
      Some {| ended := if finished st then Completed else Running;
              on_disk := disk_after d st;
              events := trace st |}
  end.

Definition is_scan (e : event) : bool :=
  match e with EvScan _ _ => true | _ => false end.

Definition is_sleep (e : event) : bool :=
  match e with EvSleep _ _ => true | _ => false end.

(** The rows a scan result calls for are all in the file. *)
Definition rows_written (res : scan_result) (rows : list row) : Prop :=
  forall h, h ∈ res -> interesting h = true -> csv_row h ∈ rows.

End Scanner.

(** ** 2.ollama-checker.py *)

Module Checker.

Definition STATE_FILE : string := "ollama-state.json".
Definition OLLAMA_CSV : string := "ollama.csv".
Definition NMAP_CSV : string := "nmap_results.csv".

(** A unit of work: the "Host" and "Open Ports" fields of a row. *)
Definition unit_ : Type := (string * string)%type.

(** What state.json holds: the keys checked so far (a JSON list, read
    back with [set(...)]) and the list of rows found. *)
Record saved_state : Type := {
  checked_keys : gset string;
  found_rows : list unit_
}.

(** [{"checked": set(), "found": []}] *)
Definition empty_state : saved_state :=
  {| checked_keys := ∅; found_rows := [] |}.

Record disk : Type := {
  state_json : file saved_state;        (* ollama-state.json *)
  nmap_csv : file (list unit_);         (* nmap_results.csv, rows under the header *)
  ollama_csv : option (list (list string))  (* ollama.csv, header included *)
}.

(** [load_state()]: the read sits in a [try] closed by a bare [except:]
    that returns a fresh empty state. *)
Definition load_state (d : disk) : result saved_state :=
  if exists_ (state_json d) then
    match read_file STATE_FILE (state_json d) with
    | Ok s => Ok s
    | Raise _ => Ok empty_state
    end
  else Ok empty_state.

(** The state [main] works from. *)
Definition loaded (d : disk) : saved_state :=
  match load_state d with
  | Ok s => s
  | Raise _ => empty_state
  end.

(** What [requests.get] meets: a response, or a [RequestException]. *)
Inductive reply : Type :=
| Refused (msg : string)
| Answer (status_code : Z) (text : string).

(** The world of a run: the network, and the order in which
    [as_completed] hands back the futures it was given. *)
Record world : Type := {
  net : string -> reply;
  arrange : list unit_ -> list unit_
}.

(** [check_ollama_host(host, port, timeout)] *)
Definition check_ollama_host (w : world) (host port : string) : string * string * bool :=
  let url := "http://" +:+ host +:+ ":" +:+ port in
  match net w url with
  | Answer status_code text =>
      if contains "Ollama is running" text then (host, port, true)
      else if status_code =? 200 then (host, port, true)
      else (host, port, false)
  | Refused _ => (host, port, false)
  end.

(** [f"{host}:{port}"] *)
Definition key (u : unit_) : string := fst u +:+ ":" +:+ snd u.

(** What the script writes on stdout: [Print s] is one call [print(s)],
    which writes [s] and a line feed. *)
Inductive output : Type :=
| Print (s : string)
| Bar (checked total found : Z).   (* the line [update_progress] writes *)

(** The variables of [main] and the files. *)
Record vars : Type := {
  checked_set : gset string;
  ollama_hosts : list unit_;
  checked : Z;
  found : Z;
  files : disk;
  stdout : list output
}.

Definition say (o : output) (v : vars) : vars :=
  {| checked_set := checked_set v; ollama_hosts := ollama_hosts v;
     checked := checked v; found := found v; files := files v;
     stdout := stdout v ++ [o] |}.

(** [save_state({"checked": list(checked_set), "found": ollama_hosts})] *)
Definition save_state (v : vars) : vars :=
  {| checked_set := checked_set v; ollama_hosts := ollama_hosts v;
     checked := checked v; found := found v;
     files := {| state_json := Holds {| checked_keys := checked_set v;
                                        found_rows := ollama_hosts v |};
                 nmap_csv := nmap_csv (files v);
                 ollama_csv := ollama_csv (files v) |};
     stdout := stdout v |}.

Definition csv_header : list string := ["Host"; "Open Ports"]%string.

(** The [with open(OLLAMA_CSV, "w")] block: header, then one row per
    entry of [ollama_hosts]. *)
Definition write_csv (v : vars) : vars :=
  {| checked_set := checked_set v; ollama_hosts := ollama_hosts v;
     checked := checked v; found := found v;
     files := {| state_json := state_json (files v);
                 nmap_csv := nmap_csv (files v);
                 ollama_csv := Some (csv_header ::
                                     map (fun u => [fst u; snd u]) (ollama_hosts v)) |};
     stdout := stdout v |}.

(** The statements of the [try] block, one atomic step each. *)
Definition stmt : Type := vars -> vars.

(** Lines 113-116 *)
Definition mark_checked (r : string * string * bool) : stmt := fun v =>
  {| checked_set := {[ key (fst r) ]} ∪ checked_set v;
     ollama_hosts := ollama_hosts v;
     checked := checked v + 1; found := found v;
     files := files v; stdout := stdout v |}.

(** Lines 118-120 *)
Definition record_found (r : string * string * bool) : stmt := fun v =>
  if snd r then
    {| checked_set := checked_set v;
       ollama_hosts := ollama_hosts v ++ [fst r];
       checked := checked v; found := found v + 1;
       files := files v; stdout := stdout v |}
  else v.

(** Line 123 *)
Definition show_progress (total : Z) : stmt := fun v =>
  say (Bar (checked v) total (found v)) v.

(** Lines 124-126 *)
Definition save_if_due (to_check : Z) : stmt := fun v =>
  if (checked v mod 10 =? 0) || (checked v =? to_check) then save_state v else v.

Definition iteration (total to_check : Z) (r : string * string * bool) : list stmt :=
  [mark_checked r; record_found r; show_progress total; save_if_due to_check].

(** Lines 130-139 *)
Definition write_results (total : Z) : stmt := fun v =>
  match ollama_hosts v with
  | [] => say (Print ("✗ No hosts with Ollama found (checked " +:+ str_of_int total +:+ ")")) v
  | _ =>
      say (Print ("Results saved to " +:+ OLLAMA_CSV))
        (say (Print ("✓ Found " +:+ str_of_int (found v) +:+ "/" +:+ str_of_int total +:+
                     " hosts with Ollama running"))
           (write_csv v))
  end.

(** Lines 92-100: nothing is left to check. *)
Definition announce_complete (total : Z) : stmt :=
  say (Print ("Scan complete! All " +:+ str_of_int total +:+ " hosts have been checked.")).

Definition rewrite_results (total : Z) : stmt := fun v =>
  match ollama_hosts v with
  | [] => v
  | _ =>
      say (Print ("Results saved to " +:+ OLLAMA_CSV))
        (say (Print ("✓ Found " +:+ str_of_int (Z.of_nat (length (ollama_hosts v))) +:+
                     "/" +:+ str_of_int total +:+ " hosts with Ollama running"))
           (write_csv v))
  end.

Definition report_complete (total : Z) : list stmt :=
  [announce_complete total; rewrite_results total].

Definition strip (s : string) : string := rstrip (lstrip s).

(** Line 82 *)
Definition hosts_list_of (rows : list unit_) : list unit_ :=
  map (fun u => (strip (fst u), strip (snd u))) rows.

(** Line 87 *)
Definition hosts_to_check_of (checked0 : gset string) (hosts_list : list unit_)
  : list unit_ :=
  filter (fun u => key u ∉ checked0) hosts_list.

(** The futures in the order they are handed back, with their results. *)
Definition completions (w : world) (hosts_to_check : list unit_)
  : list (string * string * bool) :=
  map (fun u => check_ollama_host w (fst u) (snd u)) (arrange w hosts_to_check).

(** The statements [main] runs once the input is read. *)
Definition script (w : world) (state : saved_state) (rows : list unit_) : list stmt :=
  let hosts_list := hosts_list_of rows in
  let total := Z.of_nat (length hosts_list) in
  let hosts_to_check := hosts_to_check_of (checked_keys state) hosts_list in
  let to_check := Z.of_nat (length hosts_to_check) in
  match hosts_to_check with
  | [] => report_complete total
  | _ =>
      [say (Print ("Resuming scan: " +:+
                   str_of_int (Z.of_nat (size (checked_keys state))) +:+
                   " already checked, " +:+ str_of_int to_check +:+
                   " remaining out of " +:+ str_of_int total +:+ "..." +:+ LF));
       fun v => {| checked_set := checked_set v; ollama_hosts := ollama_hosts v;
                   checked := Z.of_nat (size (checked_set v));
                   found := Z.of_nat (length (ollama_hosts v));
                   files := files v; stdout := stdout v |}]
      ++ concat (map (iteration total to_check) (completions w hosts_to_check))
      ++ [say (Print LF); write_results total; save_state]
  end.

(** The probes handed to the pool. *)
Definition dispatched (state : saved_state) (rows : list unit_) : list unit_ :=
  hosts_to_check_of (checked_keys state) (hosts_list_of rows).

Definition exec (ss : list stmt) (v : vars) : vars :=
  fold_left (fun v s => s v) ss v.

(** Lines 148-153; the first text starts with two line feeds. *)
Definition on_interrupt (v : vars) : vars :=
  say (Print "Run the script again to resume from where you left off.")
    (save_state
       (say (Print (LF +:+ LF +:+ "Scan paused. Progress saved to state.json")) v)).

Record outcome : Type := {
  exit_code : Z;
  final : vars;
  probes : list unit_
}.

(** Lines 74-76: the variables before the [try] block.  The two counters
    are assigned later; they stand at 0 until then. *)
Definition start (d : disk) : vars :=
  {| checked_set := checked_keys (loaded d);
     ollama_hosts := found_rows (loaded d);
     checked := 0; found := 0;
     files := d; stdout := [] |}.

(** [main()].  [stop = Some n] is a [KeyboardInterrupt] arriving when [n]
    statements of the [try] block have run. *)
Definition main (w : world) (stop : option nat) (d : disk) : outcome :=
  let v0 := start d in
  match load_state d with
  | Raise _ => {| exit_code := 1; final := v0; probes := [] |}
  | Ok state =>
      match read_file NMAP_CSV (nmap_csv d) with
      | Raise (FileNotFoundError _) =>
          {| exit_code := 1;
             final := say (Print ("Error: " +:+ NMAP_CSV +:+ " not found")) v0;
             probes := [] |}
      | Raise _ =>
          {| exit_code := 1; final := v0; probes := [] |}
      | Ok rows =>
          let ss := script w state rows in
          match stop with
          | Some n =>
              if (n <? length ss)%nat then
                {| exit_code := 0;
                   final := on_interrupt (exec (take n ss) v0);
                   probes := if (n <=? 1)%nat then [] else dispatched state rows |}
              else {| exit_code := 0; final := exec ss v0;
                      probes := dispatched state rows |}
          | None => {| exit_code := 0; final := exec ss v0;
                       probes := dispatched state rows |}
          end
      end
  end.

(** The checkpoint written after [k] completions: the keys of the first
    [k] units handed back, and the rows of those among them that answered. *)
Definition snapshot (state : saved_state) (done : list (string * string * bool))
  : saved_state :=
  {| checked_keys := list_to_set (map (fun r => key (fst r)) done) ∪ checked_keys state;
     found_rows := found_rows state ++
                   map fst (List.filter (fun r => snd r) done) |}.

(** ollama.csv once a run has reported: rewritten from the rows found,
    or left as it was when there are none. *)
Definition reported_csv (rows : list unit_) (old : option (list (list string)))
  : option (list (list string)) :=
  match rows with
  | [] => old
  | _ => Some (csv_header :: map (fun u => [fst u; snd u]) rows)
  end.

(** [as_completed] hands back each future it was given once, in some
    order. *)
Definition fair (w : world) : Prop := forall l, arrange w l ≡ₚ l.

(** The variables stand where the loop has handled [done] and nothing of
    the next future yet. *)
Definition at_boundary (state : saved_state) (done : list (string * string * bool))
    (v : vars) : Prop :=
  checked_set v = checked_keys (snapshot state done) /\
  ollama_hosts v = found_rows (snapshot state done).

(** state.json is as the run found it, or holds the checkpoint of a whole
    number of completions; ollama.csv and the input are as the run found
    them. *)
Definition checkpoint_whole (d : disk) (state : saved_state)
    (rs : list (string * string * bool)) (v : vars) : Prop :=
  nmap_csv (files v) = nmap_csv d /\
  (state_json (files v) = state_json d \/
   exists k, state_json (files v) = Holds (snapshot state (take k rs))).

End Checker.

(** ** 3. ollama-model-list.py *)

Module ModelList.

Definition TIMEOUT : Z := 5.

(** What [requests.get] meets: it raises (a [RequestException]), or a
    response comes back with its status line, its text and, when the text
    decodes, the value of [resp.json()]. *)
Inductive reply : Type :=
| Unreachable (msg : string)
| Response (status_code : Z) (reason text : string) (body : option json).

Definition network : Type := string -> Z -> reply.

(** [s.rstrip("/")] *)
Fixpoint rstrip_slash (s : string) : string :=
  match s with
  | EmptyString => EmptyString
  | String c rest =>
      match rstrip_slash rest with
      | EmptyString => if Ascii.eqb c "/" then EmptyString else String c EmptyString
      | r => String c r
      end
  end.

(** [s[:n]] *)
Fixpoint first_chars (n : nat) (s : string) : string :=
  match n, s with
  | S n', String c rest => String c (first_chars n' rest)
  | _, _ => EmptyString
  end.

(** [s.replace("\n", " ")] *)
Fixpoint newlines_to_spaces (s : string) : string :=
  match s with
  | EmptyString => EmptyString
  | String c rest =>
      String (if Ascii.eqb c (ascii_of_nat 10) then " "%char else c)
             (newlines_to_spaces rest)
  end.

Definition base_url_of (host : string) : string :=
  if String.prefix "http://" host || String.prefix "https://" host
  then rstrip_slash host
  else "http://" +:+ rstrip_slash host.

(** [resp.raise_for_status()] *)
Definition raise_for_status (url : string) (status_code : Z) (reason : string)
  : result unit :=
  if (400 <=? status_code) && (status_code <? 500) then
    Raise (RequestException (str_of_int status_code +:+ " Client Error: " +:+ reason +:+
                             " for url: " +:+ url))
  else if (500 <=? status_code) && (status_code <? 600) then
    Raise (RequestException (str_of_int status_code +:+ " Server Error: " +:+ reason +:+
                             " for url: " +:+ url))
  else Ok tt.

(** [[m.get("name") for m in ms if m.get("name")]] *)
Fixpoint model_names (ms : list json) : result (list json) :=
  match ms with
  | [] => Ok []
  | m :: rest =>
      cond ← get m "name";
      if truthy cond then
        name ← get m "name";
        names ← model_names rest;
        Ok (name :: names)
      else model_names rest
  end.

(** The body of the [try]. *)
Definition fetch_models (net : network) (base_url : string) (timeout : Z)
  : result (list json) :=
  let url := base_url +:+ "/api/tags" in
  match net url timeout with
  | Unreachable msg => Raise (RequestException msg)
  | Response status_code reason text body =>
      _ ← raise_for_status url status_code reason;
      tags ← match body with
             | Some v => Ok v
             | None =>
                 let text_snippet := newlines_to_spaces (first_chars 200 text) in
                 Raise (GenericException
                          ("Invalid JSON from " +:+ url +:+ ": " +:+ text_snippet +:+
                           " (status=" +:+ str_of_int status_code +:+ ")"))
             end;
      models ← get_default tags "models" (JArr []);
      ms ← iterate models;
      model_names ms
  end.

(** [fetch_ollama_info(host, timeout)]: the dictionary it returns. *)
Definition fetch_ollama_info (net : network) (host : string) (timeout : Z)
  : result (gmap string json) :=
  let base_url := base_url_of host in
  let result_ : gmap string json :=
    <["error" := JNull]>
      (<["runtime" := JStr "unknown"]>
         (<["models" := JArr []]>
            (<["status" := JStr "ok"]>
               (<["host" := JStr host]> ∅)))) in
  match fetch_models net base_url timeout with
  | Ok names => Ok (<["models" := JArr names]> result_)
  | Raise e =>
      if is_Exception e
      then Ok (<["error" := JStr (exn_str e)]> (<["status" := JStr "error"]> result_))
      else Raise e
  end.

End ModelList.

(** ** Invariants of the pool of scanner.py *)

Module ScannerInv.

Import Scanner.

(** Some attempt of worker [i] returned a scan result whose interesting
    hosts all have their row in [rows]. *)
Definition attempt_written (w : world) (i : nat) (rows : list row) : Prop :=
  exists a res, scan_outcome w i a = Some res /\ rows_written res rows.

(** The checkpoint is never ahead of the sink.  [loaded] is the list of keys
    read from state.json when the run started. *)
Record behind_sink (w : world) (loaded : list string) (st : state) : Prop := {
  sink_hosts :
    forall i wk a res n,
      workers st !! i = Some wk -> at_ wk = Some (AtHosts a res n) ->
      scan_outcome w i a = Some res /\
      forall k h, (k < n)%nat -> res !! k = Some h -> interesting h = true ->
                  csv_row h ∈ csv (mem st);
  sink_save :
    forall i wk a res,
      workers st !! i = Some wk -> at_ wk = Some (AtSave a res) ->
      scan_outcome w i a = Some res /\ rows_written res (csv (mem st));
  sink_memory :
    forall t, t ∈ completed_targets (mem st) ->
      t ∈ loaded \/
      exists i wk, workers st !! i = Some wk /\ target wk = t /\
                   attempt_written w i (csv (mem st));
  sink_disk :
    forall l, checkpoint (mem st) = Holds l ->
      forall t, t ∈ l -> t ∈ completed_targets (mem st)
}.

(** [initial] is the list of targets of the run, [loaded] the keys read
    from state.json at its start. *)
Record progress (initial loaded : list string) (st : state) : Prop := {
  looked_at :
    exists seen, initial = seen ++ pending st /\
      forall t, t ∈ seen ->
        t ∈ loaded \/ exists i wk, workers st !! i = Some wk /\ target wk = t;
  keeps_loaded :
    forall t, t ∈ loaded -> t ∈ completed_targets (mem st);
  marked :
    forall i wk p, workers st !! i = Some wk -> at_ wk = Some p ->
      match p with
      | AtSave _ _ => target wk ∈ completed_targets (mem st)
      | Returned _ =>
          EvExhausted i ∈ trace st \/ target wk ∈ completed_targets (mem st)
      | Raised _ => EvRaised i ∈ trace st
      | _ => True
      end;
  saved :
    forall l, checkpoint (mem st) = Holds l ->
      (forall t, t ∈ loaded -> t ∈ l) /\
      forall i wk v, workers st !! i = Some wk -> at_ wk = Some (Returned v) ->
        EvExhausted i ∈ trace st \/ target wk ∈ l;
  unsaved :
    checkpoint (mem st) = Missing ->
      loaded = [] /\
      forall i wk v, workers st !! i = Some wk -> at_ wk = Some (Returned v) ->
        EvExhausted i ∈ trace st
}.

End ScannerInv.

(** ** Sample inputs *)

Module Samples.

Definition f64 (z : Z) : F64.float := F64.of_Z z.

(** *** scanner.py *)

Definition one_range : json :=
  JArr [JObj [("start", JStr "10.0.0.1"); ("end", JStr "10.0.0.9")]%string].

Definition the_target : string := "10-10.0-0.0-0.1-9".

Definition fresh_disk : Scanner.disk :=
  {| Scanner.data_json := Holds one_range;
     Scanner.state_json := Missing;
     Scanner.results_csv := None |}.

Definition corrupt_checkpoint_disk : Scanner.disk :=
  {| Scanner.data_json := Holds one_range;
     Scanner.state_json := Unreadable;
     Scanner.results_csv := None |}.

Definition no_data_disk : Scanner.disk :=
  {| Scanner.data_json := Missing;
     Scanner.state_json := Missing;
     Scanner.results_csv := None |}.

Definition open_host : Scanner.host_report :=
  {| Scanner.host_name := "10.0.0.5"; Scanner.tcp := {[ 11434 := "open"%string ]} |}.

Definition closed_host : Scanner.host_report :=
  {| Scanner.host_name := "10.0.0.6"; Scanner.tcp := {[ 11434 := "closed"%string ]} |}.

(** Every scan raises. *)
Definition unreachable_world : Scanner.world :=
  {| Scanner.portscanner := fun _ => None;
     Scanner.scan_outcome := fun _ _ => None;
     Scanner.csv_fails := fun _ _ _ => false;
     Scanner.save_outcome := fun _ _ => Scanner.Saved |}.

(** Every scan returns two hosts, one with the port open. *)
Definition live_world : Scanner.world :=
  {| Scanner.portscanner := fun _ => None;
     Scanner.scan_outcome := fun _ _ => Some [open_host; closed_host];
     Scanner.csv_fails := fun _ _ _ => false;
     Scanner.save_outcome := fun _ _ => Scanner.Saved |}.

(** Scans would return, but [nmap.PortScanner()] raises in every future
    (the engine is not installed). *)
Definition no_engine_world : Scanner.world :=
  {| Scanner.portscanner :=
       fun _ => Some (GenericException "nmap program was not found in path");
     Scanner.scan_outcome := fun _ _ => Some [open_host; closed_host];
     Scanner.csv_fails := fun _ _ _ => false;
     Scanner.save_outcome := fun _ _ => Scanner.Saved |}.

Definition fresh_shared : Scanner.shared :=
  {| Scanner.completed_targets := [];
     Scanner.csv := [Scanner.csv_header];
     Scanner.checkpoint := Missing |}.

(** The target is submitted, its worker starts and takes [n] steps. *)
Definition one_worker (n : nat) : list Scanner.actor :=
  Scanner.Main :: Scanner.Worker 0 :: replicate n (Scanner.Worker 0).

(** *** 2.ollama-checker.py *)

Definition one_host : list Checker.unit_ := [("10.0.0.5", "11434")]%string.

Definition checker_disk : Checker.disk :=
  {| Checker.state_json := Missing;
     Checker.nmap_csv := Holds one_host;
     Checker.ollama_csv := None |}.

Definition no_input_disk : Checker.disk :=
  {| Checker.state_json := Missing;
     Checker.nmap_csv := Missing;
     Checker.ollama_csv := None |}.

Definition corrupt_state_disk : Checker.disk :=
  {| Checker.state_json := Unreadable;
     Checker.nmap_csv := Holds one_host;
     Checker.ollama_csv := None |}.

(** Every host answers as Ollama does; futures come back in submission
    order. *)
Definition answering : Checker.world :=
  {| Checker.net := fun _ => Checker.Answer 200 "Ollama is running";
     Checker.arrange := fun l => l |}.

(** No host answers. *)
Definition silent : Checker.world :=
  {| Checker.net := fun _ => Checker.Refused "timed out";
     Checker.arrange := fun l => l |}.

End Samples.

(** ** What the callers of [to_nmap_range] can rely on *)

Module TargetSpec.

(** An argument that is no string, or a string on which [int_of_str] is
    [int()]. *)
Definition plain (v : json) : Prop :=
  match v with
  | JStr s => within_int s
  | _ => True
  end.

(** An endpoint [to_nmap_range] accepts: a string whose dot-separated fields
    are all integer literals and number at least four. *)
Definition dotted (v : json) : Prop :=
  exists a, v = JStr a /\
            Forall (fun f => raises (int_of_str f) = false) (split "." a) /\
            (4 <= length (split "." a))%nat.

(** The exceptions [to_nmap_range] can raise. *)
Definition range_error (e : exn) : Prop :=
  match e with
  | AttributeError _ | ValueError _ | IndexError => True
  | _ => False
  end.

(** The exceptions one item of data.json can stop the script with. *)
Definition item_error (e : exn) : Prop :=
  match e with
  | TypeError _ | AttributeError _ | ValueError _ | IndexError => True
  | _ => False
  end.

Definition missing_key (k : string) : string :=
  "Missing key in data item: '" +:+ k +:+ "'".

End TargetSpec.

(** ** The pool of scanner.py: what a run is measured against *)

Module PoolSpec.

Import Scanner.

(** The rows the loop over the hosts writes from host [n] on. *)
Definition rows_from (n : nat) (res : scan_result) : list row :=
  map csv_row (List.filter interesting (drop n res)).

(** The calls of [nm.scan] and of [time.sleep] made by future [i]. *)
Definition by_future (i : nat) (e : event) : bool :=
  match e with
  | EvScan j _ | EvSleep j _ | EvRow j _ | EvMark j _ | EvSave j
  | EvExhausted j | EvReturn j _ | EvRaised j => (j =? i)%nat
  end.

Definition scans_of (i : nat) (tr : list event) : nat :=
  length (List.filter (fun e => is_scan e && by_future i e) tr).

Definition sleeps_of (i : nat) (tr : list event) : nat :=
  length (List.filter (fun e => is_sleep e && by_future i e) tr).

(** How many calls and sleeps a future standing at [p] has behind it. *)
Definition attempts_at (p : option pc) (scans sleeps : nat) : Prop :=
  match p with
  | None => scans = 0%nat /\ sleeps = 0%nat
  | Some (AtScan a) => scans = a /\ sleeps = a /\ (a < RETRIES)%nat
  | Some (AtHosts a _ _) | Some (AtSave a _) =>
      scans = S a /\ sleeps = a /\ (a < RETRIES)%nat
  | Some (AtSleep a) => scans = S a /\ sleeps = a /\ (S a < RETRIES)%nat
  | Some (Returned _) => (scans <= RETRIES)%nat /\ (sleeps < scans)%nat
  | Some (Raised _) => scans = 0%nat /\ sleeps = 0%nat
  end.

(** Every future has the attempts of its place behind it; what is no
    future yet has none. *)
Definition attempts_counted (st : state) : Prop :=
  forall i,
    match workers st !! i with
    | Some wk => attempts_at (at_ wk) (scans_of i (trace st)) (sleeps_of i (trace st))
    | None => scans_of i (trace st) = 0%nat /\ sleeps_of i (trace st) = 0%nat
    end.

(** The futures are futures of targets of data.json that the checkpoint
    read at the start did not hold, and each scan is the scan of the target
    of its future. *)
Record own_targets (initial loaded : list string) (st : state) : Prop := {
  submitted_new :
    forall i wk, workers st !! i = Some wk ->
      target wk ∈ initial /\ target wk ∉ loaded;
  scans_own :
    forall i t, EvScan i t ∈ trace st ->
      exists wk, workers st !! i = Some wk /\ target wk = t;
  no_more_futures :
    (length (workers st) + length (pending st) <= length initial)%nat
}.

(** Lines 107-117: the calls [print_progress(completed_count,
    total_targets)] of a run whose pool started in [st0] and ends in [st],
    one per future: [completed_count] starts at the number of keys read from
    state.json and [total_targets] is the number of targets. *)
Definition progress_calls (st0 st : state) : list (Z * Z) :=
  map (fun k => (Z.of_nat (length (completed_targets (mem st0))) + Z.of_nat k,
                 Z.of_nat (length (pending st0))))
      (seq 1 (length (workers st))).

End PoolSpec.

(** ** The loop of 2.ollama-checker.py: counters and saves *)

Module CheckerSpec.

Import Checker.

(** Lines 102-103: [checked = len(checked_set)] and
    [found = len(ollama_hosts)], the second statement of the [try] block
    when something is left to check. *)
Definition init_counters : stmt := fun v =>
  {| checked_set := checked_set v; ollama_hosts := ollama_hosts v;
     checked := Z.of_nat (size (checked_set v));
     found := Z.of_nat (length (ollama_hosts v));
     files := files v; stdout := stdout v |}.

(** state.json holds the checkpoint of the first [j] completions; for
    [j = 0] it may also be as the run found it. *)
Definition saved_upto (d : disk) (state : saved_state)
    (rs : list (string * string * bool)) (j : nat) (v : vars) : Prop :=
  state_json (files v) = Holds (snapshot state (take j rs)) \/
  (j = 0%nat /\ state_json (files v) = state_json d).

(** The keys and the rows the variables hold: those of the checkpoint of
    [k] completions and of [k'] completions, the rows at most one turn
    behind the keys. *)
Definition vars_at (state : saved_state) (rs : list (string * string * bool))
    (k k' : nat) (v : vars) : Prop :=
  (k' <= k <= k' + 1)%nat /\
  checked_set v = checked_keys (snapshot state (take k rs)) /\
  ollama_hosts v = found_rows (snapshot state (take k' rs)).

End CheckerSpec.

(** ** More sample inputs *)

Module Inputs.

(** One complete item, one that lacks 'start', one whose start has three
    fields only. *)
Definition complete_item : json :=
  JObj [("start", JStr "10.0.0.1"); ("end", JStr "10.0.0.9")]%string.

Definition item_without_start : json :=
  JObj [("end", JStr "10.0.0.9")]%string.

Definition short_item : json :=
  JObj [("start", JStr "10.0.0"); ("end", JStr "10.0.0.9")]%string.

Definition disk_with (data : json) : Scanner.disk :=
  {| Scanner.data_json := Holds data;
     Scanner.state_json := Missing;
     Scanner.results_csv := None |}.

End Inputs.

(** ** What [fetch_ollama_info] reports *)

Module FetchSpec.

(** [m.get("name")] on a model entry that is an object. *)
Definition name_of (m : json) : json :=
  match m with
  | JObj fields => default JNull (assoc "name" fields)
  | _ => JNull
  end.

(** A tags document as a server sends it. *)
Definition models_sample : list json :=
  [JObj [("name", JStr "llama3:8b")]; JObj [("name", JStr "")];
   JObj [("size", JNum 7)]; JObj [("name", JStr "phi3")]]%string.

Definition tags_sample : json := JObj [("models", JArr models_sample)]%string.

Definition serving (tags : json) : ModelList.network :=
  fun _ _ => ModelList.Response 200 "OK" "" (Some tags).

End FetchSpec.

(** ** 3. ollama-model-list.py: host files, export and [main]

  Text is taken as the scripts above take it: white space and letter case
  are those of ASCII.  Two things are left to the caller of the model:
  [repr], Python's [str()] of a list or a dictionary, and [netloc_of], the
  [netloc] that [urllib.parse.urlparse] finds in a URL (or the exception it
  raises). *)

Module HostList.

Import ModelList.

Definition HOST_FILE : string := "ollama.csv".
Definition MAX_WORKERS : Z := 20.
Definition OUTPUT_JSON : string := "ollama_hosts.json".
Definition OUTPUT_CSV : string := "ollama_hosts.csv".
Definition OUTPUT_FILTERED_JSON : string := "ollama_hosts_with_models.json".

(** [s.lower()] *)
Definition lower_char (c : ascii) : ascii :=
  let n := nat_of_ascii c in
  if ((65 <=? n) && (n <=? 90))%nat then ascii_of_nat (n + 32) else c.

Fixpoint lower (s : string) : string :=
  match s with
  | EmptyString => EmptyString
  | String c rest => String (lower_char c) (lower rest)
  end.

(** [s.strip()] *)
Definition strip (s : string) : string := rstrip (lstrip s).

(** [bool(s)] on a string. *)
Definition nonempty (s : string) : bool :=
  match s with EmptyString => false | _ => true end.

(** [s.splitlines()]: a line ends at LF, VT, FF, CR, CR LF, FS, GS or RS;
    no empty line follows a final line break. *)
Definition is_linebreak (c : ascii) : bool :=
  let n := nat_of_ascii c in
  ((10 <=? n) && (n <=? 13) || (28 <=? n) && (n <=? 30))%nat.

Fixpoint splitlines (s : string) : list string :=
  match s with
  | EmptyString => []
  | String c rest =>
      if is_linebreak c then
        match rest with
        | String c2 rest2 =>
            if Ascii.eqb c (ascii_of_nat 13) && Ascii.eqb c2 (ascii_of_nat 10)
            then EmptyString :: splitlines rest2
            else EmptyString :: splitlines rest
        | EmptyString => [EmptyString]
        end
      else match splitlines rest with
           | [] => [String c EmptyString]
           | l :: ls => String c l :: ls
           end
  end.

(** *** [split_host_port] *)

(** [s.rsplit(":", 1)] for a string with a colon: what stands before the
    last colon and what stands after it. *)
Fixpoint rsplit_colon (s : string) : option (string * string) :=
  match s with
  | EmptyString => None
  | String c rest =>
      match rsplit_colon rest with
      | Some (h, p) => Some (String c h, p)
      | None => if Ascii.eqb c ":" then Some (EmptyString, rest) else None
      end
  end.

Definition split_host_port (netloc_of : string -> result string) (host : string)
  : result (string * option Z) :=
  let host := if String.prefix "http://" host || String.prefix "https://" host
              then host else "http://" +:+ host in
  netloc ← netloc_of host;
  if contains ":" netloc then
    match rsplit_colon netloc with
    | Some (h, port_str) =>
        Ok (h, match int_of_str port_str with
               | Ok port => Some port
               | Raise _ => None
               end)
    | None => Raise (ValueError "not enough values to unpack (expected 2, got 1)")
    end
  else Ok (netloc, None).

(** *** [csv.DictReader] *)

(** A value of a row dictionary: a field, [None] for a field the row
    lacks, or the list of the fields beyond the header. *)
Inductive cell : Type :=
| Text (s : string)
| NoneCell
| Rest (fields : list string).

(** A dictionary in insertion order; the key [None] is the reader's
    [restkey]. *)
Definition pydict : Type := list (option string * cell).

(** [d[k] = v] *)
Fixpoint dict_set (k : option string) (v : cell) (d : pydict) : pydict :=
  match d with
  | [] => [(k, v)]
  | (k', v') :: rest =>
      if bool_decide (k = k') then (k, v) :: rest
      else (k', v') :: dict_set k v rest
  end.

Fixpoint dict_lookup (k : option string) (d : pydict) : option cell :=
  match d with
  | [] => None
  | (k', v) :: rest => if bool_decide (k = k') then Some v else dict_lookup k rest
  end.

(** [d.get(k)] for a string key. *)
Definition dict_get (k : string) (d : pydict) : cell :=
  default NoneCell (dict_lookup (Some k) d).

(** One row as [DictReader.__next__] builds it. *)
Definition dict_row (fieldnames row : list string) : pydict :=
  let d := fold_left (fun d kv => dict_set (Some (fst kv)) (Text (snd kv)) d)
                     (zip fieldnames row) [] in
  let lf := length fieldnames in
  let lr := length row in
  if (lf <? lr)%nat then dict_set None (Rest (drop lf row)) d
  else if (lr <? lf)%nat
       then fold_left (fun d k => dict_set (Some k) NoneCell d) (drop lr fieldnames) d
       else d.

(** What [csv.reader] yields for a file, a blank line being [[]]: the
    first row gives [reader.fieldnames], blank rows after it are skipped. *)
Definition fieldnames_of (rows : list (list string)) : list string :=
  match rows with
  | [] => []
  | header :: _ => header
  end.

Definition dict_rows (rows : list (list string)) : list pydict :=
  match rows with
  | [] => []
  | header :: rest =>
      map (dict_row header) (List.filter (fun r => negb (bool_decide (r = []))) rest)
  end.

Definition cell_truthy (c : cell) : bool :=
  match c with
  | Text s => nonempty s
  | NoneCell => false
  | Rest l => match l with [] => false | _ => true end
  end.

(** [a or b] *)
Definition or_ (a b : cell) : cell := if cell_truthy a then a else b.

(** [c.strip()] *)
Definition cell_strip (c : cell) : result string :=
  match c with
  | Text s => Ok (strip s)
  | NoneCell => Raise (AttributeError "'NoneType' object has no attribute 'strip'")
  | Rest _ => Raise (AttributeError "'list' object has no attribute 'strip'")
  end.

Section WithRepr.

Variable repr : json -> string.

(** [str(c)] *)
Definition cell_str (c : cell) : string :=
  match c with
  | Text s => s
  | NoneCell => "None"
  | Rest l => repr (JArr (map JStr l))
  end.

(** *** [load_hosts_from_path] *)

(** The body of [for row in reader]: the hosts the row adds. *)
Definition hosts_of_row (fieldnames : list string) (row : pydict) : result (list string) :=
  if bool_decide ("host"%string ∈ fieldnames) &&
     bool_decide ("open ports"%string ∈ fieldnames) then
    let host := or_ (dict_get "Host" row) (dict_get "host" row) in
    let ports := or_ (or_ (dict_get "Open Ports" row) (dict_get "open ports" row))
                     (Text "") in
    host ← (if cell_truthy host then cell_strip host else Ok EmptyString);
    ports ← (if cell_truthy ports then cell_strip ports else Ok EmptyString);
    if nonempty host && nonempty ports then Ok [host +:+ ":" +:+ ports]
    else if nonempty host then Ok [host]
    else Ok []
  else if bool_decide ("host"%string ∈ fieldnames) then
    let host := or_ (dict_get "Host" row) (dict_get "host" row) in
    if cell_truthy host then
      stripped ← cell_strip host;
      if nonempty stripped then
        again ← cell_strip host; Ok [again]
      else Ok []
    else Ok []
  else
    let first := match row with
                 | [] => Text ""
                 | (_, v) :: _ => v
                 end in
    if cell_truthy first && nonempty (strip (cell_str first))
    then Ok [strip (cell_str first)]
    else Ok [].

Fixpoint hosts_of_rows (fieldnames : list string) (rows : list pydict)
  : result (list string) :=
  match rows with
  | [] => Ok []
  | row :: rest =>
      hs ← hosts_of_row fieldnames row;
      more ← hosts_of_rows fieldnames rest;
      Ok (hs ++ more)
  end.

(** A hosts file: the suffix of its path, and its content as [csv.reader]
    and as [read_text] see it. *)
Record hosts_file : Type := {
  suffix : string;
  csv_rows : list (list string);
  text : string
}.

Definition load_hosts_from_path (f : hosts_file) : result (list string) :=
  if String.eqb (lower (suffix f)) ".csv" then
    let fieldnames := map lower (fieldnames_of (csv_rows f)) in
    hosts_of_rows fieldnames (dict_rows (csv_rows f))
  else
    Ok (map strip (List.filter (fun h => nonempty (strip h)) (splitlines (text f)))).

(** *** [main] *)

(** What [parse_args] returns. *)
Record namespace : Type := {
  hosts : string;
  output_json : string;
  output_csv : string;
  output_filtered : string;
  timeout : Z;
  workers : Z;
  quiet : bool
}.

(** A file [main] writes. *)
Inductive document : Type :=
| FullJson (results : list (gmap string json))
| Csv (rows : list (list string))
| FilteredJson (entries : list (string * option Z * json)).

(** A call of [logging.error] or [logging.info] that is let through: the
    format and its arguments. *)
Inductive log_line : Type :=
| LogError (fmt : string) (args : list json)
| LogInfo (fmt : string) (args : list json).

Record world : Type := {
  net : network;
  arrange : list string -> list string;      (* the order [as_completed] yields *)
  netloc_of : string -> result string
}.

Record outcome : Type := {
  returned : result Z;                       (* the value of [main], or what leaves it *)
  written : gmap string document;            (* files written, by path *)
  logged : list log_line
}.

(** [";".join(v)]: [v] has to be iterable and every item a string. *)
Fixpoint join_names (i : nat) (names : list json) : result (list string) :=
  match names with
  | [] => Ok []
  | JStr s :: rest => more ← join_names (S i) rest; Ok (s :: more)
  | v :: _ =>
      Raise (TypeError ("sequence item " +:+ str_of_int (Z.of_nat i) +:+
                        ": expected str instance, " +:+ type_name v +:+ " found"))
  end.

Definition join_semicolon (v : json) : result string :=
  match iterate v with
  | Ok items => names ← join_names 0 items; Ok (join ";" names)
  | Raise _ => Raise (TypeError "can only join an iterable")
  end.

(** [len(v)] *)
Definition len (v : json) : result Z :=
  match v with
  | JArr l => Ok (Z.of_nat (length l))
  | JObj m => Ok (Z.of_nat (length m))
  | JStr s => Ok (Z.of_nat (String.length s))
  | _ => Raise (TypeError ("object of type '" +:+ type_name v +:+ "' has no len()"))
  end.

(** A value as [csv.writer] writes it. *)
Definition csv_field (v : json) : string :=
  match v with
  | JNull => ""
  | JStr s => s
  | JNum z => str_of_int z
  | JBool b => if b then "True" else "False"
  | _ => repr v
  end.

(** [r.get(k)] and [r.get(k, d)] on a result dictionary. *)
Definition field (r : gmap string json) (k : string) : json := default JNull (r !! k).
Definition field_or (r : gmap string json) (k : string) (d : json) : json :=
  default d (r !! k).

(** One row of the CSV export. *)
Definition export_row (r : gmap string json) : result (list string) :=
  models ← join_semicolon (field_or r "models" (JArr []));
  Ok [csv_field (field r "host"); csv_field (field r "status");
      csv_field (field r "runtime"); models; csv_field (field r "error")].

Definition export_header : list string :=
  ["host"; "status"; "runtime"; "models"; "error"]%string.

(** A loop that stops at the first exception: what it did before, and the
    exception. *)
Fixpoint until_raise {A B} (f : A -> result B) (xs : list A) : list B * option exn :=
  match xs with
  | [] => ([], None)
  | x :: rest =>
      match f x with
      | Ok y => let '(ys, e) := until_raise f rest in (y :: ys, e)
      | Raise e => ([], Some e)
      end
  end.

(** The loop that builds [filtered]. *)
Fixpoint filtered_of (w : world) (rs : list (gmap string json))
  : result (list (string * option Z * json)) :=
  match rs with
  | [] => Ok []
  | r :: rest =>
      if truthy (field r "models") then
        match field_or r "host" (JStr "") with
        | JStr host =>
            hp ← split_host_port (netloc_of w) host;
            more ← filtered_of w rest;
            Ok ((fst hp, snd hp, field_or r "models" (JArr [])) :: more)
        | v => Raise (no_attribute v "startswith")
        end
      else filtered_of w rest
  end.

Definition summary_line (r : gmap string json) : result log_line :=
  n ← len (field_or r "models" (JArr []));
  Ok (LogInfo "%25s | %8s | %3d models" [field r "host"; field r "runtime"; JNum n]).

(** [main(argv)] once the arguments are parsed; [f] is the hosts file,
    when there is one.  Opening, reading and writing files are taken to
    succeed. *)
Definition main (w : world) (args : namespace) (f : option hosts_file) : outcome :=
  let info (l : list log_line) := if quiet args then [] else l in
  match f with
  | None =>
      {| returned := Ok 2; written := ∅;
         logged := [LogError "Hosts file not found: %s" [JStr (hosts args)]] |}
  | Some f =>
      match load_hosts_from_path f with
      | Raise e => {| returned := Raise e; written := ∅; logged := [] |}
      | Ok hs =>
          let log1 := info [LogInfo "Scanning %d hosts using %d workers..."
                                    [JNum (Z.of_nat (length hs)); JNum (workers args)]] in
          if workers args <=? 0 then
            {| returned := Raise (ValueError "max_workers must be greater than 0");
               written := ∅; logged := log1 |}
          else
          match map_result (fun h => fetch_ollama_info (net w) h (timeout args))
                           (arrange w hs) with
          | Raise e => {| returned := Raise e; written := ∅; logged := log1 |}
          | Ok results =>
              let fs1 := <[output_json args := FullJson results]> (∅ : gmap string document) in
              match until_raise export_row results with
              | (rows, Some e) =>
                  {| returned := Raise e;
                     written := <[output_csv args := Csv (export_header :: rows)]> fs1;
                     logged := log1 |}
              | (rows, None) =>
                  let fs2 := <[output_csv args := Csv (export_header :: rows)]> fs1 in
                  match filtered_of w results with
                  | Raise e => {| returned := Raise e; written := fs2; logged := log1 |}
                  | Ok filtered =>
                      let fs3 := <[output_filtered args := FilteredJson filtered]> fs2 in
                      let log2 := log1 ++ info [LogInfo (LF +:+ "=== Scan Summary ===") []] in
                      match until_raise summary_line results with
                      | (lines, Some e) =>
                          {| returned := Raise e; written := fs3; logged := log2 ++ info lines |}
                      | (lines, None) =>
                          {| returned := Ok 0; written := fs3; logged := log2 ++ info lines |}
                      end
                  end
              end
          end
      end
  end.

End WithRepr.

(** *** What the readers of a hosts list can rely on *)

(** A string with a first and a last character, neither of them white
    space. *)
Definition clean (s : string) : Prop :=
  s <> EmptyString /\ lstrip s = s /\ rstrip s = s.

(** A field or [None]. *)
Definition plain (c : cell) : Prop := (exists s, c = Text s) \/ c = NoneCell.

(** In a row dictionary only the key [None] holds a list. *)
Definition well_keyed (d : pydict) : Prop :=
  Forall (fun kv => match kv with
                    | (Some _, Rest _) => False
                    | _ => True
                    end) d.

(** The names of a result: its "models" entry is a list of strings. *)
Definition string_names (r : gmap string json) : Prop :=
  exists names, r !! "models"%string = Some (JArr names) /\
                Forall (fun n => exists s, n = JStr s) names.

(** A hosts file as 2.ollama-checker.py writes it, with its header in
    capitals. *)
Definition shouting_file : hosts_file :=
  {| suffix := ".csv";
     csv_rows := [["HOST"; "OPEN PORTS"]; ["10.0.0.5"; "11434"]]%string;
     text := "" |}.

(** The dictionary [fetch_ollama_info] returns for a host ([fetch_ollama_info]
    raises nothing). *)
Definition info (n : network) (timeout : Z) (host : string) : gmap string json :=
  match fetch_ollama_info n host timeout with
  | Ok r => r
  | Raise _ => ∅
  end.




(** [as_completed] hands back each future once. *)
Definition fair (w : world) : Prop := forall l, arrange w l ≡ₚ l.

(** A host that reports a model whose name is a number, and a run over a
    hosts file that names it. *)
Definition odd_tags : json := JObj [("models", JArr [JObj [("name", JNum 7)]])]%string.

Definition odd_world : world :=
  {| net := fun _ _ => Response 200 "OK" "" (Some odd_tags);
     arrange := fun l => l;
     netloc_of := fun url => Ok url |}.

Definition default_args : namespace :=
  {| hosts := HOST_FILE;
     output_json := OUTPUT_JSON;
     output_csv := OUTPUT_CSV;
     output_filtered := OUTPUT_FILTERED_JSON;
     timeout := TIMEOUT;
     workers := MAX_WORKERS;
     quiet := false |}.

Definition one_line_file : hosts_file :=
  {| suffix := ".txt"; csv_rows := []; text := "10.0.0.5:11434" |}.

(** ollama.csv as a hosts file. *)
Definition ollama_file (rows : list (list string)) : hosts_file :=
  {| suffix := ".csv"; csv_rows := rows; text := "" |}.

End HostList.


(* ===================================================================== *)
(** * Properties *)
(* ===================================================================== *)

Example to_nmap_range_ex :
  Scanner.to_nmap_range (JStr "10.0.0.1") (JStr "10.0.3.255") =
  Ok "10-10.0-0.0-3.1-255"%string.
Proof. reflexivity. Qed.

Example expand_ex :
  RangeExpr.expand "10-10.0-0.0-1.1-2" =
  Some [(10,0,0,1); (10,0,0,2); (10,0,1,1); (10,0,1,2)].
Proof. reflexivity. Qed.

(** ** Strings: digits, splitting and decimal rendering *)

Section StringFacts.

Lemma all_chars_app P s t :
  all_chars P (s +:+ t) = all_chars P s && all_chars P t.
Proof.
  induction s as [|c s IH]; [reflexivity|].
  change (P c && all_chars P (s +:+ t) = P c && all_chars P s && all_chars P t).
  rewrite IH. now rewrite andb_assoc.
Qed.

Lemma string_of_uint_digits d :
  all_chars is_digit (NilEmpty.string_of_uint d) = true.
Proof. induction d; simpl; auto. Qed.

Lemma to_int_nonneg z :
  0 <= z -> Z.to_int z = Decimal.Pos (N.to_uint (Z.to_N z)).
Proof. destruct z; simpl; [reflexivity | reflexivity | lia]. Qed.

Lemma to_uint_nonnil n : N.to_uint n <> Decimal.Nil.
Proof.
  intros H. pose proof (DecimalN.Unsigned.of_to n) as E.
  destruct n as [|p]; [discriminate H|].
  rewrite H in E. discriminate E.
Qed.

Lemma str_of_int_nonneg z :
  0 <= z -> str_of_int z = NilEmpty.string_of_uint (N.to_uint (Z.to_N z)).
Proof.
  intros Hz. unfold str_of_int. rewrite (to_int_nonneg z Hz). simpl.
  pose proof (to_uint_nonnil (Z.to_N z)) as Hn.
  destruct (N.to_uint (Z.to_N z)); [contradiction | reflexivity ..].
Qed.

Lemma str_of_int_digits z :
  0 <= z -> all_chars is_digit (str_of_int z) = true.
Proof.
  intros Hz. rewrite (str_of_int_nonneg z Hz). apply string_of_uint_digits.
Qed.

(** A decimal rendering is read back as the number it renders. *)
Lemma unsigned_of_str_of_int z :
  0 <= z -> RangeExpr.unsigned_of_str (str_of_int z) = Some z.
Proof.
  intros Hz. unfold RangeExpr.unsigned_of_str, str_of_int.
  rewrite (to_int_nonneg z Hz). simpl.
  rewrite NilZero.usu by apply to_uint_nonnil.
  rewrite DecimalN.Unsigned.of_to. f_equal. lia.
Qed.

Lemma split_no_sep sep s :
  all_chars (fun c => negb (Ascii.eqb c sep)) s = true ->
  split sep s = [s].
Proof.
  induction s as [|c s IH]; simpl; [reflexivity|].
  intros H. apply andb_true_iff in H as [Hc Hs].
  apply negb_true_iff in Hc. rewrite Hc, (IH Hs). reflexivity.
Qed.

Lemma split_app_sep sep s t :
  all_chars (fun c => negb (Ascii.eqb c sep)) s = true ->
  split sep (s +:+ String sep t) = s :: split sep t.
Proof.
  induction s as [|c s IH]; simpl.
  - intros _. now rewrite Ascii.eqb_refl.
  - intros H. apply andb_true_iff in H as [Hc Hs].
    apply negb_true_iff in Hc. rewrite Hc, (IH Hs). reflexivity.
Qed.

Lemma all_chars_impl (P Q : ascii -> bool) s :
  (forall c, P c = true -> Q c = true) ->
  all_chars P s = true -> all_chars Q s = true.
Proof.
  intros HPQ. induction s as [|c s IH]; simpl; [auto|].
  intros H. apply andb_true_iff in H as [Hc Hs].
  rewrite (HPQ c Hc), (IH Hs). reflexivity.
Qed.

Lemma digit_not_sep sep c :
  is_digit sep = false -> is_digit c = true -> negb (Ascii.eqb c sep) = true.
Proof.
  intros Hsep Hc. apply negb_true_iff. destruct (Ascii.eqb_spec c sep); [|reflexivity].
  subst. congruence.
Qed.

End StringFacts.

(** ** The target expander *)

Section Expander.

Import RangeExpr.

Lemma octet_of_str_Some s z :
  octet_of_str s = Some z -> int_of_str s = Ok z /\ 0 <= z <= 255.
Proof.
  unfold octet_of_str. destruct (int_of_str s) as [v|e]; [|discriminate].
  destruct (0 <=? v) eqn:H0; destruct (v <=? 255) eqn:H1; simpl; try discriminate.
  intros [= ->]. split; [reflexivity | lia].
Qed.

Lemma dotted_quad_Some s a b c d :
  dotted_quad s = Some (a, b, c, d) ->
  map_result int_of_str (split "." s) = Ok [a; b; c; d] /\
  0 <= a <= 255 /\ 0 <= b <= 255 /\ 0 <= c <= 255 /\ 0 <= d <= 255.
Proof.
  unfold dotted_quad.
  destruct (split "." s) as [|fa [|fb [|fc [|fd [|? ?]]]]]; try discriminate.
  destruct (octet_of_str fa) as [a'|] eqn:Ha; [|discriminate].
  destruct (octet_of_str fb) as [b'|] eqn:Hb; [|discriminate].
  destruct (octet_of_str fc) as [c'|] eqn:Hc; [|discriminate].
  destruct (octet_of_str fd) as [d'|] eqn:Hd; [|discriminate].
  intros [= -> -> -> ->].
  apply octet_of_str_Some in Ha as [Ea ?], Hb as [Eb ?], Hc as [Ec ?], Hd as [Ed ?].
  split; [|auto]. simpl. rewrite Ea, Eb, Ec, Ed. reflexivity.
Qed.

Lemma number_no_sep sep z :
  is_digit sep = false -> 0 <= z ->
  all_chars (fun c => negb (Ascii.eqb c sep)) (str_of_int z) = true.
Proof.
  intros Hsep Hz. eapply all_chars_impl; [|apply (str_of_int_digits z Hz)].
  intros c. apply digit_not_sep, Hsep.
Qed.

Lemma field_no_dot lo hi :
  0 <= lo -> 0 <= hi ->
  all_chars (fun c => negb (Ascii.eqb c "."))
            (str_of_int lo +:+ "-" +:+ str_of_int hi) = true.
Proof.
  intros Hlo Hhi. rewrite !all_chars_app.
  rewrite (number_no_sep "." lo), (number_no_sep "." hi) by (reflexivity || assumption).
  reflexivity.
Qed.

Lemma field_bounds_render lo hi :
  0 <= lo -> 0 <= hi ->
  field_bounds (str_of_int lo +:+ "-" +:+ str_of_int hi) = Some (lo, hi).
Proof.
  intros Hlo Hhi. unfold field_bounds.
  change (str_of_int lo +:+ "-" +:+ str_of_int hi)
    with (str_of_int lo +:+ String "-" (str_of_int hi)).
  rewrite split_app_sep by (apply number_no_sep; [reflexivity | assumption]).
  rewrite split_no_sep by (apply number_no_sep; [reflexivity | assumption]).
  rewrite !unsigned_of_str_of_int by assumption. reflexivity.
Qed.

Lemma elem_of_interval lo hi x : x ∈ interval (lo, hi) <-> lo <= x <= hi.
Proof. unfold interval. simpl. rewrite elem_of_seqZ. lia. Qed.

Lemma string_app_assoc (a b c : string) : (a +:+ b) +:+ c = a +:+ (b +:+ c).
Proof.
  induction a as [|x a IH]; [reflexivity|].
  change (String x ((a +:+ b) +:+ c) = String x (a +:+ (b +:+ c))).
  now rewrite IH.
Qed.

Lemma expand_render s0 e0 s1 e1 s2 e2 s3 e3 :
  0 <= s0 -> 0 <= e0 -> 0 <= s1 -> 0 <= e1 ->
  0 <= s2 -> 0 <= e2 -> 0 <= s3 -> 0 <= e3 ->
  expand (str_of_int s0 +:+ "-" +:+ str_of_int e0 +:+ "." +:+
          str_of_int s1 +:+ "-" +:+ str_of_int e1 +:+ "." +:+
          str_of_int s2 +:+ "-" +:+ str_of_int e2 +:+ "." +:+
          str_of_int s3 +:+ "-" +:+ str_of_int e3) =
  Some (a ← interval (s0, e0); b ← interval (s1, e1);
        c ← interval (s2, e2); d ← interval (s3, e3); [(a, b, c, d)]).
Proof.
  intros. unfold expand.
  assert (E : str_of_int s0 +:+ "-" +:+ str_of_int e0 +:+ "." +:+
              str_of_int s1 +:+ "-" +:+ str_of_int e1 +:+ "." +:+
              str_of_int s2 +:+ "-" +:+ str_of_int e2 +:+ "." +:+
              str_of_int s3 +:+ "-" +:+ str_of_int e3
              = (str_of_int s0 +:+ "-" +:+ str_of_int e0) +:+ String "."
                ((str_of_int s1 +:+ "-" +:+ str_of_int e1) +:+ String "."
                 ((str_of_int s2 +:+ "-" +:+ str_of_int e2) +:+ String "."
                  (str_of_int s3 +:+ "-" +:+ str_of_int e3)))).
  { rewrite !string_app_assoc. reflexivity. }
  rewrite E.
  rewrite !split_app_sep by (apply field_no_dot; assumption).
  rewrite split_no_sep by (apply field_no_dot; assumption).
  rewrite !field_bounds_render by assumption. reflexivity.
Qed.

End Expander.

(** C4. For two dotted-quad endpoints [start] and [end_] with octets
    [s0.s1.s2.s3] and [e0.e1.e2.e3], [to_nmap_range] returns the one
    expression [s0-e0.s1-e1.s2-e2.s3-e3]; read back field by field, that
    expression stands for exactly the addresses [(a, b, c, d)] with
    [s_i <= octet_i <= e_i] in each position, and for nothing else. *)
Theorem to_nmap_range_covers_product
    (start end_ : string) (s0 s1 s2 s3 e0 e1 e2 e3 : Z) :
  RangeExpr.dotted_quad start = Some (s0, s1, s2, s3) ->
  RangeExpr.dotted_quad end_ = Some (e0, e1, e2, e3) ->
  exists (expr : string) (addrs : list (Z * Z * Z * Z)),
    Scanner.to_nmap_range (JStr start) (JStr end_) = Ok expr /\
    expr = (str_of_int s0 +:+ "-" +:+ str_of_int e0 +:+ "." +:+
            str_of_int s1 +:+ "-" +:+ str_of_int e1 +:+ "." +:+
            str_of_int s2 +:+ "-" +:+ str_of_int e2 +:+ "." +:+
            str_of_int s3 +:+ "-" +:+ str_of_int e3) /\
    RangeExpr.expand expr = Some addrs /\
    forall a b c d : Z,
      (a, b, c, d) ∈ addrs <->
      (s0 <= a <= e0 /\ s1 <= b <= e1 /\ s2 <= c <= e2 /\ s3 <= d <= e3).
Proof.
  intros Hs He.
  apply dotted_quad_Some in Hs as (Es & ? & ? & ? & ?).
  apply dotted_quad_Some in He as (Ee & ? & ? & ? & ?).
  eexists. eexists. split.
  { unfold Scanner.to_nmap_range, Scanner.split_ints. rewrite Es, Ee. reflexivity. }
  split; [reflexivity|]. split.
  { apply expand_render; lia. }
  intros a b c d. rewrite !list_elem_of_bind. split.
  - intros (a' & Hb & Ha). apply list_elem_of_bind in Hb as (b' & Hc & Hb).
    apply list_elem_of_bind in Hc as (c' & Hd & Hc).
    apply list_elem_of_bind in Hd as (d' & Hx & Hd).
    apply list_elem_of_singleton in Hx. injection Hx as -> -> -> ->.
    apply elem_of_interval in Ha, Hb, Hc, Hd. auto.
  - intros (Ha & Hb & Hc & Hd).
    exists a. split; [|now apply elem_of_interval].
    apply list_elem_of_bind. exists b. split; [|now apply elem_of_interval].
    apply list_elem_of_bind. exists c. split; [|now apply elem_of_interval].
    apply list_elem_of_bind. exists d. split; [|now apply elem_of_interval].
    apply list_elem_of_singleton. reflexivity.
Qed.

Lemma to_nmap_range_covers_product_witness :
  exists (expr : string) (addrs : list (Z * Z * Z * Z)),
    Scanner.to_nmap_range (JStr "192.168.1.10") (JStr "192.168.2.12") = Ok expr /\
    expr = "192-192.168-168.1-2.10-12"%string /\
    RangeExpr.expand expr = Some addrs /\
    forall a b c d : Z,
      (a, b, c, d) ∈ addrs <->
      (192 <= a <= 192 /\ 168 <= b <= 168 /\ 1 <= c <= 2 /\ 10 <= d <= 12).
Proof.
  exact (to_nmap_range_covers_product "192.168.1.10" "192.168.2.12"
           192 168 1 10 192 168 2 12 eq_refl eq_refl).
Defined.

(** ** Progress reporting *)

Import Samples.

Example print_progress_ex :
  Progress.print_progress (f64 10) (f64 0) 5 20 =
  Ok (CR +:+ "Progress: 5/20 (25.00%), ETA: 30s").
Proof. vm_compute. reflexivity. Qed.

Example print_progress_ex2 :
  Progress.print_progress (f64 549) (f64 0) 9 28 =
  Ok (CR +:+ "Progress: 9/28 (32.14%), ETA: 1158s").
Proof. vm_compute. reflexivity. Qed.


Lemma percent_of_zero_total (completed : Z) :
  Progress.percent_of completed 0 = Ok (PInt 0).
Proof. reflexivity. Qed.

Lemma percent_of_zero_completed (total : Z) :
  (Progress.percent_of 0 total ≫= number_fixed 2) = Ok "0.00"%string.
Proof.
  unfold Progress.percent_of.
  destruct total as [|p|p]; reflexivity.
Qed.

Lemma remaining_of_zero_completed (elapsed : F64.float) (total : Z) :
  Progress.remaining_of elapsed 0 total = Ok (PInt 0).
Proof. reflexivity. Qed.

Lemma remaining_of_positive (elapsed q : F64.float) (completed total : Z) :
  0 < completed ->
  F64.int_truediv completed total = Ok q ->
  F64.is_zero q = false ->
  Progress.remaining_of elapsed completed total =
  Ok (PFloat (F64.sub (F64.div elapsed q) elapsed)).
Proof.
  intros Hc Hq Hz. unfold Progress.remaining_of.
  apply Z.ltb_lt in Hc. rewrite Hc, Hq. simpl.
  unfold F64.truediv. rewrite Hz. reflexivity.
Qed.

(** C5 (as the code has it).  With no unit completed the remaining time is
    the integer 0 and the line reads [0.00%] and [ETA: 0s], whatever the
    total.  With [completed > 0] and a non-zero quotient [q = completed /
    total], the remaining time is [elapsed / q - elapsed] in binary64, in
    this order of operations.  For completed = 5, total = 20 and
    elapsed = 10.0 it is exactly 30.0, and the line shows the percentage with
    two decimals and the remaining seconds cut to an integer. *)
Theorem print_progress_remaining_time :
  (forall (elapsed : F64.float) (total : Z),
     Progress.remaining_of elapsed 0 total = Ok (PInt 0)) /\
  (forall (clock start_time : F64.float) (total : Z),
     Progress.print_progress clock start_time 0 total =
     Ok (CR +:+ "Progress: 0/" +:+ str_of_int total +:+ " (0.00%), ETA: 0s")) /\
  (forall (elapsed q : F64.float) (completed total : Z),
     0 < completed ->
     F64.int_truediv completed total = Ok q ->
     F64.is_zero q = false ->
     Progress.remaining_of elapsed completed total =
     Ok (PFloat (F64.sub (F64.div elapsed q) elapsed))) /\
  Progress.remaining_of (f64 10) 5 20 = Ok (PFloat (f64 30)) /\
  Progress.print_progress (f64 10) (f64 0) 5 20 =
  Ok (CR +:+ "Progress: 5/20 (25.00%), ETA: 30s").
Proof.
  split; [exact remaining_of_zero_completed|].
  split.
  { intros clock start_time total. unfold Progress.print_progress.
    pose proof (percent_of_zero_completed total) as Hp.
    destruct (Progress.percent_of 0 total) as [pc|e]; [|discriminate Hp].
    simpl in Hp. simpl. rewrite Hp. reflexivity. }
  split; [exact remaining_of_positive|].
  split; vm_compute; reflexivity.
Qed.

Lemma print_progress_remaining_time_witness :
  Progress.remaining_of (f64 549) 9 28 =
  Ok (PFloat (F64.sub (F64.div (f64 549) (S754_finite false 5790342378047781 (-54)))
                      (f64 549))).
Proof.
  apply (proj1 (proj2 (proj2 print_progress_remaining_time))).
  - lia.
  - vm_compute. reflexivity.
  - reflexivity.
Defined.

(** C5 (as stated) fails: for completed = 9, total = 28 and elapsed = 549.0
    the code reports 1158.9999999999998, shown as [ETA: 1158s], where
    [elapsed * total / completed - elapsed] is 1159.0. *)
Lemma print_progress_remaining_differs :
  exists x y : F64.float,
    Progress.remaining_of (f64 549) 9 28 = Ok (PFloat x) /\
    Progress.remaining_as_specified (f64 549) 9 28 = Ok (PFloat y) /\
    x <> y /\
    F64.trunc x = Ok 1158 /\ F64.trunc y = Ok 1159 /\
    Progress.print_progress (f64 549) (f64 0) 9 28 =
    Ok (CR +:+ "Progress: 9/28 (32.14%), ETA: 1158s").
Proof.
  exists (S754_finite false 5097335906369535 (-42)),
         (S754_finite false 5097335906369536 (-42)).
  repeat split; try (vm_compute; reflexivity).
  discriminate.
Qed.

(** [print_progress] guards the percentage but not the estimate: with a
    total of zero and at least one completed unit, [completed / total]
    raises [ZeroDivisionError]. *)
Lemma print_progress_unguarded_estimate
    (clock start_time : F64.float) (completed : Z) :
  0 < completed ->
  Progress.print_progress clock start_time completed 0 = Raise ZeroDivisionError.
Proof.
  intros Hc. unfold Progress.print_progress.
  rewrite percent_of_zero_total. simpl.
  unfold Progress.remaining_of. apply Z.ltb_lt in Hc. rewrite Hc. reflexivity.
Qed.

(** [update_progress] guards both of its divisions: a total of zero gives
    an empty bar and [0.0%]. *)
Lemma update_progress_zero_total (checked found : Z) :
  Progress.update_progress checked 0 found =
  Ok (CR +:+ "[" +:+ str_repeat "░" 40 +:+ "] 0.0% (" +:+ str_of_int checked +:+
      "/0) | Found: " +:+ str_of_int found +:+ "   ").
Proof. reflexivity. Qed.

(** ** The retry wrapper of scanner.py *)

Section Retry.

Import Scanner.

Lemma scan_target_from_returned fuel w i t v sh tr :
  scan_target_from fuel w i t (Returned v) sh tr = Some (v, sh, tr).
Proof. destruct fuel; reflexivity. Qed.

Lemma scan_target_from_more fuel extra w i t p sh tr r :
  scan_target_from fuel w i t p sh tr = Some r ->
  scan_target_from (fuel + extra) w i t p sh tr = Some r.
Proof.
  revert p sh tr. induction fuel as [|fuel IH]; intros p sh tr H.
  - destruct p; simpl in H; try discriminate H.
    rewrite scan_target_from_returned. exact H.
  - destruct p; try exact H; cbn [scan_target_from Nat.add] in *;
      match type of H with
      | context [local_step ?a ?b ?c ?d ?e] =>
          destruct (local_step a b c d e) as [[[p' sh'] evs]|];
          [apply IH; exact H | discriminate H]
      end.
Qed.

End Retry.

(** C2. When [nm.scan] raises at every attempt, [scan_target] calls it
    [RETRIES] = 3 times, sleeps 2 seconds between two consecutive calls (and
    not after the last), touches neither the files nor the state, and
    returns 0, its failure value, to the caller: it does return, whatever the
    fuel beyond the five steps needed, and nothing is raised.  This is so
    once [nmap.PortScanner()] has given the call its engine; when the
    constructor itself raises, no attempt is made and its exception leaves
    [scan_target]. *)
Theorem scan_target_exhausts_retries
    (w : Scanner.world) (i : nat) (t : string) (sh : Scanner.shared) (fuel : nat) :
  (forall a, Scanner.scan_outcome w i a = None) ->
  (2 * Scanner.RETRIES - 1 <= fuel)%nat ->
  match Scanner.portscanner w i with
  | Some e =>
      Scanner.scan_target fuel w i t sh = Some (Raise e, sh, [Scanner.EvRaised i])
  | None =>
      exists tr,
        Scanner.scan_target fuel w i t sh = Some (Ok 0, sh, tr) /\
        tr = [Scanner.EvScan i t; Scanner.EvSleep i 2;
              Scanner.EvScan i t; Scanner.EvSleep i 2;
              Scanner.EvScan i t;
              Scanner.EvExhausted i; Scanner.EvReturn i 0] /\
        length (List.filter Scanner.is_scan tr) = Scanner.RETRIES /\
        length (List.filter Scanner.is_sleep tr) = (Scanner.RETRIES - 1)%nat
  end.
Proof.
  intros Hraise Hfuel. unfold Scanner.scan_target.
  destruct (Scanner.portscanner w i) as [e|]; [reflexivity|].
  eexists. split; [|split; [reflexivity|split; reflexivity]].
  unfold Scanner.RETRIES in Hfuel.
  replace fuel with (5 + (fuel - 5))%nat by lia.
  rewrite (scan_target_from_more 5 (fuel - 5) w i t (Scanner.AtScan 0) sh []
             (0, sh, [Scanner.EvScan i t; Scanner.EvSleep i 2;
                      Scanner.EvScan i t; Scanner.EvSleep i 2;
                      Scanner.EvScan i t;
                      Scanner.EvExhausted i; Scanner.EvReturn i 0])).
  - reflexivity.
  - simpl. rewrite !Hraise. simpl. rewrite !Hraise. simpl. rewrite !Hraise.
    reflexivity.
Qed.

Lemma scan_target_exhausts_retries_witness :
  exists tr,
    Scanner.scan_target 5 unreachable_world 0 the_target fresh_shared
    = Some (Ok 0, fresh_shared, tr) /\
    tr = [Scanner.EvScan 0 the_target; Scanner.EvSleep 0 2;
          Scanner.EvScan 0 the_target; Scanner.EvSleep 0 2;
          Scanner.EvScan 0 the_target;
          Scanner.EvExhausted 0; Scanner.EvReturn 0 0] /\
    length (List.filter Scanner.is_scan tr) = Scanner.RETRIES /\
    length (List.filter Scanner.is_sleep tr) = (Scanner.RETRIES - 1)%nat.
Proof.
  apply (scan_target_exhausts_retries unreachable_world 0
           the_target fresh_shared 5).
  - reflexivity.
  - vm_compute. lia.
Defined.

(** ** The worker pool of scanner.py: what one step can do *)

Ltac local_cases H :=
  unfold Scanner.local_step in H;
  repeat match type of H with
         | context [match ?x with _ => _ end] => destruct x eqn:?
         | context [if ?x then _ else _] => destruct x eqn:?
         end;
  simplify_eq.

Section WorkerSteps.

Import Scanner.

Lemma handler_pc i a :
  fst (handler i a) = Returned 0 \/ fst (handler i a) = AtSleep a.
Proof. unfold handler. destruct (a + 1 =? RETRIES)%nat; auto. Qed.

(** A future starts at its first attempt, or ends at once with what
    [nmap.PortScanner()] raised. *)
Lemma start_pc_cases w i :
  (portscanner w i = None /\ start_pc w i = AtScan 0 /\ start_events w i = []) \/
  (exists e, portscanner w i = Some e /\ start_pc w i = Raised e /\
             start_events w i = [EvRaised i]).
Proof.
  unfold start_pc, start_events. destruct (portscanner w i) as [e|]; eauto 6.
Qed.

(** The CSV file changes in one way only: the row of an interesting host
    of a scan that returned is appended. *)
Lemma local_step_csv w i t p sh p' sh' evs :
  local_step w i t p sh = Some (p', sh', evs) ->
  csv sh' = csv sh \/
  exists a res n h,
    p = AtHosts a res n /\ p' = AtHosts a res (S n) /\
    res !! n = Some h /\ interesting h = true /\
    csv sh' = csv sh ++ [csv_row h].
Proof.
  intros H. local_cases H; simpl; eauto 10.
Qed.

(** A key joins [completed_targets] in one way only: the loop over the
    hosts of a scan that returned has ended. *)
Lemma local_step_completed w i t p sh p' sh' evs :
  local_step w i t p sh = Some (p', sh', evs) ->
  completed_targets sh' = completed_targets sh \/
  exists a res n,
    p = AtHosts a res n /\ p' = AtSave a res /\ res !! n = None /\
    csv sh' = csv sh /\
    completed_targets sh' = completed_targets sh ++ [t].
Proof.
  intros H. local_cases H; simpl; eauto 10.
Qed.

(** state.json is left alone, left undecodable, or holds the keys in
    memory. *)
Lemma local_step_checkpoint w i t p sh p' sh' evs :
  local_step w i t p sh = Some (p', sh', evs) ->
  checkpoint sh' = checkpoint sh \/
  checkpoint sh' = Unreadable \/
  checkpoint sh' = Holds (completed_targets sh').
Proof.
  intros H. local_cases H; simpl; auto.
Qed.

(** A worker is in the loop over hosts only with the result its scan
    returned, and moves one host at a time. *)
Lemma local_step_hosts w i t p sh p' sh' evs a res n' :
  local_step w i t p sh = Some (p', sh', evs) ->
  p' = AtHosts a res n' ->
  (p = AtScan a /\ n' = 0%nat /\ scan_outcome w i a = Some res) \/
  exists n h,
    p = AtHosts a res n /\ n' = S n /\ res !! n = Some h /\
    (interesting h = true -> csv sh' = csv sh ++ [csv_row h]).
Proof.
  intros H ->.
  local_cases H;
    try (destruct (handler_pc i attempt) as [E|E]; rewrite E in *; discriminate);
    eauto 10.
  right. do 2 eexists. repeat split; eauto. congruence.
Qed.

(** A worker stands before [save_state()] only when the loop over the
    hosts of its scan has ended. *)
Lemma local_step_to_save w i t p sh p' sh' evs a res :
  local_step w i t p sh = Some (p', sh', evs) ->
  p' = AtSave a res ->
  exists n, p = AtHosts a res n /\ res !! n = None /\ csv sh' = csv sh.
Proof.
  intros H ->.
  local_cases H;
    try (destruct (handler_pc i attempt) as [E|E]; rewrite E in *; discriminate);
    eauto.
Qed.

Lemma handler_events i a :
  fst (handler i a) = Returned 0 /\ EvExhausted i ∈ snd (handler i a) \/
  fst (handler i a) = AtSleep a.
Proof.
  unfold handler. destruct (a + 1 =? RETRIES)%nat; [left|right]; simpl; [|reflexivity].
  split; [reflexivity|]. left.
Qed.

(** How a worker comes to stand before [save_state()] or to have
    returned. *)
Lemma local_step_arrives w i t p sh p' sh' evs :
  local_step w i t p sh = Some (p', sh', evs) ->
  match p' with
  | AtSave _ _ => t ∈ completed_targets sh'
  | Returned _ =>
      EvExhausted i ∈ evs \/
      exists a res,
        p = AtSave a res /\
        (checkpoint sh' = Holds (completed_targets sh) \/ checkpoint sh' = Unreadable)
  | Raised _ => False
  | _ => True
  end.
Proof.
  intros H.
  local_cases H;
    try match goal with
        | |- context [handler ?i ?a] =>
            destruct (handler_events i a) as [[E Hin]|E]; rewrite E;
            [left; apply elem_of_app; right; exact Hin | exact I]
        end;
    simpl; eauto.
  - apply elem_of_app. right. left.
  - right. eauto.
  - right. eauto.
Qed.

End WorkerSteps.

(** ** The pool: lookups and one step *)

Section PoolSteps.

Import Scanner.

Lemma lookup_set_pc_eq i p ws wk :
  ws !! i = Some wk ->
  set_pc i p ws !! i = Some {| target := target wk; at_ := Some p |}.
Proof. intros H. unfold set_pc. rewrite list_lookup_alter_eq, H. reflexivity. Qed.

Lemma lookup_set_pc_ne i j p ws :
  i <> j -> set_pc i p ws !! j = ws !! j.
Proof. intros H. unfold set_pc. now rewrite list_lookup_alter_ne. Qed.

(** The three ways the pool moves. *)
Inductive moved (w : world) (st st' : state) : Prop :=
| moved_submit t rest :
    pending st = t :: rest ->
    pending st' = rest ->
    workers st' = (if bool_decide (t ∈ completed_targets (mem st)) then workers st
                   else workers st ++ [{| target := t; at_ := None |}]) ->
    mem st' = mem st -> trace st' = trace st ->
    moved w st st'
| moved_start i wk :
    workers st !! i = Some wk -> at_ wk = None ->
    workers st' = set_pc i (start_pc w i) (workers st) ->
    pending st' = pending st -> mem st' = mem st ->
    trace st' = trace st ++ start_events w i ->
    moved w st st'
| moved_local i wk p p' evs :
    workers st !! i = Some wk -> at_ wk = Some p ->
    local_step w i (target wk) p (mem st) = Some (p', mem st', evs) ->
    workers st' = set_pc i p' (workers st) ->
    pending st' = pending st -> trace st' = trace st ++ evs ->
    moved w st st'.

Lemma step_moved w a st st' : step w a st = Some st' -> moved w st st'.
Proof.
  destruct a as [|i]; simpl.
  - unfold submit_step. destruct (pending st) as [|t rest] eqn:Hp; [discriminate|].
    intros [= <-]. eapply moved_submit; eauto.
  - unfold worker_step. destruct (workers st !! i) as [wk|] eqn:Hwk; [|discriminate].
    simpl. destruct (at_ wk) as [p|] eqn:Hat.
    + destruct (local_step w i (target wk) p (mem st)) as [[[p' sh'] evs]|] eqn:Hl;
        [|discriminate].
      simpl. intros [= <-]. eapply moved_local; eauto.
    + destruct (running (workers st) <? MAX_WORKERS)%nat; [|discriminate].
      intros [= <-]. eapply moved_start; eauto.
Qed.

(** A future keeps its place and its target. *)
Lemma moved_worker_kept w st st' i wk :
  moved w st st' -> workers st !! i = Some wk ->
  exists wk', workers st' !! i = Some wk' /\ target wk' = target wk.
Proof.
  intros Hm Hwk. destruct Hm as [t rest _ _ Hw _ _ | j wj Hj _ Hw _ _ _
                                | j wj p p' evs Hj _ _ Hw _ _].
  - rewrite Hw. case_bool_decide; [eauto|].
    exists wk. split; [|reflexivity]. apply lookup_app_l_Some. exact Hwk.
  - rewrite Hw. destruct (decide (j = i)) as [->|Hne].
    + rewrite (lookup_set_pc_eq _ _ _ _ Hwk). eauto.
    + rewrite lookup_set_pc_ne by exact Hne. eauto.
  - rewrite Hw. destruct (decide (j = i)) as [->|Hne].
    + rewrite (lookup_set_pc_eq _ _ _ _ Hwk). eauto.
    + rewrite lookup_set_pc_ne by exact Hne. eauto.
Qed.

(** Both files of rows and keys only grow. *)
Lemma moved_csv_grows w st st' :
  moved w st st' -> exists extra, csv (mem st') = csv (mem st) ++ extra.
Proof.
  intros [t rest _ _ _ Hm _ | j wj _ _ _ _ Hm _ | j wj p p' evs _ _ Hl _ _ _].
  - exists []. now rewrite Hm, app_nil_r.
  - exists []. now rewrite Hm, app_nil_r.
  - apply local_step_csv in Hl as [E | (a & res & n & h & _ & _ & _ & _ & E)].
    + exists []. now rewrite E, app_nil_r.
    + eauto.
Qed.

Lemma moved_completed_grows w st st' :
  moved w st st' ->
  exists extra, completed_targets (mem st') = completed_targets (mem st) ++ extra.
Proof.
  intros [t rest _ _ _ Hm _ | j wj _ _ _ _ Hm _ | j wj p p' evs _ _ Hl _ _ _].
  - exists []. now rewrite Hm, app_nil_r.
  - exists []. now rewrite Hm, app_nil_r.
  - apply local_step_completed in Hl as [E | (a & res & n & _ & _ & _ & _ & E)].
    + exists []. now rewrite E, app_nil_r.
    + eauto.
Qed.

Lemma moved_trace_grows w st st' :
  moved w st st' -> exists evs, trace st' = trace st ++ evs.
Proof.
  intros [t rest _ _ _ _ Ht | j wj _ _ _ _ _ Ht | j wj p p' evs _ _ _ _ _ Ht].
  - exists []. now rewrite Ht, app_nil_r.
  - eauto.
  - eauto.
Qed.

Lemma rows_written_grows res rows extra :
  rows_written res rows -> rows_written res (rows ++ extra).
Proof. intros H h Hh Hi. apply elem_of_app. left. now apply H. Qed.

Lemma attempt_written_grows w i rows extra :
  ScannerInv.attempt_written w i rows ->
  ScannerInv.attempt_written w i (rows ++ extra).
Proof.
  intros (a & res & Hs & Hr). exists a, res. split; [exact Hs|].
  now apply rows_written_grows.
Qed.

End PoolSteps.

Ltac start_absurd E :=
  match type of E with
  | _ = Scanner.start_pc ?w ?i =>
      let Es := fresh "Es" in
      destruct (start_pc_cases w i) as [(_ & Es & _)|(? & _ & Es & _)];
      rewrite Es in E; discriminate E
  end.

Section PoolInvariants.

Import Scanner ScannerInv.

(** Where a future stands after a step: where it stood, or freshly
    started, or one local step further. *)
Lemma moved_at w st st' i wk' p' :
  moved w st st' ->
  workers st' !! i = Some wk' -> at_ wk' = Some p' ->
  (exists wk, workers st !! i = Some wk /\ target wk = target wk' /\
              at_ wk = Some p') \/
  (exists wk, workers st !! i = Some wk /\ target wk = target wk' /\
              at_ wk = None /\ p' = start_pc w i /\ mem st' = mem st /\
              trace st' = trace st ++ start_events w i) \/
  (exists wk p evs, workers st !! i = Some wk /\ target wk = target wk' /\
                    at_ wk = Some p /\
                    local_step w i (target wk) p (mem st) = Some (p', mem st', evs) /\
                    trace st' = trace st ++ evs).
Proof.
  intros Hm Hwk Hat.
  destruct Hm as [t rest _ _ Hw _ _ | j wj Hj Hjat Hw _ Hmem Htr
                 | j wj p q evs Hj Hjat Hl Hw _ Htr].
  - left. rewrite Hw in Hwk. case_bool_decide; [eauto|].
    apply lookup_app_Some in Hwk as [Hold | (_ & Hnew)]; [eauto|].
    apply list_lookup_singleton_Some in Hnew as [_ <-]. discriminate Hat.
  - rewrite Hw in Hwk. destruct (decide (j = i)) as [->|Hne].
    + rewrite (lookup_set_pc_eq _ _ _ _ Hj) in Hwk. injection Hwk as <-.
      simpl in Hat. injection Hat as <-. right. left. exists wj.
      repeat split; try assumption; reflexivity.
    + rewrite lookup_set_pc_ne in Hwk by exact Hne. eauto.
  - rewrite Hw in Hwk. destruct (decide (j = i)) as [->|Hne].
    + rewrite (lookup_set_pc_eq _ _ _ _ Hj) in Hwk. injection Hwk as <-.
      simpl in Hat. injection Hat as <-. right. right. exists wj, p, evs.
      repeat split; try assumption; reflexivity.
    + rewrite lookup_set_pc_ne in Hwk by exact Hne. eauto.
Qed.

Lemma moved_completed_new w st st' t :
  moved w st st' ->
  t ∈ completed_targets (mem st') ->
  t ∈ completed_targets (mem st) \/
  exists i wk a res n,
    workers st !! i = Some wk /\ target wk = t /\
    at_ wk = Some (AtHosts a res n) /\ res !! n = None /\
    csv (mem st') = csv (mem st).
Proof.
  intros Hm Ht.
  destruct Hm as [? ? _ _ _ Hmem _ | j wj _ _ _ _ Hmem _
                 | j wj p q evs Hj Hjat Hl _ _ _].
  - left. now rewrite <- Hmem.
  - left. now rewrite <- Hmem.
  - apply local_step_completed in Hl
      as [E | (a & res & n & -> & _ & Hn & Hcsv & E)].
    + left. now rewrite <- E.
    + rewrite E in Ht. apply elem_of_app in Ht as [Ht|Ht]; [now left|].
      apply list_elem_of_singleton in Ht as ->. right.
      exists j, wj, a, res, n. auto.
Qed.

Lemma moved_checkpoint w st st' :
  moved w st st' ->
  checkpoint (mem st') = checkpoint (mem st) \/
  checkpoint (mem st') = Unreadable \/
  checkpoint (mem st') = Holds (completed_targets (mem st')).
Proof.
  intros [? ? _ _ _ Hmem _ | j wj _ _ _ _ Hmem _ | j wj p q evs _ _ Hl _ _ _].
  - left. now rewrite Hmem.
  - left. now rewrite Hmem.
  - eapply local_step_checkpoint. exact Hl.
Qed.

Lemma behind_sink_moved w loaded st st' :
  moved w st st' -> behind_sink w loaded st -> behind_sink w loaded st'.
Proof.
  intros Hm [Hhosts Hsave Hmem Hdisk].
  destruct (moved_csv_grows _ _ _ Hm) as [extra Hcsv].
  destruct (moved_completed_grows _ _ _ Hm) as [more Hcompleted].
  assert (Hall : forall i wk a res n,
            workers st !! i = Some wk -> at_ wk = Some (AtHosts a res n) ->
            res !! n = None ->
            scan_outcome w i a = Some res /\ rows_written res (csv (mem st))).
  { intros i wk a res n Hwk Hat Hn.
    destruct (Hhosts _ _ _ _ _ Hwk Hat) as [Hs Hrows]. split; [exact Hs|].
    intros h Hh Hi. apply list_elem_of_lookup in Hh as [k Hk].
    apply (Hrows k h); [|exact Hk|exact Hi].
    apply lookup_ge_None in Hn. apply lookup_lt_Some in Hk. lia. }
  split.
  - intros i wk' a res n Hwk Hat.
    destruct (moved_at _ _ _ _ _ _ Hm Hwk Hat)
      as [(wk & Hold & _ & Hoat)
         | [(wk & _ & _ & _ & E & _) | (wk & p & evs & Hold & _ & Hoat & Hl & _)]].
    + destruct (Hhosts _ _ _ _ _ Hold Hoat) as [Hs Hrows]. split; [exact Hs|].
      intros k h Hk Hh Hi. rewrite Hcsv. apply elem_of_app. left. eauto.
    + start_absurd E.
    + destruct (local_step_hosts _ _ _ _ _ _ _ _ _ _ _ Hl eq_refl)
        as [(-> & -> & Hs) | (n0 & h0 & -> & -> & Hh0 & Hrow)].
      * split; [exact Hs|]. intros k h Hk. lia.
      * destruct (Hhosts _ _ _ _ _ Hold Hoat) as [Hs Hrows]. split; [exact Hs|].
        intros k h Hk Hh Hi. destruct (decide (k = n0)) as [->|Hne].
        -- rewrite Hh0 in Hh. injection Hh as ->. rewrite (Hrow Hi).
           apply elem_of_app. right. apply list_elem_of_singleton. reflexivity.
        -- rewrite Hcsv. apply elem_of_app. left.
           apply (Hrows k h); [lia | exact Hh | exact Hi].
  - intros i wk' a res Hwk Hat.
    destruct (moved_at _ _ _ _ _ _ Hm Hwk Hat)
      as [(wk & Hold & _ & Hoat)
         | [(wk & _ & _ & _ & E & _) | (wk & p & evs & Hold & _ & Hoat & Hl & _)]].
    + destruct (Hsave _ _ _ _ Hold Hoat) as [Hs Hrows]. split; [exact Hs|].
      rewrite Hcsv. now apply rows_written_grows.
    + start_absurd E.
    + destruct (local_step_to_save _ _ _ _ _ _ _ _ _ _ Hl eq_refl)
        as (n & -> & Hn & Hsame).
      rewrite Hsame. eapply Hall; eauto.
  - intros t Ht.
    destruct (moved_completed_new _ _ _ _ Hm Ht)
      as [Hold | (i & wk & a & res & n & Hwk & Htarget & Hat & Hn & Hsame)].
    + destruct (Hmem t Hold) as [Hl | (i & wk & Hwk & Htarget & Hw)]; [now left|].
      right. destruct (moved_worker_kept _ _ _ _ _ Hm Hwk) as (wk' & Hwk' & Ht').
      exists i, wk'. split; [exact Hwk'|]. split; [congruence|].
      rewrite Hcsv. now apply attempt_written_grows.
    + right. destruct (moved_worker_kept _ _ _ _ _ Hm Hwk) as (wk' & Hwk' & Ht').
      exists i, wk'. split; [exact Hwk'|]. split; [congruence|].
      exists a, res. rewrite Hsame. eapply Hall; eauto.
  - intros l Hl t Ht.
    destruct (moved_checkpoint _ _ _ Hm) as [E | [E | E]].
    + rewrite Hcompleted. apply elem_of_app. left.
      apply (Hdisk l); [congruence | exact Ht].
    + congruence.
    + rewrite E in Hl. injection Hl as <-. exact Ht.
Qed.

End PoolInvariants.

Section PoolRuns.

Import Scanner ScannerInv.

Lemma run_preserves w (P : state -> Prop) :
  (forall st st', moved w st st' -> P st -> P st') ->
  forall sched st st', run w sched st = Some st' -> P st -> P st'.
Proof.
  intros Hstep sched. induction sched as [|a sched IH]; intros st st' Hrun HP.
  - injection Hrun as <-. exact HP.
  - simpl in Hrun. destruct (step w a st) as [st1|] eqn:Hs; [|discriminate].
    simpl in Hrun. apply (IH st1 st' Hrun).
    apply (Hstep st st1); [|exact HP]. eapply step_moved. exact Hs.
Qed.

(** What [boot] hands to the pool. *)
Lemma boot_state d st0 msgs :
  boot d = Ok (st0, msgs) ->
  workers st0 = [] /\ trace st0 = [] /\
  csv (mem st0) = init_csv d /\
  checkpoint (mem st0) = state_json d /\
  load_state d = Ok (completed_targets (mem st0)).
Proof.
  unfold boot. destruct (load_data d) as [data|]; [|discriminate]. simpl.
  destruct (iterate data) as [items|]; [|discriminate]. simpl.
  destruct (build_targets items) as [ts|]; [|discriminate]. simpl.
  destruct (load_state d) as [loaded|]; [|discriminate]. simpl.
  intros [= <- _]. simpl. auto.
Qed.

Lemma load_state_holds d l loaded :
  state_json d = Holds l -> load_state d = Ok loaded -> loaded = l.
Proof. unfold load_state. intros ->. simpl. congruence. Qed.

Lemma load_state_missing d loaded :
  state_json d = Missing -> load_state d = Ok loaded -> loaded = [].
Proof. unfold load_state. intros ->. simpl. congruence. Qed.

Lemma behind_sink_boot w d st0 msgs :
  boot d = Ok (st0, msgs) ->
  behind_sink w (completed_targets (mem st0)) st0.
Proof.
  intros Hb. apply boot_state in Hb as (Hw & _ & _ & Hck & Hload).
  split.
  - intros i wk a res n Hwk. rewrite Hw in Hwk. discriminate Hwk.
  - intros i wk a res Hwk. rewrite Hw in Hwk. discriminate Hwk.
  - intros t Ht. now left.
  - intros l Hl t Ht. rewrite Hck in Hl.
    now rewrite (load_state_holds d l _ Hl Hload).
Qed.

Lemma behind_sink_run w d st0 msgs sched st :
  boot d = Ok (st0, msgs) -> run w sched st0 = Some st ->
  behind_sink w (completed_targets (mem st0)) st.
Proof.
  intros Hb Hrun.
  apply (run_preserves w (behind_sink w (completed_targets (mem st0)))
           (behind_sink_moved w _) sched st0 st Hrun).
  eapply behind_sink_boot. exact Hb.
Qed.

(** In scanner.py a key found in state.json at any point of a run, unless
    it was already there when the run started, is the target of a worker one
    of whose scans returned and has every interesting row in the CSV file. *)
Lemma scanner_checkpoint_behind_sink w d st0 msgs sched st l t :
  boot d = Ok (st0, msgs) -> run w sched st0 = Some st ->
  checkpoint (mem st) = Holds l -> t ∈ l ->
  t ∉ completed_targets (mem st0) ->
  exists i wk a res,
    workers st !! i = Some wk /\ target wk = t /\
    scan_outcome w i a = Some res /\
    rows_written res (csv (mem st)).
Proof.
  intros Hb Hrun Hck Ht Hnew.
  destruct (behind_sink_run w d st0 msgs sched st Hb Hrun) as [_ _ Hmem Hdisk].
  destruct (Hmem t (Hdisk l Hck t Ht)) as [Hold | (i & wk & Hwk & Htg & a & res & Hs & Hr)].
  - contradiction.
  - exists i, wk, a, res. auto.
Qed.

(** Rows reach the CSV file of scanner.py only for interesting hosts of a
    scan that returned, one row per step. *)
Lemma scanner_rows_only_interesting w d st0 msgs sched st a st' :
  boot d = Ok (st0, msgs) -> run w sched st0 = Some st ->
  step w a st = Some st' ->
  csv (mem st') = csv (mem st) \/
  exists i att res n h,
    a = Worker i /\ scan_outcome w i att = Some res /\
    res !! n = Some h /\ interesting h = true /\
    csv (mem st') = csv (mem st) ++ [csv_row h].
Proof.
  intros Hb Hrun Hstep.
  destruct (behind_sink_run w d st0 msgs sched st Hb Hrun) as [Hhosts _ _ _].
  destruct a as [|i]; simpl in Hstep.
  - left. unfold submit_step in Hstep.
    destruct (pending st); [discriminate|]. now injection Hstep as <-.
  - unfold worker_step in Hstep.
    destruct (workers st !! i) as [wk|] eqn:Hwk; [|discriminate]. simpl in Hstep.
    destruct (at_ wk) as [p|] eqn:Hat.
    + destruct (local_step w i (target wk) p (mem st)) as [[[p' sh'] evs]|] eqn:Hl;
        [|discriminate].
      simpl in Hstep. injection Hstep as <-. simpl.
      apply local_step_csv in Hl as [E | (att & res & n & h & -> & _ & Hn & Hi & E)];
        [now left|].
      right. exists i, att, res, n, h.
      destruct (Hhosts _ _ _ _ _ Hwk Hat) as [Hs _]. auto.
    + destruct (running (workers st) <? MAX_WORKERS)%nat; [|discriminate].
      left. now injection Hstep as <-.
Qed.

End PoolRuns.

(** ** The loop of 2.ollama-checker.py *)

Section CheckerLoop.

Import Checker.

Lemma exec_app ss1 ss2 v : exec (ss1 ++ ss2) v = exec ss2 (exec ss1 v).
Proof. unfold exec. apply fold_left_app. Qed.

Lemma snapshot_snoc state done r :
  checked_keys (snapshot state (done ++ [r])) =
    {[ key (fst r) ]} ∪ checked_keys (snapshot state done) /\
  found_rows (snapshot state (done ++ [r])) =
    found_rows (snapshot state done) ++ (if snd r then [fst r] else []).
Proof.
  unfold snapshot. simpl. split.
  - rewrite map_app, list_to_set_app_L. simpl.
    rewrite union_empty_r_L.
    rewrite (union_comm_L (list_to_set (map (fun r0 => key (fst r0)) done))).
    rewrite <- union_assoc_L. reflexivity.
  - rewrite List.filter_app, map_app, app_assoc. simpl.
    destruct (snd r); reflexivity.
Qed.

(** The first three statements of an iteration leave the files alone. *)
Lemma iteration_files total to_check r v n :
  (n <= 3)%nat ->
  files (exec (take n (iteration total to_check r)) v) = files v.
Proof.
  intros Hn. destruct n as [|[|[|[|n]]]]; try lia; simpl; try reflexivity;
    unfold record_found; destruct (snd r); reflexivity.
Qed.

(** A whole iteration moves the variables to the next boundary and either
    leaves the files alone or writes the checkpoint of that boundary. *)
Lemma iteration_whole total to_check r state done v :
  at_boundary state done v ->
  let v' := exec (iteration total to_check r) v in
  at_boundary state (done ++ [r]) v' /\
  (files v' = files v \/
   files v' = {| state_json := Holds (snapshot state (done ++ [r]));
                 nmap_csv := nmap_csv (files v);
                 ollama_csv := ollama_csv (files v) |}).
Proof.
  intros [Hc Hf]. destruct (snapshot_snoc state done r) as [Ec Ef].
  assert (Hb : at_boundary state (done ++ [r])
                 (show_progress total (record_found r (mark_checked r v)))).
  { split; [rewrite Ec, <- Hc | rewrite Ef, <- Hf]; unfold record_found;
      destruct (snd r); simpl; rewrite ?app_nil_r; reflexivity. }
  assert (Hfiles : files (show_progress total (record_found r (mark_checked r v)))
                   = files v).
  { unfold record_found. destruct (snd r); reflexivity. }
  simpl. unfold save_if_due.
  set (u := show_progress total (record_found r (mark_checked r v))) in *.
  destruct ((checked u mod 10 =? 0) || (checked u =? to_check)).
  - split; [exact Hb|]. right. destruct Hb as [Hbc Hbf]. simpl in *.
    rewrite Hfiles. f_equal. f_equal.
    unfold snapshot. rewrite Hbc, Hbf. reflexivity.
  - split; [exact Hb|]. left. exact Hfiles.
Qed.

(** Any number of statements into the loop, the checkpoint on disk is that
    of a whole number of completions and ollama.csv is untouched. *)
Lemma loop_prefix d state total to_check rs rest :
  forall done v n,
    rs = done ++ rest ->
    at_boundary state done v ->
    checkpoint_whole d state rs v ->
    ollama_csv (files v) = ollama_csv d ->
    let v' := exec (take n (concat (map (iteration total to_check) rest))) v in
    checkpoint_whole d state rs v' /\ ollama_csv (files v') = ollama_csv d.
Proof.
  induction rest as [|r rest IH]; intros done v n Hrs Hb Hck Hcsv.
  - simpl. rewrite take_nil. simpl. auto.
  - cbn [map concat]. destruct (decide (n <= 3)%nat) as [Hn|Hn].
    + rewrite take_app_le by (simpl; lia).
      cbv zeta. unfold checkpoint_whole.
      rewrite (iteration_files total to_check r v n Hn). auto.
    + rewrite take_app_ge by (simpl; lia). cbv zeta. rewrite exec_app.
      destruct (iteration_whole total to_check r state done v Hb) as [Hb' Hfiles].
      apply (IH (done ++ [r])).
      * rewrite Hrs, <- app_assoc. reflexivity.
      * exact Hb'.
      * destruct Hck as [Hn1 Hs]. unfold checkpoint_whole.
        destruct Hfiles as [E|E]; rewrite E.
        -- split; assumption.
        -- split; [exact Hn1|]. right. exists (length (done ++ [r])). simpl.
           rewrite Hrs.
           replace (done ++ r :: rest) with ((done ++ [r]) ++ rest)
             by (rewrite <- app_assoc; reflexivity).
           rewrite take_app_length. reflexivity.
      * destruct Hfiles as [E|E]; rewrite E; exact Hcsv.
Qed.

(** The whole loop ends at the boundary of all the completions. *)
Lemma loop_whole state total to_check rest :
  forall done v,
    at_boundary state done v ->
    at_boundary state (done ++ rest)
      (exec (concat (map (iteration total to_check) rest)) v).
Proof.
  induction rest as [|r rest IH]; intros done v Hb.
  - simpl. now rewrite app_nil_r.
  - cbn [map concat]. rewrite exec_app.
    replace (done ++ r :: rest) with ((done ++ [r]) ++ rest)
      by (rewrite <- app_assoc; reflexivity).
    apply IH. apply (iteration_whole total to_check r state done v Hb).
Qed.

End CheckerLoop.

Section CheckerRuns.

Import Checker.

Lemma start_boundary d : at_boundary (loaded d) [] (start d).
Proof.
  unfold at_boundary, snapshot, start. simpl. split.
  - now rewrite union_empty_l_L.
  - now rewrite app_nil_r.
Qed.

Lemma start_checkpoint_whole d rs : checkpoint_whole d (loaded d) rs (start d).
Proof. split; [reflexivity | left; reflexivity]. Qed.

Lemma completions_units w l : map fst (completions w l) = arrange w l.
Proof.
  unfold completions. rewrite map_map. rewrite <- (map_id (arrange w l)) at 2.
  apply map_ext. intros [h p]. unfold check_ollama_host. simpl.
  destruct (net w _) as [|code text]; [reflexivity|].
  destruct (contains _ text); [reflexivity|]. destruct (code =? 200); reflexivity.
Qed.

(** The script when something is left to check: two opening statements,
    the loop, three closing statements. *)
Lemma script_resuming w state rows u us :
  dispatched state rows = u :: us ->
  exists s1 s2 total to_check,
    script w state rows =
      [s1; s2] ++
      concat (map (iteration total to_check) (completions w (dispatched state rows))) ++
      [say (Print LF); write_results total; save_state] /\
    (forall v, files (s1 v) = files v /\ checked_set (s1 v) = checked_set v /\
               ollama_hosts (s1 v) = ollama_hosts v) /\
    (forall v, files (s2 v) = files v /\ checked_set (s2 v) = checked_set v /\
               ollama_hosts (s2 v) = ollama_hosts v).
Proof.
  unfold dispatched, script. intros E. rewrite E.
  do 4 eexists. split; [reflexivity|]. split; intros v; simpl; auto.
Qed.

Lemma script_complete w state rows :
  dispatched state rows = [] ->
  script w state rows = report_complete (Z.of_nat (length (hosts_list_of rows))).
Proof. unfold dispatched, script. intros E. rewrite E. reflexivity. Qed.

End CheckerRuns.

Section CheckerPrefix.

Import Checker.

Lemma loop_end d state total to_check rs v :
  at_boundary state [] v ->
  checkpoint_whole d state rs v ->
  ollama_csv (files v) = ollama_csv d ->
  let v' := exec (concat (map (iteration total to_check) rs)) v in
  at_boundary state rs v' /\ checkpoint_whole d state rs v' /\
  ollama_csv (files v') = ollama_csv d.
Proof.
  intros Hb Hck Hcsv. cbv zeta. split.
  - apply (loop_whole state total to_check rs [] v Hb).
  - pose proof (loop_prefix d state total to_check rs rs [] v
                  (length (concat (map (iteration total to_check) rs)))
                  eq_refl Hb Hck Hcsv) as H.
    cbv zeta in H. rewrite take_ge in H by lia. exact H.
Qed.

Lemma boundary_snapshot state rs v :
  at_boundary state rs v ->
  {| checked_keys := checked_set v; found_rows := ollama_hosts v |} = snapshot state rs.
Proof.
  intros [Hc Hf]. rewrite Hc, Hf. destruct (snapshot state rs). reflexivity.
Qed.

Lemma write_results_csv total v :
  ollama_csv (files (write_results total v)) =
    reported_csv (ollama_hosts v) (ollama_csv (files v)).
Proof.
  unfold write_results. destruct (ollama_hosts v) eqn:E; simpl; rewrite ?E; auto.
Qed.

Lemma write_results_files total v :
  state_json (files (write_results total v)) = state_json (files v) /\
  nmap_csv (files (write_results total v)) = nmap_csv (files v) /\
  checked_set (write_results total v) = checked_set v /\
  ollama_hosts (write_results total v) = ollama_hosts v.
Proof.
  unfold write_results. destruct (ollama_hosts v) eqn:E; simpl; rewrite ?E; auto.
Qed.

Lemma rewrite_results_files total v :
  state_json (files (rewrite_results total v)) = state_json (files v) /\
  nmap_csv (files (rewrite_results total v)) = nmap_csv (files v) /\
  ollama_csv (files (rewrite_results total v)) =
    reported_csv (ollama_hosts v) (ollama_csv (files v)).
Proof.
  unfold rewrite_results. destruct (ollama_hosts v) eqn:E; simpl; rewrite ?E; auto.
Qed.

(** The closing statements, any number of them, from the boundary of all
    the completions. *)
Lemma closing_prefix d state total rs v m :
  at_boundary state rs v ->
  checkpoint_whole d state rs v ->
  checkpoint_whole d state rs
    (exec (take m [say (Print LF); write_results total; save_state]) v).
Proof.
  intros Hb [Hn Hs].
  destruct (write_results_files total (say (Print LF) v)) as (E1 & E2 & E3 & E4).
  destruct m as [|[|[|m]]]; unfold exec, checkpoint_whole;
    cbn [take fold_left]; rewrite ?take_nil; cbn [fold_left].
  - split; assumption.
  - split; assumption.
  - split; [rewrite E2; exact Hn | rewrite E1; exact Hs].
  - split; [cbn [save_state files nmap_csv]; rewrite E2; exact Hn|].
    right. exists (length rs).
    rewrite take_ge by lia. cbn [save_state files state_json]. f_equal.
    rewrite E3, E4.
    apply (boundary_snapshot state rs v Hb).
Qed.

(** However many statements of the [try] block have run, state.json is as
    the run found it or holds the checkpoint of a whole number of
    completions. *)
Lemma checker_prefix w d rows n :
  checkpoint_whole d (loaded d)
    (completions w (dispatched (loaded d) rows))
    (exec (take n (script w (loaded d) rows)) (start d)).
Proof.
  set (state := loaded d).
  destruct (dispatched state rows) as [|u us] eqn:Hd.
  - rewrite (script_complete w state rows Hd). unfold report_complete.
    destruct n as [|[|n]]; unfold exec, checkpoint_whole;
      cbn [take fold_left]; rewrite ?take_nil; cbn [fold_left];
      try (split; [reflexivity | left; reflexivity]).
    destruct (rewrite_results_files (Z.of_nat (length (hosts_list_of rows)))
                (announce_complete (Z.of_nat (length (hosts_list_of rows))) (start d)))
      as (E1 & E2 & _).
    rewrite E1, E2. split; [reflexivity | left; reflexivity].
  - destruct (script_resuming w state rows u us Hd)
      as (s1 & s2 & total & to_check & -> & H1 & H2).
    rewrite Hd.
    set (rs := completions w (u :: us)).
    set (loop := concat (map (iteration total to_check) rs)).
    assert (Hv2 : at_boundary state [] (s2 (s1 (start d))) /\
                  checkpoint_whole d state rs (s2 (s1 (start d))) /\
                  ollama_csv (files (s2 (s1 (start d)))) = ollama_csv d).
    { destruct (H2 (s1 (start d))) as (F2 & C2 & O2).
      destruct (H1 (start d)) as (F1 & C1 & O1).
      unfold at_boundary, checkpoint_whole. rewrite F2, F1, C2, C1, O2, O1.
      destruct (start_boundary d) as [Hc Hf].
      repeat split; try assumption; try reflexivity. left. reflexivity. }
    destruct Hv2 as (Hb2 & Hck2 & Hcsv2).
    destruct (decide (n <= 2)%nat) as [Hn|Hn].
    + rewrite take_app_le by (simpl; lia).
      destruct n as [|[|[|n]]]; try lia; simpl.
      * apply start_checkpoint_whole.
      * destruct (H1 (start d)) as (F1 & _). unfold checkpoint_whole. rewrite F1.
        apply start_checkpoint_whole.
      * exact Hck2.
    + rewrite take_app_ge by (simpl; lia). rewrite exec_app. simpl length.
      change (exec [s1; s2] (start d)) with (s2 (s1 (start d))).
      destruct (decide (n - 2 <= length loop)%nat) as [Hm|Hm].
      * rewrite take_app_le by exact Hm.
        apply (loop_prefix d state total to_check rs rs [] _ (n - 2)
                 eq_refl Hb2 Hck2 Hcsv2).
      * rewrite take_app_ge by lia. rewrite exec_app.
        destruct (loop_end d state total to_check rs _ Hb2 Hck2 Hcsv2)
          as (Hb3 & Hck3 & _).
        apply closing_prefix; assumption.
Qed.

End CheckerPrefix.

Section CheckerComplete.

Import Checker.

Lemma load_state_total d : load_state d = Ok (loaded d).
Proof.
  unfold loaded, load_state. destruct (state_json d); reflexivity.
Qed.

Lemma main_reads w stop d rows :
  nmap_csv d = Holds rows ->
  main w stop d =
    let ss := script w (loaded d) rows in
    match stop with
    | Some n =>
        if (n <? length ss)%nat then
          {| exit_code := 0;
             final := on_interrupt (exec (take n ss) (start d));
             probes := if (n <=? 1)%nat then [] else dispatched (loaded d) rows |}
        else {| exit_code := 0; final := exec ss (start d);
                probes := dispatched (loaded d) rows |}
    | None => {| exit_code := 0; final := exec ss (start d);
                 probes := dispatched (loaded d) rows |}
    end.
Proof.
  intros H. unfold main. rewrite (load_state_total d), H. reflexivity.
Qed.

(** A run with nothing left to check: the checkpoint is left alone and
    ollama.csv is rewritten from the rows the checkpoint holds. *)
Lemma exec_complete w d rows :
  dispatched (loaded d) rows = [] ->
  let v := exec (script w (loaded d) rows) (start d) in
  state_json (files v) = state_json d /\
  nmap_csv (files v) = nmap_csv d /\
  ollama_csv (files v) = reported_csv (found_rows (loaded d)) (ollama_csv d).
Proof.
  intros Hd. cbv zeta. rewrite (script_complete w _ rows Hd).
  unfold report_complete, exec. cbn [fold_left].
  destruct (rewrite_results_files (Z.of_nat (length (hosts_list_of rows)))
              (announce_complete (Z.of_nat (length (hosts_list_of rows))) (start d)))
    as (E1 & E2 & E3).
  rewrite E1, E2, E3. auto.
Qed.

(** A run through the loop: the last checkpoint is that of all the
    completions and ollama.csv is rewritten from its rows. *)
Lemma exec_resuming w d rows u us :
  dispatched (loaded d) rows = u :: us ->
  let rs := completions w (dispatched (loaded d) rows) in
  let v := exec (script w (loaded d) rows) (start d) in
  state_json (files v) = Holds (snapshot (loaded d) rs) /\
  nmap_csv (files v) = nmap_csv d /\
  ollama_hosts v = found_rows (snapshot (loaded d) rs) /\
  ollama_csv (files v) =
    reported_csv (found_rows (snapshot (loaded d) rs)) (ollama_csv d).
Proof.
  intros Hd. cbv zeta.
  destruct (script_resuming w (loaded d) rows u us Hd)
    as (s1 & s2 & total & to_check & -> & H1 & H2).
  set (rs := completions w (dispatched (loaded d) rows)).
  rewrite !exec_app. change (exec [s1; s2] (start d)) with (s2 (s1 (start d))).
  destruct (H2 (s1 (start d))) as (F2 & C2 & O2).
  destruct (H1 (start d)) as (F1 & C1 & O1).
  destruct (start_boundary d) as [Hc Hf].
  assert (Hb2 : at_boundary (loaded d) [] (s2 (s1 (start d)))).
  { unfold at_boundary. rewrite C2, C1, O2, O1. split; assumption. }
  assert (Hck2 : checkpoint_whole d (loaded d) rs (s2 (s1 (start d)))).
  { unfold checkpoint_whole. rewrite F2, F1. split; [reflexivity | left; reflexivity]. }
  assert (Hcsv2 : ollama_csv (files (s2 (s1 (start d)))) = ollama_csv d).
  { rewrite F2, F1. reflexivity. }
  destruct (loop_end d (loaded d) total to_check rs _ Hb2 Hck2 Hcsv2)
    as (Hb3 & [Hn3 _] & Hcsv3).
  set (v3 := exec (concat (map (iteration total to_check) rs)) (s2 (s1 (start d)))) in *.
  change (exec [say (Print LF); write_results total; save_state] v3)
    with (save_state (write_results total (say (Print LF) v3))).
  destruct (write_results_files total (say (Print LF) v3)) as (E1 & E2 & E3 & E4).
  pose proof (write_results_csv total (say (Print LF) v3)) as E5.
  cbn [save_state files state_json nmap_csv ollama_csv ollama_hosts].
  rewrite E2, E3, E4, E5. cbn [say files ollama_hosts checked_set].
  destruct Hb3 as [Hc3 Hf3].
  repeat split.
  - f_equal. apply boundary_snapshot. split; assumption.
  - exact Hn3.
  - exact Hf3.
  - rewrite Hf3, Hcsv3. reflexivity.
Qed.

End CheckerComplete.

Section CheckerResume.

Import Checker.

Lemma loaded_ext d d' :
  state_json d' = state_json d -> loaded d' = loaded d.
Proof. unfold loaded, load_state. intros ->. reflexivity. Qed.

Lemma loaded_holds d s :
  state_json d = Holds s -> loaded d = s.
Proof. unfold loaded, load_state. intros ->. reflexivity. Qed.

Lemma reported_csv_idem rows old :
  reported_csv rows (reported_csv rows old) = reported_csv rows old.
Proof. destruct rows; reflexivity. Qed.

Lemma filter_none {A} (P : A -> Prop) `{forall x, Decision (P x)} (l : list A) :
  (forall x, x ∈ l -> ~ P x) -> filter P l = [].
Proof.
  induction l as [|x l IH]; intros Hall; [reflexivity|].
  rewrite filter_cons. destruct (decide (P x)) as [HP|_].
  - exfalso. apply (Hall x); [left | exact HP].
  - apply IH. intros y Hy. apply Hall. now right.
Qed.

(** Once a run through the loop has ended, every unit of the input has
    its key in the checkpoint. *)
Lemma all_checked_after w state rows :
  fair w ->
  dispatched (snapshot state (completions w (dispatched state rows))) rows = [].
Proof.
  intros Hfair. unfold dispatched at 1, hosts_to_check_of.
  apply filter_none. intros x Hx Hnot. apply Hnot. clear Hnot.
  unfold snapshot. simpl. apply elem_of_union.
  destruct (decide (key x ∈ checked_keys state)) as [Hin|Hout]; [now right|].
  left. apply elem_of_list_to_set.
  rewrite <- (map_map fst key), completions_units.
  apply list_elem_of_fmap. exists x. split; [reflexivity|].
  rewrite (Hfair _). unfold dispatched, hosts_to_check_of.
  apply list_elem_of_filter. split; assumption.
Qed.

(** A run that finds nothing left to check, interrupted or not, probes
    nothing; it leaves ollama.csv as it is when the file already holds the
    rows of the checkpoint. *)
Lemma nothing_left w stop d rows old :
  nmap_csv d = Holds rows ->
  dispatched (loaded d) rows = [] ->
  ollama_csv d = reported_csv (found_rows (loaded d)) old ->
  probes (main w stop d) = [] /\
  ollama_csv (files (final (main w stop d))) = ollama_csv d.
Proof.
  intros Hrows Hd Hcsv. rewrite (main_reads w stop d rows Hrows). cbv zeta.
  destruct (exec_complete w d rows Hd) as (_ & _ & Efull).
  assert (Hfull : ollama_csv (files (exec (script w (loaded d) rows) (start d)))
                  = ollama_csv d).
  { rewrite Efull, Hcsv. apply reported_csv_idem. }
  destruct stop as [n|]; [|rewrite Hd; split; [reflexivity | exact Hfull]].
  rewrite (script_complete w _ rows Hd) in *. unfold report_complete in *.
  rewrite Hd. simpl length.
  destruct n as [|[|n]]; simpl (_ <? _)%nat; cbn iota.
  - split; reflexivity.
  - split; reflexivity.
  - split; [reflexivity | exact Hfull].
Qed.

(** The checker run to its end and run again: the second run probes
    nothing and leaves ollama.csv byte for byte. *)
Lemma checker_idempotent_resume w1 w2 stop d rows :
  fair w1 ->
  nmap_csv d = Holds rows ->
  let d2 := files (final (main w1 None d)) in
  probes (main w2 stop d2) = [] /\
  ollama_csv (files (final (main w2 stop d2))) = ollama_csv d2.
Proof.
  intros Hfair Hrows. cbv zeta. rewrite (main_reads w1 None d rows Hrows).
  cbv zeta. cbn [final].
  set (d2 := files (exec (script w1 (loaded d) rows) (start d))).
  destruct (dispatched (loaded d) rows) as [|u us] eqn:Hd.
  - destruct (exec_complete w1 d rows Hd) as (E1 & E2 & E3). fold d2 in E1, E2, E3.
    pose proof (loaded_ext d d2 E1) as El.
    apply (nothing_left w2 stop d2 rows (ollama_csv d)).
    + now rewrite E2.
    + now rewrite El.
    + now rewrite El.
  - destruct (exec_resuming w1 d rows u us Hd) as (E1 & E2 & _ & E4).
    fold d2 in E1, E2, E4.
    pose proof (loaded_holds d2 _ E1) as El.
    apply (nothing_left w2 stop d2 rows (ollama_csv d)).
    + now rewrite E2.
    + rewrite El. apply all_checked_after. exact Hfair.
    + now rewrite El.
Qed.

End CheckerResume.

Section PoolProgress.

Import Scanner ScannerInv.

Lemma progress_moved w initial loaded st st' :
  moved w st st' -> behind_sink w loaded st ->
  progress initial loaded st -> progress initial loaded st'.
Proof.
  intros Hm Hbs [Hlook Hkeep Hmark Hsaved Hunsaved].
  destruct (moved_completed_grows _ _ _ Hm) as [more Hc].
  destruct (moved_trace_grows _ _ _ Hm) as [evs' Htr].
  assert (Hkept : forall i wk, workers st !! i = Some wk ->
            exists wk', workers st' !! i = Some wk' /\ target wk' = target wk).
  { intros i wk Hwk. eapply moved_worker_kept; eauto. }
  assert (Hkeep' : forall t, t ∈ loaded -> t ∈ completed_targets (mem st')).
  { intros t Ht. rewrite Hc. apply elem_of_app. left. auto. }
  assert (Hmark' : forall i wk p, workers st' !! i = Some wk -> at_ wk = Some p ->
            match p with
            | AtSave _ _ => target wk ∈ completed_targets (mem st')
            | Returned _ =>
                EvExhausted i ∈ trace st' \/ target wk ∈ completed_targets (mem st')
            | Raised _ => EvRaised i ∈ trace st'
            | _ => True
            end).
  { intros i wk' p' Hwk Hat.
    destruct (moved_at _ _ _ _ _ _ Hm Hwk Hat)
      as [(wk & Hold & Htg & Hoat)
         | [(wk & _ & _ & _ & E & _ & Htr1)
           | (wk & p & evs & Hold & Htg & Hoat & Hl & Htr2)]].
    - specialize (Hmark i wk p' Hold Hoat). destruct p'; try exact I.
      + rewrite Hc, <- Htg. apply elem_of_app. left. exact Hmark.
      + destruct Hmark as [He|Hin].
        * left. rewrite Htr. apply elem_of_app. left. exact He.
        * right. rewrite Hc, <- Htg. apply elem_of_app. left. exact Hin.
      + rewrite Htr. apply elem_of_app. left. exact Hmark.
    - destruct (start_pc_cases w i) as [(_ & Es & _)|(e & _ & Es & Ee)];
        rewrite E, Es; [exact I|].
      rewrite Htr1, Ee. apply elem_of_app. right. left.
    - pose proof (local_step_arrives _ _ _ _ _ _ _ _ Hl) as Ha.
      destruct p'; try exact I.
      + rewrite <- Htg. exact Ha.
      + destruct Ha as [He | (a & res & -> & _)].
        * left. rewrite Htr2. apply elem_of_app. right. exact He.
        * right. specialize (Hmark i wk _ Hold Hoat). simpl in Hmark.
          rewrite Hc, <- Htg. apply elem_of_app. left. exact Hmark.
      + exfalso. exact Ha. }
  split.
  - destruct Hlook as (seen & Hinit & Hseen).
    assert (Hseen' : forall t, t ∈ seen ->
              t ∈ loaded \/ exists i wk, workers st' !! i = Some wk /\ target wk = t).
    { intros t Ht. destruct (Hseen t Ht) as [Hl | (i & wk & Hwk & Htg)]; [now left|].
      right. destruct (Hkept i wk Hwk) as (wk' & Hwk' & Htg').
      exists i, wk'. split; [exact Hwk' | congruence]. }
    destruct Hm as [t rest Hp Hp' Hw _ _ | j wj _ _ _ Hp' _ _
                   | j wj p q evs _ _ _ _ Hp' _].
    + exists (seen ++ [t]). split.
      { rewrite Hinit, Hp, Hp', <- app_assoc. reflexivity. }
      intros x Hx. apply elem_of_app in Hx as [Hx|Hx]; [auto|].
      apply list_elem_of_singleton in Hx as ->.
      rewrite Hw. case_bool_decide as Hin.
      * destruct (sink_memory _ _ _ Hbs t Hin) as [Hl | (i & wk & Hwk & Htg & _)];
          [now left|]. right. eauto.
      * right. exists (length (workers st)), {| target := t; at_ := None |}.
        split; [|reflexivity]. apply list_lookup_middle. reflexivity.
    + exists seen. rewrite Hp'. auto.
    + exists seen. rewrite Hp'. auto.
  - exact Hkeep'.
  - exact Hmark'.
  - intros l Hl. destruct (moved_checkpoint _ _ _ Hm) as [E | [E | E]].
    + assert (Hl0 : checkpoint (mem st) = Holds l) by congruence.
      destruct (Hsaved l Hl0) as [Hl1 Hl2]. split; [exact Hl1|].
      intros i wk' v Hwk Hat.
      destruct (moved_at _ _ _ _ _ _ Hm Hwk Hat)
        as [(wk & Hold & Htg & Hoat)
           | [(wk & _ & _ & _ & Habs & _) | (wk & p & evs & Hold & Htg & Hoat & Hstep & Htr2)]].
      * destruct (Hl2 i wk v Hold Hoat) as [He|Hin].
        -- left. rewrite Htr. apply elem_of_app. left. exact He.
        -- right. rewrite <- Htg. exact Hin.
      * start_absurd Habs.
      * destruct (local_step_arrives _ _ _ _ _ _ _ _ Hstep)
          as [He | (a & res & -> & [Hck|Hck])].
        -- left. rewrite Htr2. apply elem_of_app. right. exact He.
        -- right. rewrite Hck in Hl. injection Hl as <-.
           specialize (Hmark i wk _ Hold Hoat). simpl in Hmark.
           rewrite <- Htg. exact Hmark.
        -- congruence.
    + congruence.
    + rewrite E in Hl. injection Hl as <-. split; [exact Hkeep'|].
      intros i wk v Hwk Hat. apply (Hmark' i wk (Returned v) Hwk Hat).
  - intros Hmiss. destruct (moved_checkpoint _ _ _ Hm) as [E | [E | E]];
      try congruence.
    assert (Hmiss0 : checkpoint (mem st) = Missing) by congruence.
    destruct (Hunsaved Hmiss0) as [Hl0 Hall]. split; [exact Hl0|].
    intros i wk' v Hwk Hat.
    destruct (moved_at _ _ _ _ _ _ Hm Hwk Hat)
      as [(wk & Hold & Htg & Hoat)
         | [(wk & _ & _ & _ & Habs & _) | (wk & p & evs & Hold & Htg & Hoat & Hstep & Htr2)]].
    + rewrite Htr. apply elem_of_app. left. eapply Hall; eauto.
    + start_absurd Habs.
    + destruct (local_step_arrives _ _ _ _ _ _ _ _ Hstep)
        as [He | (a & res & -> & [Hck|Hck])].
      * rewrite Htr2. apply elem_of_app. right. exact He.
      * congruence.
      * congruence.
Qed.

Lemma progress_boot d st0 msgs :
  boot d = Ok (st0, msgs) ->
  progress (pending st0) (completed_targets (mem st0)) st0.
Proof.
  intros Hb. apply boot_state in Hb as (Hw & _ & _ & Hck & Hload).
  split.
  - exists []. split; [reflexivity|]. intros t Ht. inversion Ht.
  - auto.
  - intros i wk p Hwk. rewrite Hw in Hwk. discriminate Hwk.
  - intros l Hl. rewrite Hck in Hl.
    rewrite (load_state_holds d l _ Hl Hload). split; [auto|].
    intros i wk v Hwk. rewrite Hw in Hwk. discriminate Hwk.
  - intros Hmiss. rewrite Hck in Hmiss. split.
    + apply (load_state_missing d _ Hmiss Hload).
    + intros i wk v Hwk. rewrite Hw in Hwk. discriminate Hwk.
Qed.

Lemma progress_run w d st0 msgs sched st :
  boot d = Ok (st0, msgs) -> run w sched st0 = Some st ->
  behind_sink w (completed_targets (mem st0)) st /\
  progress (pending st0) (completed_targets (mem st0)) st.
Proof.
  intros Hb Hrun.
  apply (run_preserves w
           (fun s => behind_sink w (completed_targets (mem st0)) s /\
                     progress (pending st0) (completed_targets (mem st0)) s)
           (fun s s' Hm H => conj (behind_sink_moved w _ s s' Hm (proj1 H))
                                  (progress_moved w _ _ s s' Hm (proj1 H) (proj2 H)))
           sched st0 st Hrun).
  split; [eapply behind_sink_boot | eapply progress_boot]; exact Hb.
Qed.

End PoolProgress.

Section ScannerResume.

Import Scanner ScannerInv.

Lemma boot_inv d st0 msgs :
  boot d = Ok (st0, msgs) ->
  exists data items ts loaded,
    load_data d = Ok data /\ iterate data = Ok items /\
    build_targets items = Ok ts /\ load_state d = Ok loaded /\
    msgs = snd ts /\
    st0 = {| workers := []; pending := fst ts;
             mem := {| completed_targets := loaded; csv := init_csv d;
                       checkpoint := state_json d |};
             trace := [] |}.
Proof.
  unfold boot. destruct (load_data d) as [data|] eqn:E1; [|discriminate]. simpl.
  destruct (iterate data) as [items|] eqn:E2; [|discriminate]. simpl.
  destruct (build_targets items) as [ts|] eqn:E3; [|discriminate]. simpl.
  destruct (load_state d) as [loaded|] eqn:E4; [|discriminate]. simpl.
  intros [= <- <-]. exists data, items, ts, loaded. repeat split; assumption.
Qed.

(** With every target already in [completed_targets] and no future, the
    pool never gets a future. *)
Lemma idle_run w sched :
  forall st st',
    workers st = [] ->
    (forall t, t ∈ pending st -> t ∈ completed_targets (mem st)) ->
    run w sched st = Some st' ->
    workers st' = [] /\ trace st' = trace st /\ mem st' = mem st.
Proof.
  induction sched as [|a sched IH]; intros st st' Hw Hall Hrun.
  - injection Hrun as <-. auto.
  - simpl in Hrun. destruct a as [|i]; simpl in Hrun.
    + unfold submit_step in Hrun. destruct (pending st) as [|t rest] eqn:Hp;
        [discriminate|]. simpl in Hrun.
      rewrite bool_decide_eq_true_2 in Hrun by (apply Hall; left).
      apply IH in Hrun; simpl; [exact Hrun | exact Hw |].
      intros x Hx. apply Hall. now right.
    + unfold worker_step in Hrun. rewrite Hw in Hrun. discriminate Hrun.
Qed.

Lemma finished_returned st i wk :
  finished st = true -> workers st !! i = Some wk ->
  pending st = [] /\
  ((exists v, at_ wk = Some (Returned v)) \/ exists e, at_ wk = Some (Raised e)).
Proof.
  unfold finished. destruct (pending st); [|discriminate].
  intros Hall Hwk. split; [reflexivity|].
  rewrite forallb_forall in Hall.
  specialize (Hall wk). rewrite <- list_elem_of_In in Hall.
  assert (Hin : wk ∈ workers st) by (apply list_elem_of_lookup; eauto).
  specialize (Hall Hin). destruct (at_ wk) as [[]|]; try discriminate; eauto.
Qed.

(** After a run of the scanner that completed with no future giving up
    and none ended by [nmap.PortScanner()], a second run on the files it
    left scans nothing and leaves the CSV file as it is. *)
Lemma scanner_idempotent_resume w1 w2 s1 s2 d r1 r2 :
  script w1 s1 d = Some r1 ->
  ended r1 = Completed ->
  (forall i, EvExhausted i ∉ events r1) ->
  (forall i, EvRaised i ∉ events r1) ->
  script w2 s2 (on_disk r1) = Some r2 ->
  List.filter is_scan (events r2) = [] /\
  results_csv (on_disk r2) = results_csv (on_disk r1).
Proof.
  unfold script at 1. destruct (boot d) as [[st0 msgs]|e] eqn:Hb;
    [|intros [= <-]; discriminate].
  destruct (run w1 s1 st0) as [st1|] eqn:Hrun; [|discriminate]. simpl.
  intros [= <-]. simpl. destruct (finished st1) eqn:Hfin; [|discriminate].
  intros _ Hnone Hlive.
  destruct (progress_run w1 d st0 msgs s1 st1 Hb Hrun)
    as [_ [(seen & Hinit & Hseen) _ Hmarked Hsaved Hunsaved]].
  destruct (boot_inv d st0 msgs Hb)
    as (data & items & ts & loaded & Hdata & Hitems & Hts & Hload & _ & Hst0).
  assert (Hseen_all : pending st1 = [] /\
            forall t, t ∈ pending st0 ->
              t ∈ completed_targets (mem st0) \/
              exists i wk v, workers st1 !! i = Some wk /\ target wk = t /\
                             at_ wk = Some (Returned v)).
  { assert (Hp : pending st1 = []).
    { unfold finished in Hfin. destruct (pending st1); [reflexivity | discriminate Hfin]. }
    split; [exact Hp|]. intros t Ht. rewrite Hinit, Hp, app_nil_r in Ht.
    destruct (Hseen t Ht) as [Hl | (i & wk & Hwk & Htg)]; [now left|].
    right. destruct (finished_returned st1 i wk Hfin Hwk) as [_ [[v Hv]|[e He]]].
    - exists i, wk, v. auto.
    - exfalso. apply (Hlive i). exact (Hmarked i wk (Raised e) Hwk He). }
  destruct Hseen_all as [_ Hall].
  unfold script. unfold boot.
  change (load_data (disk_after d st1)) with (load_data d). rewrite Hdata. simpl.
  rewrite Hitems. simpl. rewrite Hts. simpl.
  unfold load_state at 1. cbn [disk_after state_json].
  destruct (checkpoint (mem st1)) as [| |l] eqn:Hck; simpl.
  - (* no state.json: the first run had no target *)
    destruct (Hunsaved eq_refl) as [Hl0 Hex].
    intros Hr2. destruct (run w2 s2 _) as [st2|] eqn:Hrun2; [|discriminate].
    simpl in Hr2. injection Hr2 as <-. simpl.
    apply idle_run in Hrun2 as (Hw2 & Htr2 & Hmem2); simpl; [| reflexivity |].
    + rewrite Htr2, Hmem2. simpl. auto.
    + intros t Ht. exfalso.
      assert (Ht0 : t ∈ pending st0) by (rewrite Hst0; exact Ht).
      destruct (Hall t Ht0) as [Hl | (i & wk & v & Hwk & _ & Hat)].
      * rewrite Hl0 in Hl. inversion Hl.
      * apply (Hnone i). eapply Hex; eauto.
  - (* state.json is undecodable: the second run dies reading it *)
    intros [= <-]. simpl. auto.
  - (* state.json holds every target *)
    destruct (Hsaved l eq_refl) as [Hl1 Hl2].
    intros Hr2. destruct (run w2 s2 _) as [st2|] eqn:Hrun2; [|discriminate].
    simpl in Hr2. injection Hr2 as <-. simpl.
    apply idle_run in Hrun2 as (Hw2 & Htr2 & Hmem2); simpl; [| reflexivity |].
    + rewrite Htr2, Hmem2. simpl. auto.
    + intros t Ht.
      assert (Ht0 : t ∈ pending st0) by (rewrite Hst0; exact Ht).
      destruct (Hall t Ht0) as [Hl | (i & wk & v & Hwk & Htg & Hat)].
      * auto.
      * destruct (Hl2 i wk v Hwk Hat) as [He|Hin]; [|congruence].
        exfalso. exact (Hnone i He).
Qed.

End ScannerResume.

(** ** 3. ollama-model-list.py: [fetch_ollama_info] *)

Section FetchInfo.

Import ModelList.

Lemma get_raises_exception v k e : get v k = Raise e -> is_Exception e = true.
Proof. destruct v; simpl; intros [= <-]; reflexivity. Qed.

Lemma get_default_raises_exception v k dflt e :
  get_default v k dflt = Raise e -> is_Exception e = true.
Proof. destruct v; simpl; intros [= <-]; reflexivity. Qed.

Lemma iterate_raises_exception v e : iterate v = Raise e -> is_Exception e = true.
Proof. destruct v; simpl; intros [= <-]; reflexivity. Qed.

Lemma model_names_raises_exception ms e :
  model_names ms = Raise e -> is_Exception e = true.
Proof.
  induction ms as [|m ms IH]; simpl; [discriminate|].
  destruct (get m "name") as [c|e1] eqn:Hg; simpl.
  - destruct (truthy c); [|exact IH].
    destruct (model_names ms) as [names|e2]; simpl; [discriminate|].
    intros [= <-]. apply IH. reflexivity.
  - intros [= <-]. eapply get_raises_exception. exact Hg.
Qed.

Lemma raise_for_status_raises_exception url code reason e :
  raise_for_status url code reason = Raise e -> is_Exception e = true.
Proof.
  unfold raise_for_status.
  destruct ((400 <=? code) && (code <? 500)); [intros [= <-]; reflexivity|].
  destruct ((500 <=? code) && (code <? 600)); [intros [= <-]; reflexivity|].
  discriminate.
Qed.

(** Whatever the body of the [try] raises is caught by [except
    Exception]. *)
Lemma fetch_models_raises_exception net base_url timeout e :
  fetch_models net base_url timeout = Raise e -> is_Exception e = true.
Proof.
  unfold fetch_models.
  destruct (net (base_url +:+ "/api/tags") timeout) as [msg|code reason text body].
  - intros [= <-]. reflexivity.
  - destruct (raise_for_status _ code reason) as [[]|e1] eqn:Hr; simpl.
    2:{ intros [= <-]. eapply raise_for_status_raises_exception. exact Hr. }
    destruct body as [tags|]; simpl; [|intros [= <-]; reflexivity].
    destruct (get_default tags "models" (JArr [])) as [models|e2] eqn:Hm; simpl.
    2:{ intros [= <-]. eapply get_default_raises_exception. exact Hm. }
    destruct (iterate models) as [ms|e3] eqn:Hi; simpl.
    2:{ intros [= <-]. eapply iterate_raises_exception. exact Hi. }
    apply model_names_raises_exception.
Qed.

End FetchInfo.

(** C9. For every host string, timeout and network, [fetch_ollama_info]
    returns (it raises nothing) a dictionary whose keys are exactly [host],
    [status], [models], [runtime] and [error]; its status is ["ok"] or
    ["error"], and it is ["error"] exactly when the error field is not
    [None]. *)
Theorem fetch_ollama_info_total
    (net : ModelList.network) (host : string) (timeout : Z) :
  exists r : gmap string json,
    ModelList.fetch_ollama_info net host timeout = Ok r /\
    dom r = ({["host"; "status"; "models"; "runtime"; "error"]} : gset string) /\
    r !! "host"%string = Some (JStr host) /\
    (r !! "status"%string = Some (JStr "ok") /\ r !! "error"%string = Some JNull \/
     r !! "status"%string = Some (JStr "error") /\
     exists msg, r !! "error"%string = Some (JStr msg)) /\
    (r !! "status"%string = Some (JStr "error") <-> r !! "error"%string <> Some JNull).
Proof.
  unfold ModelList.fetch_ollama_info.
  destruct (ModelList.fetch_models net (ModelList.base_url_of host) timeout)
    as [names|e] eqn:Hf.
  - eexists. split; [reflexivity|]. split.
    { vm_compute. reflexivity. }
    split; [reflexivity|]. split.
    { left. split; reflexivity. }
    split; [discriminate | intros H; exfalso; apply H; reflexivity].
  - rewrite (fetch_models_raises_exception _ _ _ _ Hf).
    eexists. split; [reflexivity|]. split.
    { vm_compute. reflexivity. }
    split; [reflexivity|]. split.
    { right. split; [reflexivity|]. eexists. reflexivity. }
    split; [discriminate | reflexivity].
Qed.

(* ===================================================================== *)
(** * The pipeline properties *)
(* ===================================================================== *)

(** C1 (as the code has it).  In scanner.py, at every point of a run, a key
    that state.json holds and that the run did not find there is the target
    of a worker one of whose scans returned and has the row of every
    interesting host in the CSV file: the checkpoint is never ahead of the
    sink.  In 2.ollama-checker.py the sink ollama.csv is written once, after
    the loop; what holds there is that state.json, after any number of
    statements of the [try] block, is as the run found it or holds the keys
    of the first [k] units handed back together with the rows of those among
    these [k] that answered: key and outcome are saved in one file, in one
    write. *)
Theorem checkpoint_never_ahead_of_sink :
  (forall (w : Scanner.world) (d : Scanner.disk) (st0 st : Scanner.state)
          (msgs : list string) (sched : list Scanner.actor)
          (l : list string) (t : string),
     Scanner.boot d = Ok (st0, msgs) ->
     Scanner.run w sched st0 = Some st ->
     Scanner.checkpoint (Scanner.mem st) = Holds l ->
     t ∈ l ->
     t ∉ Scanner.completed_targets (Scanner.mem st0) ->
     exists i wk a res,
       Scanner.workers st !! i = Some wk /\ Scanner.target wk = t /\
       Scanner.scan_outcome w i a = Some res /\
       Scanner.rows_written res (Scanner.csv (Scanner.mem st))) /\
  (forall (w : Checker.world) (d : Checker.disk) (rows : list Checker.unit_) (n : nat),
     let state := Checker.loaded d in
     let rs := Checker.completions w (Checker.dispatched state rows) in
     let v := Checker.exec (take n (Checker.script w state rows)) (Checker.start d) in
     Checker.nmap_csv (Checker.files v) = Checker.nmap_csv d /\
     (Checker.state_json (Checker.files v) = Checker.state_json d \/
      exists k, Checker.state_json (Checker.files v) =
                Holds (Checker.snapshot state (take k rs)))).
Proof.
  split.
  - intros w d st0 st msgs sched l t. apply scanner_checkpoint_behind_sink.
  - intros w d rows n. exact (checker_prefix w d rows n).
Qed.

Lemma checkpoint_never_ahead_of_sink_witness :
  exists st0 msgs st,
    Scanner.boot fresh_disk = Ok (st0, msgs) /\
    Scanner.run live_world (one_worker 5) st0 = Some st /\
    Scanner.checkpoint (Scanner.mem st) = Holds [the_target] /\
    exists i wk a res,
      Scanner.workers st !! i = Some wk /\ Scanner.target wk = the_target /\
      Scanner.scan_outcome live_world i a = Some res /\
      Scanner.rows_written res (Scanner.csv (Scanner.mem st)).
Proof.
  do 3 eexists. split; [vm_compute; reflexivity|].
  split; [vm_compute; reflexivity|]. split; [vm_compute; reflexivity|].
  eapply (proj1 checkpoint_never_ahead_of_sink live_world fresh_disk
            _ _ _ (one_worker 5)).
  - vm_compute; reflexivity.
  - vm_compute; reflexivity.
  - vm_compute; reflexivity.
  - apply list_elem_of_singleton. reflexivity.
  - apply not_elem_of_nil.
Defined.

(** C1 (as stated) fails in 2.ollama-checker.py: with one host that
    answers, once the sixth statement of the [try] block has run the key of
    the host is in state.json and ollama.csv does not exist yet. *)
Lemma checker_checkpoint_ahead_of_csv :
  let v := Checker.exec
             (take 6 (Checker.script answering (Checker.loaded checker_disk) one_host))
             (Checker.start checker_disk) in
  snd (Checker.check_ollama_host answering "10.0.0.5" "11434") = true /\
  (exists s, Checker.state_json (Checker.files v) = Holds s /\
             Checker.key ("10.0.0.5", "11434")%string ∈ Checker.checked_keys s) /\
  Checker.ollama_csv (Checker.files v) = None.
Proof.
  split; [vm_compute; reflexivity|]. split; [|vm_compute; reflexivity].
  eexists. split; [vm_compute; reflexivity|].
  apply (bool_decide_unpack _). vm_compute. exact I.
Qed.

(** C6 (as the code has it).  [load_state] of 2.ollama-checker.py raises
    nothing, whatever the file: it returns what state.json holds, and the
    empty state both when the file is absent and when it cannot be read.
    The load at the top of scanner.py returns the empty list when state.json
    is absent, what it holds when it can be read, and raises when the file
    is there and cannot be read; that exception leaves the script. *)
Theorem load_state_outcomes :
  (forall d : Checker.disk,
     Checker.load_state d =
     Ok (match Checker.state_json d with
         | Holds s => s
         | Missing | Unreadable => Checker.empty_state
         end)) /\
  (forall d : Scanner.disk,
     Scanner.load_state d =
     match Scanner.state_json d with
     | Missing => Ok []
     | Holds l => Ok l
     | Unreadable => Raise (ValueError ("cannot decode " +:+ Scanner.STATE_FILE))
     end) /\
  (forall (d : Scanner.disk) (w : Scanner.world) (sched : list Scanner.actor),
     Scanner.state_json d = Unreadable ->
     exists e, Scanner.script w sched d =
               Some {| Scanner.ended := Scanner.Died e; Scanner.on_disk := d;
                       Scanner.events := [] |}).
Proof.
  split; [|split].
  - intros d. unfold Checker.load_state. destruct (Checker.state_json d); reflexivity.
  - intros d. unfold Scanner.load_state. destruct (Scanner.state_json d); reflexivity.
  - intros d w sched Hstate.
    unfold Scanner.script, Scanner.boot.
    destruct (Scanner.load_data d) as [v|e]; [|eauto]. simpl.
    destruct (iterate v) as [items|e]; [|eauto]. simpl.
    destruct (Scanner.build_targets items) as [ts|e]; [|eauto]. simpl.
    unfold Scanner.load_state. rewrite Hstate. simpl. eauto.
Qed.

Lemma load_state_outcomes_witness :
  exists e, Scanner.script live_world (one_worker 5) corrupt_checkpoint_disk =
            Some {| Scanner.ended := Scanner.Died e;
                    Scanner.on_disk := corrupt_checkpoint_disk;
                    Scanner.events := [] |}.
Proof.
  apply (proj2 (proj2 load_state_outcomes) corrupt_checkpoint_disk).
  vm_compute; reflexivity.
Defined.

(** C6 (as stated) fails in 2.ollama-checker.py: with a state file that is
    there and cannot be read, [load_state] raises nothing and returns the
    empty state. *)
Lemma load_state_swallows_corruption :
  Checker.state_json corrupt_state_disk = Unreadable /\
  Checker.load_state corrupt_state_disk = Ok Checker.empty_state /\
  raises (Checker.load_state corrupt_state_disk) = false.
Proof. repeat split. Qed.

Section SinkPolicy.

Import Checker.

Lemma iteration_hosts total to_check r v n :
  ollama_hosts (exec (take n (iteration total to_check r)) v) =
  ollama_hosts v ++ (if (2 <=? n)%nat then (if snd r then [fst r] else []) else []).
Proof.
  assert (Hsave : forall u, ollama_hosts (save_if_due to_check u) = ollama_hosts u).
  { intros u. unfold save_if_due.
    destruct ((checked u mod 10 =? 0) || (checked u =? to_check)); reflexivity. }
  destruct n as [|[|[|[|n]]]]; unfold exec; cbn [take iteration fold_left];
    rewrite ?take_nil; cbn [fold_left Nat.leb]; rewrite ?Hsave;
    unfold record_found; destruct (snd r); simpl; rewrite ?app_nil_r; reflexivity.
Qed.

(** Any number of statements into the loop, the rows found are those of
    the checkpoint followed by the positive units among the first [k]
    handed back, for some [k]. *)
Lemma loop_hosts_prefix state total to_check rs rest :
  forall done v n,
    rs = done ++ rest ->
    at_boundary state done v ->
    exists k,
      ollama_hosts (exec (take n (concat (map (iteration total to_check) rest))) v) =
      found_rows (snapshot state (take k rs)).
Proof.
  induction rest as [|r rest IH]; intros done v n Hrs Hb.
  - exists (length done). simpl. rewrite take_nil. simpl.
    rewrite Hrs, take_app_length. apply Hb.
  - cbn [map concat]. destruct (decide (n <= 3)%nat) as [Hn|Hn].
    + rewrite take_app_le by (simpl; lia). rewrite iteration_hosts.
      destruct (2 <=? n)%nat.
      * exists (length (done ++ [r])).
        replace rs with ((done ++ [r]) ++ rest)
          by (rewrite Hrs, <- app_assoc; reflexivity).
        rewrite take_app_length.
        destruct (snapshot_snoc state done r) as [_ ->].
        destruct Hb as [_ ->]. reflexivity.
      * exists (length done). rewrite Hrs, take_app_length, app_nil_r. apply Hb.
    + rewrite take_app_ge by (simpl; lia). rewrite exec_app.
      apply (IH (done ++ [r])).
      * rewrite Hrs, <- app_assoc. reflexivity.
      * apply (iteration_whole total to_check r state done v Hb).
Qed.

Lemma rewrite_results_hosts total v :
  ollama_hosts (rewrite_results total v) = ollama_hosts v.
Proof.
  unfold rewrite_results. destruct (ollama_hosts v) eqn:E; simpl; rewrite ?E; reflexivity.
Qed.

(** At every point of the [try] block, and after the interrupt handler
    too, the rows found are those of the checkpoint followed by the positive
    units among the first [k] handed back, for some [k]. *)
Lemma checker_hosts_prefix w d rows n :
  exists k,
    ollama_hosts (exec (take n (script w (loaded d) rows)) (start d)) =
    found_rows (snapshot (loaded d)
                  (take k (completions w (dispatched (loaded d) rows)))).
Proof.
  set (state := loaded d).
  destruct (dispatched state rows) as [|u us] eqn:Hd.
  - exists 0%nat. rewrite (script_complete w state rows Hd). unfold report_complete.
    rewrite take_0. unfold snapshot. cbn [found_rows List.filter map].
    rewrite app_nil_r.
    destruct n as [|[|n]]; unfold exec; cbn [take fold_left];
      rewrite ?take_nil; cbn [fold_left]; rewrite ?rewrite_results_hosts; reflexivity.
  - destruct (script_resuming w state rows u us Hd)
      as (s1 & s2 & total & to_check & -> & H1 & H2).
    rewrite Hd.
    set (rs := completions w (u :: us)).
    set (loop := concat (map (iteration total to_check) rs)).
    destruct (H2 (s1 (start d))) as (F2 & C2 & O2).
    destruct (H1 (start d)) as (F1 & C1 & O1).
    destruct (start_boundary d) as [Hc Hf].
    assert (Hb2 : at_boundary state [] (s2 (s1 (start d)))).
    { unfold at_boundary. rewrite C2, C1, O2, O1. split; assumption. }
    destruct (decide (n <= 2)%nat) as [Hn|Hn].
    + exists 0%nat. rewrite take_0. rewrite take_app_le by (simpl; lia).
      destruct n as [|[|[|n]]]; try lia; unfold exec; cbn [take fold_left];
        rewrite ?O2, ?O1; exact Hf.
    + rewrite take_app_ge by (simpl; lia). rewrite exec_app. simpl length.
      change (exec [s1; s2] (start d)) with (s2 (s1 (start d))).
      destruct (decide (n - 2 <= length loop)%nat) as [Hm|Hm].
      * rewrite take_app_le by exact Hm.
        apply (loop_hosts_prefix state total to_check rs rs [] _ (n - 2) eq_refl Hb2).
      * rewrite take_app_ge by lia. rewrite exec_app.
        pose proof (loop_whole state total to_check rs [] _ Hb2) as [_ Hf3].
        simpl app in Hf3. fold loop in Hf3.
        exists (length rs). rewrite (take_ge rs (length rs)) by lia. rewrite <- Hf3.
        set (v3 := exec loop (s2 (s1 (start d)))).
        destruct (write_results_files total (say (Print LF) v3)) as (_ & _ & _ & E4).
        destruct (n - 2 - length loop)%nat as [|[|[|m]]]; unfold exec;
          cbn [take fold_left]; rewrite ?take_nil; cbn [fold_left];
          cbn [save_state ollama_hosts]; rewrite ?E4; reflexivity.
Qed.

Lemma checker_found_at_any_stop w stop d rows :
  nmap_csv d = Holds rows ->
  exists k,
    ollama_hosts (final (main w stop d)) =
    found_rows (loaded d) ++
    map fst (List.filter snd
               (take k (completions w (dispatched (loaded d) rows)))).
Proof.
  intros Hrows. rewrite (main_reads w stop d rows Hrows). cbv zeta.
  assert (Hfull : exists k,
            ollama_hosts (exec (script w (loaded d) rows) (start d)) =
            found_rows (snapshot (loaded d)
                          (take k (completions w (dispatched (loaded d) rows))))).
  { destruct (checker_hosts_prefix w d rows (length (script w (loaded d) rows)))
      as [k Hk]. rewrite take_ge in Hk by lia. eauto. }
  destruct stop as [n|]; [|exact Hfull].
  destruct (n <? length (script w (loaded d) rows))%nat; [|exact Hfull].
  cbn [final]. apply (checker_hosts_prefix w d rows n).
Qed.

Lemma check_refused w host port msg :
  net w ("http://" +:+ host +:+ ":" +:+ port) = Refused msg ->
  check_ollama_host w host port = (host, port, false).
Proof. unfold check_ollama_host. intros ->. reflexivity. Qed.

Lemma check_answer w host port code text :
  net w ("http://" +:+ host +:+ ":" +:+ port) = Answer code text ->
  check_ollama_host w host port =
  (host, port, contains "Ollama is running" text || (code =? 200)).
Proof.
  unfold check_ollama_host. intros ->.
  destruct (contains _ text); [reflexivity|]. destruct (code =? 200); reflexivity.
Qed.

(** After a whole run the rows found are those the checkpoint held, then
    the units that answered, in the order they were handed back; ollama.csv
    is rewritten from these rows when there is one. *)
Lemma checker_found_rows w d rows :
  fair w ->
  nmap_csv d = Holds rows ->
  let rs := completions w (dispatched (loaded d) rows) in
  let v := final (main w None d) in
  ollama_hosts v = found_rows (loaded d) ++ map fst (List.filter snd rs) /\
  ollama_csv (files v) = reported_csv (ollama_hosts v) (ollama_csv d).
Proof.
  intros Hfair Hrows. cbv zeta. rewrite (main_reads w None d rows Hrows).
  cbv zeta. cbn [final].
  destruct (dispatched (loaded d) rows) as [|u us] eqn:Hd.
  - assert (Hrs : completions w [] = []).
    { unfold completions.
      rewrite (Permutation.Permutation_nil (Permutation.Permutation_sym (Hfair []))).
      reflexivity. }
    rewrite Hrs. simpl. rewrite app_nil_r.
    destruct (exec_complete w d rows Hd) as (_ & _ & E).
    assert (Hh : ollama_hosts (exec (script w (loaded d) rows) (start d))
                 = found_rows (loaded d)).
    { rewrite (script_complete w _ rows Hd). unfold report_complete, exec.
      cbn [fold_left]. unfold rewrite_results.
      destruct (ollama_hosts (announce_complete _ (start d))) eqn:E1; simpl;
        simpl in E1; rewrite ?E1; reflexivity. }
    rewrite Hh. split; [reflexivity | exact E].
  - destruct (exec_resuming w d rows u us Hd) as (_ & _ & E3 & E4).
    rewrite Hd in E3, E4. rewrite E3. split; [reflexivity | exact E4].
Qed.

End SinkPolicy.

(** C8 (as the code has it).  2.ollama-checker.py: a run that reads its
    input and is not interrupted exits 0; when nmap_results.csv is not found
    it prints a line naming that path and exits 1, touching no file; a
    [KeyboardInterrupt] inside the [try] block makes it write the variables
    as they stand to the state file, print that re-running resumes, and exit
    0.  scanner.py: a run whose pool finishes exits 0; when data.json is not
    found it exits 1 with the text "Error reading the JSON file." on
    stderr. *)
Theorem exit_behaviour :
  (forall (w : Checker.world) (d : Checker.disk) (rows : list Checker.unit_),
     Checker.nmap_csv d = Holds rows ->
     Checker.exit_code (Checker.main w None d) = 0) /\
  (forall (w : Checker.world) (stop : option nat) (d : Checker.disk),
     Checker.nmap_csv d = Missing ->
     let out := Checker.main w stop d in
     Checker.exit_code out = 1 /\
     Checker.stdout (Checker.final out) =
       [Checker.Print ("Error: " +:+ Checker.NMAP_CSV +:+ " not found")] /\
     contains Checker.NMAP_CSV ("Error: " +:+ Checker.NMAP_CSV +:+ " not found") = true /\
     Checker.files (Checker.final out) = d) /\
  (forall (w : Checker.world) (n : nat) (d : Checker.disk) (rows : list Checker.unit_),
     Checker.nmap_csv d = Holds rows ->
     (n < length (Checker.script w (Checker.loaded d) rows))%nat ->
     let v := Checker.exec (take n (Checker.script w (Checker.loaded d) rows))
                           (Checker.start d) in
     let out := Checker.main w (Some n) d in
     Checker.exit_code out = 0 /\
     Checker.state_json (Checker.files (Checker.final out)) =
       Holds {| Checker.checked_keys := Checker.checked_set v;
                Checker.found_rows := Checker.ollama_hosts v |} /\
     Checker.stdout (Checker.final out) =
       Checker.stdout v ++
       [Checker.Print (LF +:+ LF +:+ "Scan paused. Progress saved to state.json");
        Checker.Print "Run the script again to resume from where you left off."]) /\
  (forall (w : Scanner.world) (sched : list Scanner.actor) (d : Scanner.disk)
          (st0 st : Scanner.state) (msgs : list string),
     Scanner.boot d = Ok (st0, msgs) ->
     Scanner.run w sched st0 = Some st ->
     Scanner.finished st = true ->
     exists r, Scanner.script w sched d = Some r /\
               Scanner.exit_of (Scanner.ended r) =
               Some {| Scanner.exit_code := 0; Scanner.stderr := "" |}) /\
  (forall (w : Scanner.world) (sched : list Scanner.actor) (d : Scanner.disk),
     Scanner.data_json d = Missing ->
     exists r, Scanner.script w sched d = Some r /\
               Scanner.exit_of (Scanner.ended r) =
               Some {| Scanner.exit_code := 1;
                       Scanner.stderr := "Error reading the JSON file." |} /\
               Scanner.on_disk r = d).
Proof.
  split; [|split; [|split; [|split]]].
  - intros w d rows Hrows. rewrite (main_reads w None d rows Hrows). reflexivity.
  - intros w stop d Hmiss. unfold Checker.main.
    rewrite (load_state_total d), Hmiss. simpl. repeat split.
  - intros w n d rows Hrows Hn. cbv zeta.
    rewrite (main_reads w (Some n) d rows Hrows). cbv zeta.
    apply Nat.ltb_lt in Hn. rewrite Hn. cbn [Checker.exit_code Checker.final].
    split; [reflexivity|]. split; [reflexivity|].
    unfold Checker.on_interrupt, Checker.say. cbn [Checker.stdout Checker.save_state].
    rewrite <- app_assoc. reflexivity.
  - intros w sched d st0 st msgs Hb Hrun Hfin. unfold Scanner.script.
    rewrite Hb, Hrun. simpl. rewrite Hfin. eexists. split; reflexivity.
  - intros w sched d Hmiss. unfold Scanner.script, Scanner.boot, Scanner.load_data.
    rewrite Hmiss. simpl. eexists. repeat split.
Qed.

Lemma exit_behaviour_witness :
  Checker.exit_code (Checker.main answering None checker_disk) = 0 /\
  (let out := Checker.main answering None no_input_disk in
   Checker.exit_code out = 1 /\
   Checker.stdout (Checker.final out) =
     [Checker.Print ("Error: " +:+ Checker.NMAP_CSV +:+ " not found")] /\
   contains Checker.NMAP_CSV ("Error: " +:+ Checker.NMAP_CSV +:+ " not found") = true /\
   Checker.files (Checker.final out) = no_input_disk) /\
  (let v := Checker.exec
              (take 4 (Checker.script answering (Checker.loaded checker_disk) one_host))
              (Checker.start checker_disk) in
   let out := Checker.main answering (Some 4%nat) checker_disk in
   Checker.exit_code out = 0 /\
   Checker.state_json (Checker.files (Checker.final out)) =
     Holds {| Checker.checked_keys := Checker.checked_set v;
              Checker.found_rows := Checker.ollama_hosts v |} /\
   Checker.stdout (Checker.final out) =
     Checker.stdout v ++
     [Checker.Print (LF +:+ LF +:+ "Scan paused. Progress saved to state.json");
      Checker.Print "Run the script again to resume from where you left off."]) /\
  (exists r, Scanner.script live_world (one_worker 5) fresh_disk = Some r /\
             Scanner.exit_of (Scanner.ended r) =
             Some {| Scanner.exit_code := 0; Scanner.stderr := "" |}) /\
  (exists r, Scanner.script live_world [] no_data_disk = Some r /\
             Scanner.exit_of (Scanner.ended r) =
             Some {| Scanner.exit_code := 1;
                     Scanner.stderr := "Error reading the JSON file." |} /\
             Scanner.on_disk r = no_data_disk).
Proof.
  split; [|split; [|split; [|split]]].
  - apply (proj1 exit_behaviour answering checker_disk one_host). reflexivity.
  - apply (proj1 (proj2 exit_behaviour) answering None no_input_disk). reflexivity.
  - apply (proj1 (proj2 (proj2 exit_behaviour)) answering 4%nat checker_disk one_host).
    + vm_compute; reflexivity.
    + vm_compute. lia.
  - eapply (proj1 (proj2 (proj2 (proj2 exit_behaviour)))
              live_world (one_worker 5) fresh_disk).
    + vm_compute; reflexivity.
    + vm_compute; reflexivity.
    + vm_compute; reflexivity.
  - apply (proj2 (proj2 (proj2 (proj2 exit_behaviour))) live_world [] no_data_disk).
    vm_compute; reflexivity.
Defined.

(** C8 (as stated) fails in scanner.py: when data.json is not found the
    script exits 1 with a text that does not name the file. *)
Lemma scanner_missing_input_not_named :
  exists r msg,
    Scanner.script live_world [] no_data_disk = Some r /\
    Scanner.exit_of (Scanner.ended r) =
      Some {| Scanner.exit_code := 1; Scanner.stderr := msg |} /\
    contains Scanner.DATA_FILE msg = false.
Proof.
  do 2 eexists.
  split; [vm_compute; reflexivity|]. split; vm_compute; reflexivity.
Qed.


(** An interrupt that lands between [checked_set.add] and
    [ollama_hosts.append] makes the handler save the key without the row:
    the host answered, its key is in the state file, its row is not. *)
Example interrupt_between_mark_and_record :
  let out := Checker.main answering (Some 3%nat) checker_disk in
  Checker.exit_code out = 0 /\
  exists s, Checker.state_json (Checker.files (Checker.final out)) = Holds s /\
            Checker.key ("10.0.0.5", "11434")%string ∈ Checker.checked_keys s /\
            Checker.found_rows s = [].
Proof.
  split; [vm_compute; reflexivity|].
  eexists. split; [vm_compute; reflexivity|]. split; [|vm_compute; reflexivity].
  apply (bool_decide_unpack _). vm_compute. exact I.
Qed.

(* ===================================================================== *)
(** * Further properties *)
(* ===================================================================== *)

(** ** scanner.py: from data.json to the list of targets *)

Section Targets.

Import Scanner TargetSpec.

Lemma int_of_str_raises s e : int_of_str s = Raise e -> exists m, e = ValueError m.
Proof.
  unfold int_of_str. destruct (_ ≫= NilZero.uint_of_string); [discriminate|].
  intros [= <-]. eauto.
Qed.

Lemma map_result_raises {A B} (f : A -> result B) xs e :
  map_result f xs = Raise e -> exists x, x ∈ xs /\ f x = Raise e.
Proof.
  induction xs as [|x xs IH]; simpl; [discriminate|].
  destruct (f x) as [y|e1] eqn:Hx; simpl.
  - destruct (map_result f xs) as [ys|e2]; simpl; [discriminate|].
    intros [= <-]. destruct (IH eq_refl) as (x' & Hin & Hx').
    exists x'. split; [now right | exact Hx'].
  - intros [= <-]. exists x. split; [left | exact Hx].
Qed.

Lemma map_result_Ok {A B} (f : A -> result B) xs ys :
  map_result f xs = Ok ys <-> Forall2 (fun x y => f x = Ok y) xs ys.
Proof.
  revert ys. induction xs as [|x xs IH]; intros ys; simpl.
  - split; [intros [= <-]; constructor | intros H; inversion H; reflexivity].
  - split.
    + destruct (f x) as [y|] eqn:Hx; simpl; [|discriminate].
      destruct (map_result f xs) as [ys'|] eqn:Hxs; simpl; [|discriminate].
      intros [= <-]. constructor; [exact Hx | now apply IH].
    + intros H. inversion H as [|x' y xs' ys' Hx Hrest]; subst.
      rewrite Hx. simpl. apply IH in Hrest. rewrite Hrest. reflexivity.
Qed.

Lemma split_ints_raises v e :
  split_ints v = Raise e ->
  (exists m, e = AttributeError m) \/ (exists m, e = ValueError m).
Proof.
  destruct v; simpl; try (intros [= <-]; left; eauto).
  intros H. apply map_result_raises in H as (x & _ & Hx).
  right. eapply int_of_str_raises. exact Hx.
Qed.

Lemma index_raises {A} (xs : list A) i e : index xs i = Raise e -> e = IndexError.
Proof. unfold index. destruct (xs !! i); [discriminate | congruence]. Qed.

Lemma to_nmap_range_raises start end_ e :
  to_nmap_range start end_ = Raise e -> range_error e.
Proof.
  unfold to_nmap_range.
  destruct (split_ints start) as [s|e1] eqn:Hs; simpl.
  2:{ intros [= <-]. apply split_ints_raises in Hs as [[m ->]|[m ->]]; exact I. }
  destruct (split_ints end_) as [e'|e1] eqn:He; simpl.
  2:{ intros [= <-]. apply split_ints_raises in He as [[m ->]|[m ->]]; exact I. }
  repeat match goal with
         | |- context [index ?l ?i] =>
             let H := fresh "Hi" in
             destruct (index l i) eqn:H; simpl;
             [| intros [= <-]; apply index_raises in H; rewrite H; exact I]
         end.
  discriminate.
Qed.

Lemma index_Ok {A} (xs : list A) i x : index xs i = Ok x <-> xs !! i = Some x.
Proof. unfold index. destruct (xs !! i); split; congruence. Qed.

Lemma to_nmap_range_Ok start end_ expr :
  to_nmap_range start end_ = Ok expr <->
  exists s0 s1 s2 s3 rs e0 e1 e2 e3 re,
    split_ints start = Ok (s0 :: s1 :: s2 :: s3 :: rs) /\
    split_ints end_ = Ok (e0 :: e1 :: e2 :: e3 :: re) /\
    expr = (str_of_int s0 +:+ "-" +:+ str_of_int e0 +:+ "." +:+
            str_of_int s1 +:+ "-" +:+ str_of_int e1 +:+ "." +:+
            str_of_int s2 +:+ "-" +:+ str_of_int e2 +:+ "." +:+
            str_of_int s3 +:+ "-" +:+ str_of_int e3).
Proof.
  unfold to_nmap_range. split.
  - destruct (split_ints start) as [s|] eqn:Hs; simpl; [|discriminate].
    destruct (split_ints end_) as [e|] eqn:He; simpl; [|discriminate].
    destruct s as [|s0 [|s1 [|s2 [|s3 rs]]]]; try discriminate;
      destruct e as [|e0 [|e1 [|e2 [|e3 re]]]]; try discriminate.
    intros [= <-]. exists s0, s1, s2, s3, rs, e0, e1, e2, e3, re. auto.
  - intros (s0 & s1 & s2 & s3 & rs & e0 & e1 & e2 & e3 & re & -> & -> & ->).
    reflexivity.
Qed.


Lemma map_result_total {A B} (f : A -> result B) xs :
  Forall (fun x => raises (f x) = false) xs ->
  exists ys, map_result f xs = Ok ys /\ length ys = length xs.
Proof.
  induction 1 as [|x xs Hx _ (ys & Hys & Hlen)]; simpl; [eauto|].
  destruct (f x) as [y|]; [|discriminate]. simpl. rewrite Hys. simpl.
  exists (y :: ys). simpl. auto.
Qed.

Lemma split_ints_Ok v l :
  split_ints v = Ok l ->
  exists a, v = JStr a /\
            Forall (fun f => raises (int_of_str f) = false) (split "." a) /\
            length l = length (split "." a).
Proof.
  destruct v; simpl; try discriminate. intros H. exists s. split; [reflexivity|].
  apply map_result_Ok in H. split.
  - clear -H. induction H as [|x y xs ys Hx _ IH]; constructor; [|exact IH].
    rewrite Hx. reflexivity.
  - symmetry. eapply Forall2_length. exact H.
Qed.

Lemma dotted_split_ints v :
  dotted v -> exists z0 z1 z2 z3 rest, split_ints v = Ok (z0 :: z1 :: z2 :: z3 :: rest).
Proof.
  intros (a & -> & Hall & Hlen). simpl.
  destruct (map_result_total int_of_str _ Hall) as (ys & -> & Hys).
  destruct ys as [|z0 [|z1 [|z2 [|z3 rest]]]]; simpl in Hys; try lia. eauto 6.
Qed.

Lemma getitem_raises v k e :
  getitem v k = Raise e -> e = KeyError k \/ exists m, e = TypeError m.
Proof.
  destruct v; simpl; try (intros [= <-]; right; eauto).
  destruct (assoc k members); [discriminate|]. intros [= <-]. now left.
Qed.

(** What one item of data.json becomes: a target, a line naming the key it
    lacks ('start' before 'end'), or the end of the script. *)
Lemma target_of_item_cases item :
  (exists m s e t, item = JObj m /\ assoc "start" m = Some s /\ assoc "end" m = Some e /\
                   to_nmap_range s e = Ok t /\ target_of_item item = Ok (Some t, [])) \/
  (exists m, item = JObj m /\ assoc "start" m = None /\
             target_of_item item = Ok (None, [missing_key "start"])) \/
  (exists m s, item = JObj m /\ assoc "start" m = Some s /\ assoc "end" m = None /\
               target_of_item item = Ok (None, [missing_key "end"])) \/
  (exists e, item_error e /\ target_of_item item = Raise e).
Proof.
  unfold target_of_item.
  destruct item as [| | | |l|m];
    try (right; right; right; eexists; split; [|reflexivity]; exact I).
  simpl. destruct (assoc "start" m) as [s|] eqn:Hs; simpl.
  2:{ right. left. exists m. auto. }
  destruct (assoc "end" m) as [e|] eqn:He; simpl.
  2:{ right. right. left. exists m, s. auto. }
  destruct (to_nmap_range s e) as [t|err] eqn:Ht.
  - left. exists m, s, e, t. auto.
  - right. right. right. exists err.
    pose proof (to_nmap_range_raises s e err Ht) as Hr.
    destruct err; try contradiction; split; try exact I; reflexivity.
Qed.

End Targets.

(** X1. The block that loads data.json has two outcomes only: it hands on
    a truthy value, or it exits with code 1 and the text "Error reading the
    JSON file.".  The exit "No data found in the JSON file." raised for an
    empty value sits inside the [try]: the bare [except:] catches it, so an
    empty list, object or string, [null], [false] and 0 are reported as a
    read error and that text is never shown. *)
Theorem load_data_has_one_error_text (d : Scanner.disk) :
  (exists data, Scanner.data_json d = Holds data /\ truthy data = true /\
                Scanner.load_data d = Ok data) \/
  ((Scanner.data_json d = Missing \/ Scanner.data_json d = Unreadable \/
    exists data, Scanner.data_json d = Holds data /\ truthy data = false) /\
   Scanner.load_data d = Raise (SystemExit 1 "Error reading the JSON file.") /\
   Scanner.load_data d <> Raise (SystemExit 1 "No data found in the JSON file.")).
Proof.
  unfold Scanner.load_data. destruct (Scanner.data_json d) as [| |data]; simpl.
  - right. split; [auto|]. split; [reflexivity | discriminate].
  - right. split; [auto|]. split; [reflexivity | discriminate].
  - destruct (truthy data) eqn:Ht; simpl.
    + left. exists data. auto.
    + right. split; [right; right; eauto|]. split; [reflexivity | discriminate].
Qed.

Section TargetList.

Import Scanner TargetSpec.

Lemma target_of_item_Ok_obj item r :
  target_of_item item = Ok r -> exists m, item = JObj m.
Proof.
  destruct (target_of_item_cases item)
    as [(m & s & e & t & -> & _) | [(m & -> & _) | [(m & s & -> & _) | (e & _ & H)]]];
    eauto.
  rewrite H. discriminate.
Qed.

Lemma build_targets_Ok_objs items r :
  build_targets items = Ok r -> Forall (fun item => exists m, item = JObj m) items.
Proof.
  revert r. induction items as [|item items IH]; intros r; simpl; [constructor|].
  destruct (target_of_item item) as [r1|] eqn:H1; simpl; [|discriminate].
  destruct (build_targets items) as [r2|] eqn:H2; simpl; [|discriminate].
  intros _. constructor; [eapply target_of_item_Ok_obj; exact H1 | eapply IH; reflexivity].
Qed.

Lemma build_targets_app a b :
  build_targets (a ++ b) =
  ra ← build_targets a; rb ← build_targets b;
  Ok (fst ra ++ fst rb, snd ra ++ snd rb).
Proof.
  induction a as [|x a IH]; simpl.
  - destruct (build_targets b) as [[ts msgs]|]; reflexivity.
  - destruct (target_of_item x) as [r|]; simpl; [|reflexivity].
    rewrite IH. destruct (build_targets a) as [ra|]; simpl; [|reflexivity].
    destruct (build_targets b) as [rb|]; simpl; [|reflexivity].
    rewrite !app_assoc. reflexivity.
Qed.

Lemma build_targets_pre pre :
  (forall x, x ∈ pre -> raises (target_of_item x) = false) ->
  exists r, build_targets pre = Ok r.
Proof.
  induction pre as [|x pre IH]; intros Hall; simpl; [eauto|].
  pose proof (Hall x ltac:(left)) as Hx.
  destruct (target_of_item x) as [r1|]; [|discriminate]. simpl.
  destruct IH as [r2 ->]; [intros y Hy; apply Hall; now right|]. simpl. eauto.
Qed.

Lemma load_data_has_data d data :
  load_data d = Ok data -> data_json d = Holds data /\ truthy data = true.
Proof.
  unfold load_data. destruct (data_json d) as [| |x]; simpl; try discriminate.
  destruct (truthy x) eqn:Ht; simpl; [|discriminate]. intros [= <-]. auto.
Qed.

End TargetList.

(** X2. The script gets past its start only when data.json holds a
    non-empty JSON array all of whose items are objects: a top-level object
    or string is iterated over its keys or characters, and indexing those
    with 'start' raises; a number or [true] cannot be iterated; anything
    falsy exits. *)
Theorem boot_needs_array_of_objects
    (d : Scanner.disk) (st0 : Scanner.state) (msgs : list string) :
  Scanner.boot d = Ok (st0, msgs) ->
  exists items,
    Scanner.data_json d = Holds (JArr items) /\ items <> [] /\
    Forall (fun item => exists m, item = JObj m) items.
Proof.
  intros Hb.
  destruct (boot_inv d st0 msgs Hb)
    as (data & items & ts & loaded & Hdata & Hitems & Hts & _).
  destruct (load_data_has_data d data Hdata) as [Hd Htruthy].
  pose proof (build_targets_Ok_objs items ts Hts) as Hobjs.
  destruct data as [| | |s|l|m]; simpl in Hitems; try discriminate;
    injection Hitems as <-.
  - (* a string: its characters are no objects *)
    destruct s as [|c s]; [discriminate Htruthy|].
    simpl in Hobjs. inversion Hobjs as [|? ? [m Hm] _]. discriminate Hm.
  - exists l. split; [exact Hd|]. split; [|exact Hobjs].
    intros ->. discriminate Htruthy.
  - (* an object: its keys are no objects *)
    destruct m as [|[k v] m]; [discriminate Htruthy|].
    simpl in Hobjs. inversion Hobjs as [|? ? [m' Hm] _]. discriminate Hm.
Qed.

Lemma boot_needs_array_of_objects_witness :
  exists items,
    Scanner.data_json Samples.fresh_disk = Holds (JArr items) /\ items <> [] /\
    Forall (fun item => exists m, item = JObj m) items.
Proof.
  eapply (boot_needs_array_of_objects Samples.fresh_disk).
  vm_compute. reflexivity.
Defined.

(** X3. When the loop that builds [targets] runs to its end, every item of
    data.json has become exactly one target or exactly one printed line, and
    each printed line is "Missing key in data item: 'start'" or the same
    with 'end': no item is dropped without a trace, and [to_nmap_range]
    itself never causes such a line. *)
Theorem build_targets_accounts_for_every_item
    (items : list json) (targets msgs : list string) :
  Scanner.build_targets items = Ok (targets, msgs) ->
  (length targets + length msgs = length items)%nat /\
  Forall (fun line => line = TargetSpec.missing_key "start" \/
                      line = TargetSpec.missing_key "end") msgs.
Proof.
  revert targets msgs.
  induction items as [|item items IH]; intros targets msgs; simpl.
  - intros [= <- <-]. split; [reflexivity | constructor].
  - destruct (Scanner.build_targets items) as [[ts ms]|] eqn:Hrest.
    2:{ destruct (Scanner.target_of_item item); discriminate. }
    destruct (IH ts ms eq_refl) as [Hlen Hall].
    destruct (target_of_item_cases item)
      as [(m & s & e & t & _ & _ & _ & _ & ->)
         | [(m & _ & _ & ->) | [(m & s & _ & _ & _ & ->) | (e & _ & ->)]]];
      simpl; try discriminate; intros [= <- <-]; simpl;
      (split; [lia|]); try exact Hall; constructor; auto.
Qed.

Lemma build_targets_accounts_for_every_item_witness :
  (length ["10-10.0-0.0-0.1-9"%string] +
   length [TargetSpec.missing_key "start"] =
   length [Inputs.complete_item; Inputs.item_without_start])%nat /\
  Forall (fun line => line = TargetSpec.missing_key "start" \/
                      line = TargetSpec.missing_key "end")
         [TargetSpec.missing_key "start"].
Proof.
  apply (build_targets_accounts_for_every_item
           [Inputs.complete_item; Inputs.item_without_start]).
  vm_compute. reflexivity.
Defined.

(** X4. An item that is an object lacking 'start' or 'end' is transparent
    to the target list: with or without it the loop yields the same targets,
    or stops with the same exception at the same later item; the item only
    adds one printed line.  This holds whatever its other key holds: the
    arguments are looked up before [to_nmap_range] runs, so a malformed
    'start' beside a missing 'end' goes unnoticed. *)
Theorem incomplete_item_is_skipped
    (pre post : list json) (m : list (string * json)) :
  assoc "start" m = None \/ assoc "end" m = None ->
  match Scanner.build_targets (pre ++ JObj m :: post),
        Scanner.build_targets (pre ++ post) with
  | Ok (ts, msgs), Ok (ts', msgs') =>
      ts = ts' /\ length msgs = S (length msgs')
  | Raise e, Raise e' => e = e'
  | _, _ => False
  end.
Proof.
  intros Hmiss.
  assert (Hitem : exists line, Scanner.target_of_item (JObj m) = Ok (None, [line])).
  { destruct (target_of_item_cases (JObj m))
      as [(m' & s & e & t & [= <-] & Hs & He & _)
         | [(m' & _ & _ & ->) | [(m' & s & _ & _ & _ & ->) | (e & He & Hr)]]]; eauto.
    - destruct Hmiss; congruence.
    - exfalso. unfold Scanner.target_of_item in Hr. simpl in Hr.
      destruct Hmiss as [H|H].
      + rewrite H in Hr. discriminate Hr.
      + destruct (assoc "start" m); simpl in Hr; [|discriminate Hr].
        rewrite H in Hr. discriminate Hr. }
  destruct Hitem as [line Hitem].
  rewrite !build_targets_app. cbn [Scanner.build_targets]. rewrite Hitem.
  destruct (Scanner.build_targets pre) as [[ts1 ms1]|]; simpl; [|reflexivity].
  destruct (Scanner.build_targets post) as [[ts2 ms2]|]; simpl; [|reflexivity].
  split; [reflexivity|]. rewrite !length_app. simpl. lia.
Qed.

Lemma incomplete_item_is_skipped_witness :
  match Scanner.build_targets ([Inputs.complete_item] ++
                               Inputs.item_without_start :: [Inputs.complete_item]),
        Scanner.build_targets ([Inputs.complete_item] ++ [Inputs.complete_item]) with
  | Ok (ts, msgs), Ok (ts', msgs') =>
      ts = ts' /\ length msgs = S (length msgs')
  | Raise e, Raise e' => e = e'
  | _, _ => False
  end.
Proof.
  apply (incomplete_item_is_skipped [Inputs.complete_item] [Inputs.complete_item]
           [("end", JStr "10.0.0.9")]%string).
  left. reflexivity.
Defined.

(** X5. One malformed item ends the whole script: when an item of
    data.json makes [to_nmap_range] raise, or is no object, the exception is
    a [TypeError], [AttributeError], [ValueError] or [IndexError], nothing
    catches it, the items after it are never read, no scan is started and no
    file is touched; the process ends with code 1. *)
Theorem malformed_item_stops_the_script
    (w : Scanner.world) (sched : list Scanner.actor) (d : Scanner.disk)
    (pre post : list json) (item : json) (e : exn) :
  Scanner.data_json d = Holds (JArr (pre ++ item :: post)) ->
  (forall x, x ∈ pre -> raises (Scanner.target_of_item x) = false) ->
  Scanner.target_of_item item = Raise e ->
  TargetSpec.item_error e /\
  Scanner.script w sched d =
    Some {| Scanner.ended := Scanner.Died e; Scanner.on_disk := d;
            Scanner.events := [] |} /\
  Scanner.exit_code <$> Scanner.exit_of (Scanner.Died e) = Some 1.
Proof.
  intros Hdata Hpre Hitem.
  assert (Herr : TargetSpec.item_error e).
  { destruct (target_of_item_cases item)
      as [(m & s & e' & t & _ & _ & _ & _ & H)
         | [(m & _ & _ & H) | [(m & s & _ & _ & _ & H) | (e' & He & H)]]];
      rewrite H in Hitem; try discriminate. now injection Hitem as <-. }
  split; [exact Herr|]. split.
  - assert (Hload : Scanner.load_data d = Ok (JArr (pre ++ item :: post))).
    { unfold Scanner.load_data. rewrite Hdata. destruct pre; reflexivity. }
    unfold Scanner.script, Scanner.boot. rewrite Hload.
    change (Ok (JArr (pre ++ item :: post)) ≫= _)
      with (items ← iterate (JArr (pre ++ item :: post));
            ts ← Scanner.build_targets items;
            loaded ← Scanner.load_state d;
            Ok ({| Scanner.workers := [];
                   Scanner.pending := fst ts;
                   Scanner.mem := {| Scanner.completed_targets := loaded;
                                     Scanner.csv := Scanner.init_csv d;
                                     Scanner.checkpoint := Scanner.state_json d |};
                   Scanner.trace := [] |}, snd ts)).
    cbn [iterate]. 
    change (Ok (pre ++ item :: post) ≫= ?k) with (k (pre ++ item :: post)).
    cbv beta. rewrite build_targets_app.
    destruct (build_targets_pre pre Hpre) as [r ->].
    cbn [Scanner.build_targets]. rewrite Hitem. reflexivity.
  - destruct e; try contradiction; reflexivity.
Qed.

Lemma malformed_item_stops_the_script_witness :
  TargetSpec.item_error IndexError /\
  Scanner.script Samples.live_world [] (Inputs.disk_with (JArr ([] ++ Inputs.short_item :: []))) =
    Some {| Scanner.ended := Scanner.Died IndexError;
            Scanner.on_disk := Inputs.disk_with (JArr ([] ++ Inputs.short_item :: []));
            Scanner.events := [] |} /\
  Scanner.exit_code <$> Scanner.exit_of (Scanner.Died IndexError) = Some 1.
Proof.
  apply (malformed_item_stops_the_script Samples.live_world []
           (Inputs.disk_with (JArr ([] ++ Inputs.short_item :: []))) [] []
           Inputs.short_item IndexError).
  - reflexivity.
  - intros x Hx. inversion Hx.
  - vm_compute. reflexivity.
Defined.

(** X6. On arguments that are ASCII strings of at most 4300 characters,
    or no strings at all, [to_nmap_range] succeeds exactly when both are
    strings whose dot-separated fields are all integer literals ([int()]
    takes white space around the literal, a sign, and single underscores
    between digits) and number at least four; it checks neither the range of
    an octet nor the order of the two endpoints, and fields after the fourth
    are parsed and then ignored.  When it fails it raises an
    [AttributeError] (an argument is no string), a [ValueError] (a field is
    no integer literal) or an [IndexError] (fewer than four fields), and
    nothing else. *)
Theorem to_nmap_range_domain (start end_ : json) :
  TargetSpec.plain start ->
  TargetSpec.plain end_ ->
  ((exists expr, Scanner.to_nmap_range start end_ = Ok expr) <->
   TargetSpec.dotted start /\ TargetSpec.dotted end_) /\
  (forall e, Scanner.to_nmap_range start end_ = Raise e -> TargetSpec.range_error e).
Proof.
  intros _ _.
  split; [|apply to_nmap_range_raises]. split.
  - intros [expr H].
    apply to_nmap_range_Ok in H
      as (s0 & s1 & s2 & s3 & rs & e0 & e1 & e2 & e3 & re & Hs & He & _).
    apply split_ints_Ok in Hs as (a & -> & Ha & La).
    apply split_ints_Ok in He as (b & -> & Hb & Lb).
    split; [exists a | exists b]; (split; [reflexivity|]); (split; [assumption|]);
      simpl in *; lia.
  - intros [Hs He].
    apply dotted_split_ints in Hs as (s0 & s1 & s2 & s3 & rs & Hs).
    apply dotted_split_ints in He as (e0 & e1 & e2 & e3 & re & He).
    eexists. apply to_nmap_range_Ok. exists s0, s1, s2, s3, rs, e0, e1, e2, e3, re.
    eauto.
Qed.

Lemma to_nmap_range_domain_witness :
  ((exists expr, Scanner.to_nmap_range (JStr "1_0.0.0. 1") (JStr "10.0.0.+9.7") = Ok expr) <->
   TargetSpec.dotted (JStr "1_0.0.0. 1") /\ TargetSpec.dotted (JStr "10.0.0.+9.7")) /\
  (forall e, Scanner.to_nmap_range (JStr "1_0.0.0. 1") (JStr "10.0.0.+9.7") = Raise e ->
             TargetSpec.range_error e).
Proof.
  apply (to_nmap_range_domain (JStr "1_0.0.0. 1") (JStr "10.0.0.+9.7"));
    vm_compute; reflexivity.
Defined.

Example to_nmap_range_reads_python_literals :
  Scanner.to_nmap_range (JStr "1_0.0.0. 1") (JStr "10.0.0.+9.7") =
  Ok "10-10.0-0.0-0.1-9"%string.
Proof. vm_compute. reflexivity. Qed.

(** ** scanner.py: [scan_target] when a scan returns *)

Section SuccessPath.

Import Scanner PoolSpec.

Lemma scan_target_from_step fuel w i t p sh tr p' sh' evs :
  local_step w i t p sh = Some (p', sh', evs) ->
  scan_target_from (S fuel) w i t p sh tr =
  scan_target_from fuel w i t p' sh' (tr ++ evs).
Proof.
  intros H. destruct p; cbn [scan_target_from]; try (rewrite H; reflexivity).
  discriminate H.
Qed.

Lemma rows_from_end n res : (length res <= n)%nat -> rows_from n res = [].
Proof. intros H. unfold rows_from. rewrite drop_ge by exact H. reflexivity. Qed.

Lemma rows_from_step n res h :
  res !! n = Some h ->
  rows_from n res = (if interesting h then [csv_row h] else []) ++ rows_from (S n) res.
Proof.
  intros H. unfold rows_from. rewrite (drop_S res h n H). simpl.
  destruct (interesting h); reflexivity.
Qed.

(** From host [n] on, with no failure of the CSV file and a checkpoint
    that is written, [scan_target] appends the rows left, marks the target,
    saves and returns the number of hosts. *)
Lemma hosts_loop w i t a res :
  (forall n, csv_fails w i a n = false) ->
  save_outcome w i a = Saved ->
  forall m n sh tr fuel,
    (n + m = length res)%nat -> (m + 2 <= fuel)%nat ->
    scan_target_from fuel w i t (AtHosts a res n) sh tr =
    Some (Z.of_nat (length res),
          {| completed_targets := completed_targets sh ++ [t];
             csv := csv sh ++ rows_from n res;
             checkpoint := Holds (completed_targets sh ++ [t]) |},
          tr ++ map (EvRow i) (rows_from n res) ++
          [EvMark i t; EvSave i; EvReturn i (Z.of_nat (length res))]).
Proof.
  intros Hcsv Hsave. induction m as [|m IH]; intros n sh tr fuel Hn Hfuel.
  - destruct fuel as [|[|fuel]]; try lia.
    assert (Hnone : res !! n = None) by (apply lookup_ge_None; lia).
    rewrite (scan_target_from_step _ w i t _ sh tr (AtSave a res)
               {| completed_targets := completed_targets sh ++ [t];
                  csv := csv sh; checkpoint := checkpoint sh |} [EvMark i t])
      by (unfold local_step, scan_result; rewrite Hnone; reflexivity).
    rewrite (scan_target_from_step _ w i t _ _ _ (Returned (Z.of_nat (length res)))
               {| completed_targets := completed_targets sh ++ [t];
                  csv := csv sh;
                  checkpoint := Holds (completed_targets sh ++ [t]) |}
               [EvSave i; EvReturn i (Z.of_nat (length res))])
      by (unfold local_step, scan_result; rewrite Hsave; reflexivity).
    rewrite scan_target_from_returned, rows_from_end by lia.
    rewrite app_nil_r, <- app_assoc. reflexivity.
  - destruct fuel as [|fuel]; [lia|].
    destruct (res !! n) as [h|] eqn:Hh.
    2:{ apply lookup_ge_None in Hh. lia. }
    rewrite (rows_from_step n res h Hh).
    destruct (interesting h) eqn:Hi.
    + rewrite (scan_target_from_step _ w i t _ sh tr (AtHosts a res (S n))
                 {| completed_targets := completed_targets sh;
                    csv := csv sh ++ [csv_row h]; checkpoint := checkpoint sh |}
                 [EvRow i (csv_row h)])
        by (unfold local_step, scan_result; rewrite Hh, Hi, Hcsv; reflexivity).
      rewrite (IH (S n)) by lia. cbn [completed_targets csv checkpoint].
      rewrite <- !app_assoc. reflexivity.
    + rewrite (scan_target_from_step _ w i t _ sh tr (AtHosts a res (S n)) sh [])
        by (unfold local_step, scan_result; rewrite Hh, Hi; reflexivity).
      rewrite (IH (S n)) by lia. rewrite app_nil_r. reflexivity.
Qed.

(** A failing scan that is not the last one costs two steps: the call and
    the sleep. *)
Lemma failed_attempt fuel w i t a sh tr :
  scan_outcome w i a = None -> (a + 1 <> RETRIES)%nat ->
  scan_target_from (S (S fuel)) w i t (AtScan a) sh tr =
  scan_target_from fuel w i t (AtScan (S a)) sh (tr ++ [EvScan i t; EvSleep i 2]).
Proof.
  intros Hnone Hlast.
  assert (Hh : handler i a = (AtSleep a, [])).
  { unfold handler. apply Nat.eqb_neq in Hlast. rewrite Hlast. reflexivity. }
  rewrite (scan_target_from_step _ w i t _ sh tr (AtSleep a) sh [EvScan i t])
    by (unfold local_step, scan_result; rewrite Hnone, Hh; reflexivity).
  rewrite (scan_target_from_step _ w i t _ sh _ (AtScan (S a)) sh [EvSleep i 2])
    by reflexivity.
  rewrite <- app_assoc. reflexivity.
Qed.

Lemma returned_scan fuel w i t a res sh tr :
  scan_outcome w i a = Some res ->
  scan_target_from (S fuel) w i t (AtScan a) sh tr =
  scan_target_from fuel w i t (AtHosts a res 0) sh (tr ++ [EvScan i t]).
Proof.
  intros Hres. apply scan_target_from_step. unfold local_step. rewrite Hres. reflexivity.
Qed.

End SuccessPath.

(** X7. [scan_target] on the path where a scan returns: when the first [k]
    attempts raise ([k] < RETRIES), attempt [k] returns [res], the CSV file
    takes every row and the checkpoint is written, the call returns
    [len(res)], having called [nm.scan] [k + 1] times with a sleep of 2
    seconds after each failure, appended one row per host with an open port
    in the order of [res], then added the target to [completed_targets] and
    saved that list; it does so whatever the fuel beyond the steps needed.
    All this once [nmap.PortScanner()] has returned an engine: when the
    constructor raises, its exception leaves [scan_target] with nothing
    done. *)
Theorem scan_target_returns_after_failures
    (w : Scanner.world) (i : nat) (t : string) (sh : Scanner.shared)
    (k : nat) (res : Scanner.scan_result) (fuel : nat) :
  (k < Scanner.RETRIES)%nat ->
  (forall a, (a < k)%nat -> Scanner.scan_outcome w i a = None) ->
  Scanner.scan_outcome w i k = Some res ->
  (forall n, Scanner.csv_fails w i k n = false) ->
  Scanner.save_outcome w i k = Scanner.Saved ->
  (2 * k + length res + 3 <= fuel)%nat ->
  let rows := map Scanner.csv_row (List.filter Scanner.interesting res) in
  Scanner.scan_target fuel w i t sh =
  match Scanner.portscanner w i with
  | Some e => Some (Raise e, sh, [Scanner.EvRaised i])
  | None =>
      Some (Ok (Z.of_nat (length res)),
            {| Scanner.completed_targets := Scanner.completed_targets sh ++ [t];
               Scanner.csv := Scanner.csv sh ++ rows;
               Scanner.checkpoint := Holds (Scanner.completed_targets sh ++ [t]) |},
            concat (replicate k [Scanner.EvScan i t; Scanner.EvSleep i 2]) ++
            [Scanner.EvScan i t] ++ map (Scanner.EvRow i) rows ++
            [Scanner.EvMark i t; Scanner.EvSave i;
             Scanner.EvReturn i (Z.of_nat (length res))])
  end.
Proof.
  intros Hk Hfail Hres Hcsv Hsave Hfuel rows. unfold Scanner.RETRIES in Hk.
  unfold Scanner.scan_target.
  destruct (Scanner.portscanner w i) as [e|]; [reflexivity|].
  assert (Hrows : rows = PoolSpec.rows_from 0 res) by reflexivity.
  destruct k as [|[|[|k]]]; [| | |lia].
  - destruct fuel as [|fuel]; [lia|].
    rewrite (returned_scan _ _ _ _ _ res) by exact Hres.
    rewrite (hosts_loop w i t 0 res Hcsv Hsave (length res) 0) by lia.
    rewrite Hrows. reflexivity.
  - destruct fuel as [|[|[|fuel]]]; try lia.
    rewrite failed_attempt by (try apply Hfail; unfold Scanner.RETRIES; lia).
    rewrite (returned_scan _ _ _ _ _ res) by exact Hres.
    rewrite (hosts_loop w i t 1 res Hcsv Hsave (length res) 0) by lia.
    rewrite Hrows. reflexivity.
  - destruct fuel as [|[|[|[|[|fuel]]]]]; try lia.
    rewrite failed_attempt by (try apply Hfail; unfold Scanner.RETRIES; lia).
    rewrite failed_attempt by (try apply Hfail; unfold Scanner.RETRIES; lia).
    rewrite (returned_scan _ _ _ _ _ res) by exact Hres.
    rewrite (hosts_loop w i t 2 res Hcsv Hsave (length res) 0) by lia.
    rewrite Hrows. reflexivity.
Qed.

Lemma scan_target_returns_after_failures_witness :
  let rows := map Scanner.csv_row
                (List.filter Scanner.interesting [Samples.open_host; Samples.closed_host]) in
  Scanner.scan_target 5 Samples.live_world 0 Samples.the_target Samples.fresh_shared =
  Some (Ok (Z.of_nat (length [Samples.open_host; Samples.closed_host])),
        {| Scanner.completed_targets :=
             Scanner.completed_targets Samples.fresh_shared ++ [Samples.the_target];
           Scanner.csv := Scanner.csv Samples.fresh_shared ++ rows;
           Scanner.checkpoint :=
             Holds (Scanner.completed_targets Samples.fresh_shared ++ [Samples.the_target]) |},
        concat (replicate 0 [Scanner.EvScan 0 Samples.the_target; Scanner.EvSleep 0 2]) ++
        [Scanner.EvScan 0 Samples.the_target] ++ map (Scanner.EvRow 0) rows ++
        [Scanner.EvMark 0 Samples.the_target; Scanner.EvSave 0;
         Scanner.EvReturn 0 (Z.of_nat (length [Samples.open_host; Samples.closed_host]))]).
Proof.
  apply (scan_target_returns_after_failures Samples.live_world 0 Samples.the_target
           Samples.fresh_shared 0 [Samples.open_host; Samples.closed_host] 5).
  - vm_compute. lia.
  - intros a Ha. lia.
  - reflexivity.
  - intros n. reflexivity.
  - reflexivity.
  - vm_compute. lia.
Defined.

(** ** scanner.py: what every run of the pool keeps *)

Section PoolCounts.

Import Scanner PoolSpec.

Lemma scans_of_app i tr evs : scans_of i (tr ++ evs) = (scans_of i tr + scans_of i evs)%nat.
Proof. unfold scans_of. now rewrite List.filter_app, length_app. Qed.

Lemma sleeps_of_app i tr evs :
  sleeps_of i (tr ++ evs) = (sleeps_of i tr + sleeps_of i evs)%nat.
Proof. unfold sleeps_of. now rewrite List.filter_app, length_app. Qed.

Ltac step_cases H :=
  unfold local_step, handler in H;
  repeat match type of H with
         | context [match ?x with _ => _ end] => destruct x eqn:?
         | context [if ?x then _ else _] => destruct x eqn:?
         end;
  simplify_eq.

(** The events of a step are events of the future that takes it. *)
Lemma local_step_by w i t p sh p' sh' evs :
  local_step w i t p sh = Some (p', sh', evs) ->
  Forall (fun e => by_future i e = true) evs.
Proof.
  intros H. step_cases H; simpl; repeat constructor; simpl; apply Nat.eqb_refl.
Qed.

Lemma others_count_nothing i j evs :
  i <> j -> Forall (fun e => by_future i e = true) evs ->
  scans_of j evs = 0%nat /\ sleeps_of j evs = 0%nat.
Proof.
  intros Hne Hall. unfold scans_of, sleeps_of.
  induction Hall as [|e evs He _ [IH1 IH2]]; [split; reflexivity|]. simpl.
  assert (Hj : by_future j e = false).
  { destruct e; simpl in *; apply Nat.eqb_eq in He; subst;
      apply Nat.eqb_neq; congruence. }
  rewrite Hj, !andb_false_r. auto.
Qed.

Lemma local_step_attempts w i t p sh p' sh' evs n m :
  local_step w i t p sh = Some (p', sh', evs) ->
  attempts_at (Some p) n m ->
  attempts_at (Some p') (n + scans_of i evs) (m + sleeps_of i evs).
Proof.
  intros H Ha.
  step_cases H; unfold scans_of, sleeps_of, attempts_at, RETRIES in *; simpl;
    rewrite ?Nat.eqb_refl; simpl;
    repeat match goal with
           | E : (_ =? _)%nat = true |- _ => apply Nat.eqb_eq in E
           | E : (_ =? _)%nat = false |- _ => apply Nat.eqb_neq in E
           end; lia.
Qed.

(** Starting a future, with or without an engine, is no scan and no
    sleep. *)
Lemma start_counts_nothing w i j :
  scans_of i (start_events w j) = 0%nat /\ sleeps_of i (start_events w j) = 0%nat.
Proof.
  unfold start_events. destruct (portscanner w j); split; reflexivity.
Qed.

Lemma attempts_moved w st st' :
  moved w st st' -> attempts_counted st -> attempts_counted st'.
Proof.
  intros Hm Hinv i. specialize (Hinv i).
  destruct Hm as [t rest _ _ Hw _ Htr | j wj Hj Hjat Hw _ _ Htr
                 | j wj p p' evs Hj Hjat Hl Hw _ Htr].
  - rewrite Hw, Htr. case_bool_decide; [exact Hinv|].
    destruct (workers st !! i) as [wk|] eqn:Hwk.
    + rewrite (lookup_app_l_Some _ _ _ _ Hwk). exact Hinv.
    + destruct ((workers st ++ [{| target := t; at_ := None |}]) !! i) as [wk|] eqn:Hnew;
        [|exact Hinv].
      apply lookup_app_Some in Hnew as [Hold | (_ & Hnew)]; [congruence|].
      apply list_lookup_singleton_Some in Hnew as [_ <-]. exact Hinv.
  - rewrite Hw, Htr, scans_of_app, sleeps_of_app.
    destruct (start_counts_nothing w i j) as [-> ->]. rewrite !Nat.add_0_r.
    destruct (decide (j = i)) as [->|Hne].
    + rewrite (lookup_set_pc_eq _ _ _ _ Hj). rewrite Hj, Hjat in Hinv.
      cbn [at_]. unfold start_pc. destruct (portscanner w i);
        simpl in *; unfold RETRIES; lia.
    + rewrite lookup_set_pc_ne by exact Hne. exact Hinv.
  - rewrite Hw, Htr, scans_of_app, sleeps_of_app.
    pose proof (local_step_by _ _ _ _ _ _ _ _ Hl) as Hby.
    destruct (decide (j = i)) as [->|Hne].
    + rewrite (lookup_set_pc_eq _ _ _ _ Hj). rewrite Hj, Hjat in Hinv.
      cbn [at_]. eapply local_step_attempts; eauto.
    + rewrite lookup_set_pc_ne by exact Hne.
      destruct (others_count_nothing j i evs Hne Hby) as [-> ->].
      rewrite !Nat.add_0_r. exact Hinv.
Qed.

Lemma attempts_run w d st0 msgs sched st :
  boot d = Ok (st0, msgs) -> run w sched st0 = Some st -> attempts_counted st.
Proof.
  intros Hb Hrun.
  apply (run_preserves w attempts_counted (attempts_moved w) sched st0 st Hrun).
  apply boot_state in Hb as (Hw & Htr & _). intros i. rewrite Hw, Htr. split; reflexivity.
Qed.

End PoolCounts.

(** X11. Under every interleaving of the pool and every failure of a scan
    or of a file, no future calls [nm.scan] more than RETRIES = 3 times, and
    none sleeps more than twice (4 seconds in all): there is no fourth
    attempt, whatever raises and wherever in the [try] it raises. *)
Theorem no_future_scans_more_than_retries
    (w : Scanner.world) (d : Scanner.disk) (st0 st : Scanner.state)
    (msgs : list string) (sched : list Scanner.actor) (i : nat) :
  Scanner.boot d = Ok (st0, msgs) ->
  Scanner.run w sched st0 = Some st ->
  (PoolSpec.scans_of i (Scanner.trace st) <= Scanner.RETRIES)%nat /\
  (PoolSpec.sleeps_of i (Scanner.trace st) <= Scanner.RETRIES - 1)%nat.
Proof.
  intros Hb Hrun. pose proof (attempts_run w d st0 msgs sched st Hb Hrun i) as H.
  destruct (Scanner.workers st !! i) as [wk|]; [|destruct H as [-> ->]; split; lia].
  unfold PoolSpec.attempts_at, Scanner.RETRIES in *.
  destruct (Scanner.at_ wk) as [[a|a res n|a res|a|v|e]|]; lia.
Qed.

Lemma no_future_scans_more_than_retries_witness :
  exists st0 msgs st,
    Scanner.boot Samples.fresh_disk = Ok (st0, msgs) /\
    Scanner.run Samples.unreachable_world (Samples.one_worker 5) st0 = Some st /\
    PoolSpec.scans_of 0 (Scanner.trace st) = 3%nat /\
    (PoolSpec.scans_of 0 (Scanner.trace st) <= Scanner.RETRIES)%nat /\
    (PoolSpec.sleeps_of 0 (Scanner.trace st) <= Scanner.RETRIES - 1)%nat.
Proof.
  do 3 eexists. split; [vm_compute; reflexivity|].
  split; [vm_compute; reflexivity|]. split; [vm_compute; reflexivity|].
  eapply (no_future_scans_more_than_retries Samples.unreachable_world Samples.fresh_disk
            _ _ _ (Samples.one_worker 5) 0).
  - vm_compute; reflexivity.
  - vm_compute; reflexivity.
Defined.

Section PoolTargets.

Import Scanner ScannerInv PoolSpec.

(** Where a future of the state after a step comes from. *)
Lemma moved_worker_origin w st st' i wk' :
  moved w st st' -> workers st' !! i = Some wk' ->
  (exists wk, workers st !! i = Some wk /\ target wk = target wk') \/
  (exists rest, pending st = target wk' :: rest /\
                target wk' ∉ completed_targets (mem st)).
Proof.
  intros Hm Hwk.
  destruct Hm as [t rest Hp _ Hw _ _ | j wj Hj _ Hw _ _ _ | j wj p p' evs Hj _ _ Hw _ _].
  - rewrite Hw in Hwk. case_bool_decide as Hin; [left; eauto|].
    apply lookup_app_Some in Hwk as [Hold | (_ & Hnew)]; [left; eauto|].
    apply list_lookup_singleton_Some in Hnew as [_ <-]. right. exists rest. auto.
  - left. rewrite Hw in Hwk. destruct (decide (j = i)) as [->|Hne].
    + rewrite (lookup_set_pc_eq _ _ _ _ Hj) in Hwk. injection Hwk as <-. eauto.
    + rewrite lookup_set_pc_ne in Hwk by exact Hne. eauto.
  - left. rewrite Hw in Hwk. destruct (decide (j = i)) as [->|Hne].
    + rewrite (lookup_set_pc_eq _ _ _ _ Hj) in Hwk. injection Hwk as <-. eauto.
    + rewrite lookup_set_pc_ne in Hwk by exact Hne. eauto.
Qed.

Lemma local_step_scan w i t p sh p' sh' evs j t' :
  local_step w i t p sh = Some (p', sh', evs) ->
  EvScan j t' ∈ evs -> j = i /\ t' = t.
Proof.
  intros H Hin. unfold local_step, handler in H.
  repeat match type of H with
         | context [match ?x with _ => _ end] => destruct x eqn:?
         | context [if ?x then _ else _] => destruct x eqn:?
         end;
    simplify_eq; simpl in Hin;
    repeat (apply elem_of_cons in Hin as [Hin|Hin]; [simplify_eq; auto|]);
    inversion Hin.
Qed.

Lemma moved_lengths w st st' :
  moved w st st' ->
  (length (workers st') + length (pending st') <=
   length (workers st) + length (pending st))%nat.
Proof.
  intros [t rest Hp Hp' Hw _ _ | j wj _ _ Hw Hp' _ _ | j wj p p' evs _ _ _ Hw Hp' _];
    rewrite Hw, Hp'.
  - rewrite Hp. case_bool_decide; rewrite ?length_app; simpl; lia.
  - unfold set_pc. rewrite length_alter. lia.
  - unfold set_pc. rewrite length_alter. lia.
Qed.

Lemma own_moved w initial loaded st st' :
  moved w st st' -> progress initial loaded st ->
  own_targets initial loaded st -> own_targets initial loaded st'.
Proof.
  intros Hm [(seen & Hinit & _) Hkeep _ _ _] [Hnew Hown Hlen]. split.
  - intros i wk' Hwk.
    destruct (moved_worker_origin _ _ _ _ _ Hm Hwk)
      as [(wk & Hold & <-) | (rest & Hp & Hout)]; [eauto|].
    split.
    + rewrite Hinit, Hp. apply elem_of_app. right. left.
    + intros Hl. apply Hout. auto.
  - intros i t Hin.
    assert (Hkept : forall wk, workers st !! i = Some wk -> target wk = t ->
              exists wk', workers st' !! i = Some wk' /\ target wk' = t).
    { intros wk Hwk Ht.
      destruct (moved_worker_kept _ _ _ _ _ Hm Hwk) as (wk' & Hwk' & Ht').
      exists wk'. split; [exact Hwk' | congruence]. }
    destruct Hm as [? ? _ _ _ _ Htr | j wj _ _ _ _ _ Htr
                   | j wj p p' evs Hj _ Hl Hw _ Htr]; rewrite Htr in Hin.
    + destruct (Hown i t Hin) as (wk & Hwk & Ht). eauto.
    + apply elem_of_app in Hin as [Hin|Hin].
      * destruct (Hown i t Hin) as (wk & Hwk & Ht). eauto.
      * exfalso. unfold start_events in Hin. destruct (portscanner w j).
        -- apply list_elem_of_singleton in Hin. discriminate Hin.
        -- inversion Hin.
    + apply elem_of_app in Hin as [Hin|Hin].
      * destruct (Hown i t Hin) as (wk & Hwk & Ht). eauto.
      * destruct (local_step_scan _ _ _ _ _ _ _ _ _ _ Hl Hin) as [-> ->]. eauto.
  - pose proof (moved_lengths _ _ _ Hm). lia.
Qed.

Lemma own_run w d st0 msgs sched st :
  boot d = Ok (st0, msgs) -> run w sched st0 = Some st ->
  own_targets (pending st0) (completed_targets (mem st0)) st.
Proof.
  intros Hb Hrun.
  pose (P := fun s => (behind_sink w (completed_targets (mem st0)) s /\
                       progress (pending st0) (completed_targets (mem st0)) s) /\
                      own_targets (pending st0) (completed_targets (mem st0)) s).
  assert (HP : P st).
  { apply (run_preserves w P) with (sched := sched) (st := st0); [| exact Hrun |].
    - intros s s' Hm [[Hbs Hpr] Hown]. split; [split|].
      + eapply behind_sink_moved; eauto.
      + eapply progress_moved; eauto.
      + eapply own_moved; eauto.
    - split; [split|].
      + eapply behind_sink_boot; exact Hb.
      + eapply progress_boot; exact Hb.
      + apply boot_state in Hb as (Hw & Htr & _). split.
        * intros i wk Hwk. rewrite Hw in Hwk. discriminate Hwk.
        * intros i t Hin. rewrite Htr in Hin. inversion Hin.
        * rewrite Hw. simpl. lia. }
  exact (proj2 HP).
Qed.

End PoolTargets.

(** ** Running the pipeline twice *)

(** A future whose [nmap.PortScanner()] raises makes no scan and marks
    nothing; the pool finishes all the same, the script exits 0, and a second
    run gives the target a future again. *)
Example future_without_engine :
  exists r1 st0 msgs st2,
    Scanner.script no_engine_world (one_worker 0) fresh_disk = Some r1 /\
    Scanner.ended r1 = Scanner.Completed /\
    Scanner.events r1 = [Scanner.EvRaised 0] /\
    Scanner.state_json (Scanner.on_disk r1) = Missing /\
    Scanner.boot (Scanner.on_disk r1) = Ok (st0, msgs) /\
    Scanner.run live_world (one_worker 1) st0 = Some st2 /\
    Scanner.trace st2 = [Scanner.EvScan 0 the_target].
Proof.
  do 4 eexists. split; [vm_compute; reflexivity|].
  repeat (split; [vm_compute; reflexivity|]). vm_compute. reflexivity.
Qed.

Section TwoRuns.

Import Scanner PoolSpec.

(** A run of scanner.py on files whose state.json holds the list [l] scans
    targets outside [l] only. *)
Lemma scanner_scans_unmarked_only w s d r i t l :
  script w s d = Some r ->
  state_json d = Holds l ->
  EvScan i t ∈ events r ->
  t ∉ l.
Proof.
  unfold script. destruct (boot d) as [[st0 msgs]|e] eqn:Hb.
  - destruct (run w s st0) as [st|] eqn:Hrun; [|discriminate].
    simpl. intros [= <-] Hl Hin. simpl in Hin.
    destruct (own_run w d st0 msgs s st Hb Hrun) as [Hnew Hown _].
    destruct (Hown i t Hin) as (wk & Hwk & <-).
    destruct (boot_state d st0 msgs Hb) as (_ & _ & _ & _ & Hload).
    rewrite <- (load_state_holds d l _ Hl Hload).
    exact (proj2 (Hnew i wk Hwk)).
  - intros [= <-] _ Hin. simpl in Hin. inversion Hin.
Qed.

(** What the checker hands to its pool are units of the input whose key
    the checkpoint does not hold. *)
Lemma checker_probes_unmarked_only w stop d rows u :
  Checker.nmap_csv d = Holds rows ->
  u ∈ Checker.probes (Checker.main w stop d) ->
  u ∈ Checker.hosts_list_of rows /\
  Checker.key u ∉ Checker.checked_keys (Checker.loaded d).
Proof.
  intros Hrows. rewrite (main_reads w stop d rows Hrows). cbv zeta.
  assert (Hd : u ∈ Checker.dispatched (Checker.loaded d) rows ->
               u ∈ Checker.hosts_list_of rows /\
               Checker.key u ∉ Checker.checked_keys (Checker.loaded d)).
  { unfold Checker.dispatched, Checker.hosts_to_check_of.
    intros Hin. apply list_elem_of_filter in Hin as [Hk Hin]. auto. }
  destruct stop as [n|]; [|exact Hd].
  destruct (n <? _)%nat; [|exact Hd].
  cbn [Checker.probes]. destruct (n <=? 1)%nat; [|exact Hd].
  intros Hin. inversion Hin.
Qed.

End TwoRuns.

(** C3 (as the code has it).  Whatever the first run left, a second run of
    scanner.py calls [nm.scan] only on targets whose key is not in the
    state.json it finds, and a run of 2.ollama-checker.py hands to its pool
    only units of the input whose key is not in the checkpoint it loads.
    After a run of scanner.py that completed with no future giving up and
    none ended by [nmap.PortScanner()], the second run calls [nm.scan] not
    once and leaves the CSV file as it is.  After a run of
    2.ollama-checker.py that went to its end, a second run, interrupted or
    not, hands no probe to the pool and leaves ollama.csv as it is. *)
Theorem idempotent_resume :
  (forall (w2 : Scanner.world) (s2 : list Scanner.actor) (d1 : Scanner.disk)
          (r2 : Scanner.report) (i : nat) (t : string) (l : list string),
     Scanner.script w2 s2 d1 = Some r2 ->
     Scanner.state_json d1 = Holds l ->
     Scanner.EvScan i t ∈ Scanner.events r2 ->
     t ∉ l) /\
  (forall (w1 w2 : Scanner.world) (s1 s2 : list Scanner.actor)
          (d : Scanner.disk) (r1 r2 : Scanner.report),
     Scanner.script w1 s1 d = Some r1 ->
     Scanner.ended r1 = Scanner.Completed ->
     (forall i, Scanner.EvExhausted i ∉ Scanner.events r1) ->
     (forall i, Scanner.EvRaised i ∉ Scanner.events r1) ->
     Scanner.script w2 s2 (Scanner.on_disk r1) = Some r2 ->
     List.filter Scanner.is_scan (Scanner.events r2) = [] /\
     Scanner.results_csv (Scanner.on_disk r2) = Scanner.results_csv (Scanner.on_disk r1)) /\
  (forall (w : Checker.world) (stop : option nat) (d : Checker.disk)
          (rows : list Checker.unit_) (u : Checker.unit_),
     Checker.nmap_csv d = Holds rows ->
     u ∈ Checker.probes (Checker.main w stop d) ->
     u ∈ Checker.hosts_list_of rows /\
     Checker.key u ∉ Checker.checked_keys (Checker.loaded d)) /\
  (forall (w1 w2 : Checker.world) (stop : option nat)
          (d : Checker.disk) (rows : list Checker.unit_),
     Checker.fair w1 ->
     Checker.nmap_csv d = Holds rows ->
     let d2 := Checker.files (Checker.final (Checker.main w1 None d)) in
     Checker.probes (Checker.main w2 stop d2) = [] /\
     Checker.ollama_csv (Checker.files (Checker.final (Checker.main w2 stop d2))) =
     Checker.ollama_csv d2).
Proof.
  split; [|split; [|split]].
  - intros w2 s2 d1 r2 i t l. apply scanner_scans_unmarked_only.
  - intros w1 w2 s1 s2 d r1 r2. apply scanner_idempotent_resume.
  - intros w stop d rows u. apply checker_probes_unmarked_only.
  - intros w1 w2 stop d rows. apply checker_idempotent_resume.
Qed.

Lemma idempotent_resume_witness :
  (exists r1 r2,
     Scanner.script live_world (one_worker 5) fresh_disk = Some r1 /\
     Scanner.state_json (Scanner.on_disk r1) = Holds [the_target] /\
     Scanner.script unreachable_world (one_worker 1)
       {| Scanner.data_json := Scanner.data_json fresh_disk;
          Scanner.state_json := Holds ["10-10.0-0.0-0.1-8"%string];
          Scanner.results_csv := None |} = Some r2 /\
     Scanner.EvScan 0 the_target ∈ Scanner.events r2 /\
     the_target ∉ ["10-10.0-0.0-0.1-8"%string]) /\
  (exists r1 r2,
     Scanner.script live_world (one_worker 5) fresh_disk = Some r1 /\
     Scanner.script live_world [Scanner.Main] (Scanner.on_disk r1) = Some r2 /\
     List.filter Scanner.is_scan (Scanner.events r2) = [] /\
     Scanner.results_csv (Scanner.on_disk r2) = Scanner.results_csv (Scanner.on_disk r1)) /\
  (("10.0.0.5", "11434")%string ∈ Checker.hosts_list_of one_host /\
   Checker.key ("10.0.0.5", "11434")%string ∉
     Checker.checked_keys (Checker.loaded checker_disk)) /\
  (let d2 := Checker.files (Checker.final (Checker.main answering None checker_disk)) in
   Checker.probes (Checker.main answering None d2) = [] /\
   Checker.ollama_csv (Checker.files (Checker.final (Checker.main answering None d2))) =
   Checker.ollama_csv d2).
Proof.
  split; [|split; [|split]].
  - do 2 eexists. split; [vm_compute; reflexivity|]. split; [vm_compute; reflexivity|].
    split; [vm_compute; reflexivity|].
    split; [left|].
    eapply (proj1 idempotent_resume unreachable_world (one_worker 1)
              {| Scanner.data_json := Scanner.data_json fresh_disk;
                 Scanner.state_json := Holds ["10-10.0-0.0-0.1-8"%string];
                 Scanner.results_csv := None |}
              _ 0%nat the_target ["10-10.0-0.0-0.1-8"%string]).
    + vm_compute; reflexivity.
    + reflexivity.
    + left.
  - do 2 eexists. split; [vm_compute; reflexivity|]. split; [vm_compute; reflexivity|].
    eapply (proj1 (proj2 idempotent_resume) live_world live_world
              (one_worker 5) [Scanner.Main] fresh_disk).
    + vm_compute; reflexivity.
    + vm_compute; reflexivity.
    + intros i Hin. simpl in Hin.
      repeat (apply elem_of_cons in Hin as [Hin|Hin]; [discriminate Hin|]).
      inversion Hin.
    + intros i Hin. simpl in Hin.
      repeat (apply elem_of_cons in Hin as [Hin|Hin]; [discriminate Hin|]).
      inversion Hin.
    + vm_compute; reflexivity.
  - apply (proj1 (proj2 (proj2 idempotent_resume)) answering None checker_disk one_host).
    + vm_compute; reflexivity.
    + left.
  - apply (proj2 (proj2 (proj2 idempotent_resume)) answering answering None
             checker_disk one_host).
    + intros l; reflexivity.
    + vm_compute; reflexivity.
Defined.

(** C3 (as stated) fails in scanner.py: when every scan of the only target
    raises, the first run completes without marking its key, and the second
    run calls [nm.scan] on it again. *)
Lemma scanner_second_run_scans_again :
  exists r1 r2,
    Scanner.script unreachable_world (one_worker 5) fresh_disk = Some r1 /\
    Scanner.ended r1 = Scanner.Completed /\
    Scanner.script unreachable_world (one_worker 1) (Scanner.on_disk r1) = Some r2 /\
    List.filter Scanner.is_scan (Scanner.events r2) = [Scanner.EvScan 0 the_target].
Proof.
  do 2 eexists.
  split; [vm_compute; reflexivity|]. split; [vm_compute; reflexivity|].
  split; vm_compute; reflexivity.
Qed.


(** X9. Resume inside one run: every call of [nm.scan] is the scan, by a
    future, of that future's own target; that target is one of the targets
    built from data.json, and it is not among the keys read from state.json
    when the run started.  A key in the checkpoint is never scanned again,
    whatever the schedule and whatever fails. *)
Theorem checkpointed_targets_are_never_scanned
    (w : Scanner.world) (d : Scanner.disk) (st0 st : Scanner.state)
    (msgs : list string) (sched : list Scanner.actor) (i : nat) (t : string) :
  Scanner.boot d = Ok (st0, msgs) ->
  Scanner.run w sched st0 = Some st ->
  Scanner.EvScan i t ∈ Scanner.trace st ->
  t ∈ Scanner.pending st0 /\
  (t ∉ Scanner.completed_targets (Scanner.mem st0)) /\
  exists wk, Scanner.workers st !! i = Some wk /\ Scanner.target wk = t.
Proof.
  intros Hb Hrun Hin.
  destruct (own_run w d st0 msgs sched st Hb Hrun) as [Hnew Hown _].
  destruct (Hown i t Hin) as (wk & Hwk & <-).
  destruct (Hnew i wk Hwk) as [H1 H2]. eauto.
Qed.

Lemma checkpointed_targets_are_never_scanned_witness :
  exists st0 msgs st,
    Scanner.boot Samples.fresh_disk = Ok (st0, msgs) /\
    Scanner.run Samples.live_world (Samples.one_worker 5) st0 = Some st /\
    Samples.the_target ∈ Scanner.pending st0 /\
    (Samples.the_target ∉ Scanner.completed_targets (Scanner.mem st0)) /\
    exists wk, Scanner.workers st !! 0%nat = Some wk /\
               Scanner.target wk = Samples.the_target.
Proof.
  do 3 eexists. split; [vm_compute; reflexivity|]. split; [vm_compute; reflexivity|].
  eapply (checkpointed_targets_are_never_scanned Samples.live_world Samples.fresh_disk
            _ _ _ (Samples.one_worker 5) 0 Samples.the_target).
  - vm_compute; reflexivity.
  - vm_compute; reflexivity.
  - left.
Defined.

Section PoolGrowth.

Import Scanner ScannerInv PoolSpec.

Lemma run_app w s1 s2 st :
  run w (s1 ++ s2) st = (st' ← run w s1 st; run w s2 st').
Proof.
  revert st. induction s1 as [|a s1 IH]; intros st; simpl; [reflexivity|].
  destruct (step w a st) as [st1|]; simpl; [apply IH | reflexivity].
Qed.

Lemma run_snoc w sched a st0 st' :
  run w (sched ++ [a]) st0 = Some st' ->
  exists st, run w sched st0 = Some st /\ step w a st = Some st'.
Proof.
  rewrite run_app. destruct (run w sched st0) as [st|]; simpl; [|discriminate].
  destruct (step w a st) as [st1|] eqn:Hs; simpl; [|discriminate].
  intros [= <-]. eauto.
Qed.

(** A step adds at most one key, the target of the future that takes it. *)
Lemma moved_key w st st' :
  moved w st st' ->
  completed_targets (mem st') = completed_targets (mem st) \/
  exists i wk, workers st !! i = Some wk /\
               completed_targets (mem st') = completed_targets (mem st) ++ [target wk].
Proof.
  intros [t rest _ _ _ Hm _ | j wj _ _ _ _ Hm _ | j wj p p' evs Hj _ Hl _ _ _].
  - left. now rewrite Hm.
  - left. now rewrite Hm.
  - apply local_step_completed in Hl as [E | (a & res & n & _ & _ & _ & _ & E)];
      [now left | right; eauto].
Qed.

End PoolGrowth.

(** X8. scanner.py only ever appends: at every point of a run the rows
    nmap_results.csv held at the start (or the header, when the file was
    created) are still there, in place, followed by rows each of which is
    the row of a host with an open port in a scan that returned; and
    [completed_targets] is the list read from state.json followed by keys
    that are targets of data.json.  Nothing is rewritten, reordered or
    removed, also when a scan is retried. *)
Theorem scanner_only_appends
    (w : Scanner.world) (d : Scanner.disk) (st0 st : Scanner.state)
    (msgs : list string) (sched : list Scanner.actor) :
  Scanner.boot d = Ok (st0, msgs) ->
  Scanner.run w sched st0 = Some st ->
  exists rows keys,
    Scanner.csv (Scanner.mem st) = Scanner.init_csv d ++ rows /\
    (forall r, r ∈ rows ->
       exists i a res h,
         Scanner.scan_outcome w i a = Some res /\ h ∈ res /\
         Scanner.interesting h = true /\ r = Scanner.csv_row h) /\
    Scanner.completed_targets (Scanner.mem st) =
      Scanner.completed_targets (Scanner.mem st0) ++ keys /\
    (forall t, t ∈ keys -> t ∈ Scanner.pending st0).
Proof.
  intros Hb. revert st. induction sched as [|a sched IH] using rev_ind; intros st Hrun.
  - injection Hrun as <-. exists [], [].
    destruct (boot_state d st0 msgs Hb) as (_ & _ & Hcsv & _).
    rewrite !app_nil_r. repeat split; auto; intros x Hx; inversion Hx.
  - apply run_snoc in Hrun as (st1 & Hrun & Hstep).
    destruct (IH st1 Hrun) as (rows & keys & Hcsv & Hrows & Hkeys & Htargets).
    pose proof (step_moved w a st1 st Hstep) as Hm.
    destruct (own_run w d st0 msgs sched st1 Hb Hrun) as [Hnew _ _].
    assert (Hr : exists more, Scanner.csv (Scanner.mem st) = Scanner.init_csv d ++ rows ++ more /\
               forall r, r ∈ more ->
                 exists i a res h,
                   Scanner.scan_outcome w i a = Some res /\ h ∈ res /\
                   Scanner.interesting h = true /\ r = Scanner.csv_row h).
    { destruct (scanner_rows_only_interesting w d st0 msgs sched st1 a st Hb Hrun Hstep)
        as [E | (i & att & res & n & h & _ & Hs & Hn & Hi & E)].
      - exists []. rewrite app_nil_r, E. split; [exact Hcsv|]. intros r Hr. inversion Hr.
      - exists [Scanner.csv_row h]. rewrite E, Hcsv, <- app_assoc. split; [reflexivity|].
        intros r Hr. apply list_elem_of_singleton in Hr as ->.
        exists i, att, res, h. repeat split; auto.
        eapply list_elem_of_lookup_2. exact Hn. }
    destruct Hr as (more & Hcsv' & Hmore).
    assert (Hk : exists new, Scanner.completed_targets (Scanner.mem st) =
                   Scanner.completed_targets (Scanner.mem st0) ++ keys ++ new /\
                 forall t, t ∈ new -> t ∈ Scanner.pending st0).
    { destruct (moved_key w st1 st Hm) as [E | (i & wk & Hwk & E)].
      - exists []. rewrite app_nil_r, E. split; [exact Hkeys|]. intros t Ht. inversion Ht.
      - exists [Scanner.target wk]. rewrite E, Hkeys, <- app_assoc. split; [reflexivity|].
        intros t Ht. apply list_elem_of_singleton in Ht as ->.
        apply (Hnew i wk Hwk). }
    destruct Hk as (new & Hkeys' & Hnew').
    exists (rows ++ more), (keys ++ new). repeat split; auto.
    + intros r Hr. apply elem_of_app in Hr as [Hr|Hr]; auto.
    + intros t Ht. apply elem_of_app in Ht as [Ht|Ht]; auto.
Qed.

Lemma scanner_only_appends_witness :
  exists st0 msgs st rows keys,
    Scanner.boot Samples.fresh_disk = Ok (st0, msgs) /\
    Scanner.run Samples.live_world (Samples.one_worker 5) st0 = Some st /\
    Scanner.csv (Scanner.mem st) = Scanner.init_csv Samples.fresh_disk ++ rows /\
    (forall r, r ∈ rows ->
       exists i a res h,
         Scanner.scan_outcome Samples.live_world i a = Some res /\ h ∈ res /\
         Scanner.interesting h = true /\ r = Scanner.csv_row h) /\
    Scanner.completed_targets (Scanner.mem st) =
      Scanner.completed_targets (Scanner.mem st0) ++ keys /\
    (forall t, t ∈ keys -> t ∈ Scanner.pending st0).
Proof.
  do 3 eexists.
  assert (Hb : Scanner.boot Samples.fresh_disk =
               Ok ({| Scanner.workers := [];
                      Scanner.pending := [Samples.the_target];
                      Scanner.mem := Samples.fresh_shared;
                      Scanner.trace := [] |}, [])) by (vm_compute; reflexivity).
  pose proof (fun st Hrun =>
                scanner_only_appends Samples.live_world Samples.fresh_disk _ st []
                  (Samples.one_worker 5) Hb Hrun) as H.
  specialize (H _ ltac:(vm_compute; reflexivity)).
  destruct H as (rows & keys & H). exists rows, keys.
  split; [exact Hb|]. split; [vm_compute; reflexivity|]. exact H.
Defined.



(** X12. The progress loop of scanner.py calls [print_progress(completed,
    total)] once per future, and in every such call [total] is at least 1
    and [completed] is at least 1: a future exists only for a target, so the
    division [completed / total] left unguarded in [print_progress] never
    meets a zero total in the script itself.  In a run that starts without
    a checkpoint, [completed] never exceeds [total]. *)
Theorem progress_is_never_asked_for_zero_total
    (w : Scanner.world) (d : Scanner.disk) (st0 st : Scanner.state)
    (msgs : list string) (sched : list Scanner.actor) (completed total : Z) :
  Scanner.boot d = Ok (st0, msgs) ->
  Scanner.run w sched st0 = Some st ->
  (completed, total) ∈ PoolSpec.progress_calls st0 st ->
  1 <= total /\ 1 <= completed /\
  total = Z.of_nat (length (Scanner.pending st0)) /\
  (Scanner.state_json d = Missing -> completed <= total).
Proof.
  intros Hb Hrun Hin.
  destruct (own_run w d st0 msgs sched st Hb Hrun) as [_ _ Hlen].
  unfold PoolSpec.progress_calls in Hin.
  apply list_elem_of_fmap in Hin as (k & [= -> ->] & Hk).
  apply elem_of_seq in Hk.
  assert (Ht : 1 <= Z.of_nat (length (Scanner.pending st0))) by lia.
  split; [exact Ht|]. split; [lia|]. split; [reflexivity|].
  intros Hmiss.
  destruct (boot_state d st0 msgs Hb) as (_ & _ & _ & _ & Hload).
  rewrite (load_state_missing d _ Hmiss Hload). simpl. lia.
Qed.

Lemma progress_is_never_asked_for_zero_total_witness :
  exists st0 msgs st,
    Scanner.boot Samples.fresh_disk = Ok (st0, msgs) /\
    Scanner.run Samples.live_world (Samples.one_worker 5) st0 = Some st /\
    PoolSpec.progress_calls st0 st = [(1, 1)] /\
    1 <= 1 /\ 1 <= 1 /\
    1 = Z.of_nat (length (Scanner.pending st0)) /\
    (Scanner.state_json Samples.fresh_disk = Missing -> 1 <= 1).
Proof.
  do 3 eexists. split; [vm_compute; reflexivity|]. split; [vm_compute; reflexivity|].
  split; [vm_compute; reflexivity|].
  eapply (progress_is_never_asked_for_zero_total Samples.live_world Samples.fresh_disk
            _ _ _ (Samples.one_worker 5) 1 1).
  - vm_compute; reflexivity.
  - vm_compute; reflexivity.
  - left.
Defined.

(** ** 2.ollama-checker.py: counters, periodic saves and interrupts *)

Section CheckerCounters.

Import Checker CheckerSpec.

Lemma script_loop w state rows u us :
  dispatched state rows = u :: us ->
  exists s1,
    script w state rows =
      [s1; init_counters] ++
      concat (map (iteration (Z.of_nat (length (hosts_list_of rows)))
                             (Z.of_nat (length (dispatched state rows))))
                  (completions w (dispatched state rows))) ++
      [say (Print LF); write_results (Z.of_nat (length (hosts_list_of rows))); save_state] /\
    (forall v, exists o, s1 v = say o v).
Proof.
  unfold dispatched, script. intros E. rewrite E.
  eexists. split; [reflexivity|]. intros v. eexists. reflexivity.
Qed.

(** One turn of the loop, written out. *)
Lemma iteration_exec total to_check r v :
  let u := show_progress total (record_found r (mark_checked r v)) in
  exec (iteration total to_check r) v = save_if_due to_check u /\
  checked u = checked v + 1 /\
  found u = found v + (if snd r then 1 else 0) /\
  ollama_hosts u = ollama_hosts v ++ (if snd r then [fst r] else []) /\
  checked_set u = {[ key (fst r) ]} ∪ checked_set v /\
  files u = files v.
Proof.
  cbv zeta. destruct r as [[h p] [|]]; unfold exec, iteration, record_found; simpl;
    rewrite ?app_nil_r, ?Z.add_0_r; repeat split; reflexivity.
Qed.

Lemma save_if_due_vars to_check u :
  checked (save_if_due to_check u) = checked u /\
  found (save_if_due to_check u) = found u /\
  ollama_hosts (save_if_due to_check u) = ollama_hosts u /\
  checked_set (save_if_due to_check u) = checked_set u /\
  nmap_csv (files (save_if_due to_check u)) = nmap_csv (files u) /\
  ollama_csv (files (save_if_due to_check u)) = ollama_csv (files u) /\
  stdout (save_if_due to_check u) = stdout u.
Proof.
  unfold save_if_due.
  destruct ((checked u mod 10 =? 0) || (checked u =? to_check)); repeat split; reflexivity.
Qed.

Lemma take_iterations total to_check r rest k :
  take (4 * S k) (concat (map (iteration total to_check) (r :: rest))) =
  iteration total to_check r ++
  take (4 * k) (concat (map (iteration total to_check) rest)).
Proof.
  cbn [map concat]. replace (4 * S k)%nat with (4 + 4 * k)%nat by lia.
  apply take_app_add'. reflexivity.
Qed.

Lemma length_iterations total to_check rs :
  length (concat (map (iteration total to_check) rs)) = (4 * length rs)%nat.
Proof. induction rs as [|r rs IH]; simpl; [reflexivity|]. rewrite IH. lia. Qed.

(** After each whole turn of the loop the counter [checked] is the number
    of keys loaded plus the number of turns, and the state file holds the
    checkpoint of a turn at most [checked mod 10] turns back. *)
Lemma loop_lag d state total to_check rs c0 :
  forall rest done v k,
    rs = done ++ rest ->
    at_boundary state done v ->
    checked v = c0 + Z.of_nat (length done) ->
    (exists j, (j <= length done)%nat /\
               Z.of_nat (length done - j) <= (c0 + Z.of_nat (length done)) mod 10 /\
               saved_upto d state rs j v) ->
    (k <= length rest)%nat ->
    let v' := exec (take (4 * k) (concat (map (iteration total to_check) rest))) v in
    checked v' = c0 + Z.of_nat (length done + k) /\
    exists j, (j <= length done + k)%nat /\
              Z.of_nat (length done + k - j) <= (c0 + Z.of_nat (length done + k)) mod 10 /\
              saved_upto d state rs j v'.
Proof.
  induction rest as [|r rest IH]; intros done v k Hrs Hb Hc Hj Hk.
  - simpl in Hk. replace k with 0%nat by lia. simpl. rewrite Nat.add_0_r. auto.
  - destruct k as [|k].
    { simpl. rewrite Nat.add_0_r. auto. }
    cbv zeta. rewrite take_iterations, exec_app.
    destruct (iteration_exec total to_check r v) as (Ev & Ec & _ & _ & _ & Ef).
    destruct (iteration_whole total to_check r state done v Hb) as [Hb' _].
    cbv zeta in Ev, Ec, Ef, Hb'.
    set (u := show_progress total (record_found r (mark_checked r v))) in *.
    set (v1 := exec (iteration total to_check r) v) in *.
    assert (Hrs' : rs = (done ++ [r]) ++ rest) by (rewrite Hrs, <- app_assoc; reflexivity).
    assert (Hc1 : checked v1 = c0 + Z.of_nat (length (done ++ [r]))).
    { rewrite Ev. destruct (save_if_due_vars to_check u) as (-> & _).
      rewrite Ec, Hc, length_app. simpl. lia. }
    assert (Hj1 : exists j, (j <= length (done ++ [r]))%nat /\
               Z.of_nat (length (done ++ [r]) - j) <=
                 (c0 + Z.of_nat (length (done ++ [r]))) mod 10 /\
               saved_upto d state rs j v1).
    { rewrite length_app. simpl length.
      destruct ((checked u mod 10 =? 0) || (checked u =? to_check)) eqn:Hdue.
      - exists (length done + 1)%nat. split; [lia|]. split.
        + replace (length done + 1 - (length done + 1))%nat with 0%nat by lia.
          simpl. apply Z.mod_pos_bound. lia.
        + left. rewrite Ev. unfold save_if_due. rewrite Hdue. simpl. f_equal.
          replace (length done + 1)%nat with (length (done ++ [r]))
            by (rewrite length_app; reflexivity).
          rewrite Hrs', take_app_length.
          apply boundary_snapshot.
          destruct Hb' as [Hb1 Hb2]. rewrite Ev in Hb1, Hb2.
          destruct (save_if_due_vars to_check u) as (_ & _ & Eo & Es & _).
          rewrite Eo in Hb2. rewrite Es in Hb1. split; assumption.
      - destruct Hj as (j & Hjle & Hlag & Hsaved). exists j. split; [lia|].
        assert (Hsame : v1 = u).
        { rewrite Ev. unfold save_if_due. rewrite Hdue. reflexivity. }
        apply orb_false_iff in Hdue as [Hmod _]. apply Z.eqb_neq in Hmod.
        rewrite Ec, Hc in Hmod. split.
        + replace (Z.of_nat (length done + 1 - j)) with (Z.of_nat (length done - j) + 1) by lia.
          replace (c0 + Z.of_nat (length done + 1)) with (c0 + Z.of_nat (length done) + 1) by lia.
          revert Hlag Hmod. generalize (Z.of_nat (length done - j)).
          generalize (c0 + Z.of_nat (length done)). clear.
          intros c a. Z.div_mod_to_equations. lia.
        + unfold saved_upto in *. rewrite Hsame, Ef. exact Hsaved. }
    destruct (IH (done ++ [r]) v1 k Hrs' Hb' Hc1 Hj1 ltac:(simpl in Hk; lia)) as [Hc2 Hj2].
    rewrite length_app in Hc2, Hj2. simpl length in Hc2, Hj2.
    replace (length done + S k)%nat with (length done + 1 + k)%nat by lia. auto.
Qed.

End CheckerCounters.

(** X13. The periodic save of 2.ollama-checker.py keeps the state file at
    most nine probes behind: after [k] whole turns of the loop the counter
    [checked] is the number of keys loaded plus [k], and ollama-state.json
    holds the checkpoint of the first [j] completions for some [j] with
    [j <= k <= j + 9] (for [j = 0] it may still be as the run found it).
    A process killed between two turns loses the outcome of at most nine
    probes already handled. *)
Theorem checkpoint_lags_by_at_most_nine
    (w : Checker.world) (d : Checker.disk) (rows : list Checker.unit_) (k : nat) :
  let state := Checker.loaded d in
  let rs := Checker.completions w (Checker.dispatched state rows) in
  Checker.dispatched state rows <> [] ->
  (k <= length rs)%nat ->
  let v := Checker.exec (take (2 + 4 * k) (Checker.script w state rows))
                        (Checker.start d) in
  Checker.checked v = Z.of_nat (size (Checker.checked_keys state)) + Z.of_nat k /\
  exists j, (j <= k <= j + 9)%nat /\
    (Checker.state_json (Checker.files v) =
       Holds (Checker.snapshot state (take j rs)) \/
     (j = 0%nat /\ Checker.state_json (Checker.files v) = Checker.state_json d)).
Proof.
  intros state rs Hd Hk.
  destruct (Checker.dispatched state rows) as [|u us] eqn:Hdisp; [contradiction|].
  destruct (script_loop w state rows u us Hdisp) as (s1 & Hscript & Hs1).
  cbv zeta. rewrite Hscript, Hdisp.
  set (total := Z.of_nat (length (Checker.hosts_list_of rows))).
  set (to_check := Z.of_nat (length (u :: us))).
  fold rs.
  replace (2 + 4 * k)%nat with (length [s1; CheckerSpec.init_counters] + 4 * k)%nat
    by reflexivity.
  rewrite take_app_add, exec_app.
  rewrite take_app_le by (rewrite length_iterations; lia).
  destruct (Hs1 (Checker.start d)) as [o Ho].
  set (v2 := Checker.exec [s1; CheckerSpec.init_counters] (Checker.start d)).
  assert (Hv2 : Checker.checked_set v2 = Checker.checked_keys state /\
                Checker.ollama_hosts v2 = Checker.found_rows state /\
                Checker.files v2 = d /\
                Checker.checked v2 = Z.of_nat (size (Checker.checked_keys state))).
  { unfold v2, Checker.exec. cbn [fold_left]. rewrite Ho. repeat split. }
  destruct Hv2 as (E1 & E2 & E3 & E4).
  assert (Hb : Checker.at_boundary state [] v2).
  { destruct (start_boundary d) as [Hc Hf]. unfold Checker.at_boundary.
    rewrite E1, E2. split; [exact Hc | exact Hf]. }
  destruct (loop_lag d state total to_check rs
              (Z.of_nat (size (Checker.checked_keys state))) rs [] v2 k eq_refl Hb)
    as [Hc (j & Hj & Hlag & Hsaved)].
  - rewrite E4. simpl. lia.
  - exists 0%nat. split; [simpl; lia|]. split.
    + simpl. apply Z.mod_pos_bound. lia.
    + right. split; [reflexivity|]. now rewrite E3.
  - exact Hk.
  - simpl in Hc, Hj, Hlag. split; [exact Hc|]. exists j. split; [|exact Hsaved].
    split; [exact Hj|].
    assert (Hmod : (Z.of_nat (size (Checker.checked_keys state)) + Z.of_nat k) mod 10 < 10)
      by (apply Z.mod_pos_bound; lia).
    lia.
Qed.

Lemma checkpoint_lags_by_at_most_nine_witness :
  let state := Checker.loaded Samples.checker_disk in
  let rs := Checker.completions Samples.answering
              (Checker.dispatched state Samples.one_host) in
  let v := Checker.exec (take (2 + 4 * 1) (Checker.script Samples.answering state Samples.one_host))
                        (Checker.start Samples.checker_disk) in
  Checker.checked v = Z.of_nat (size (Checker.checked_keys state)) + Z.of_nat 1 /\
  exists j, (j <= 1 <= j + 9)%nat /\
    (Checker.state_json (Checker.files v) =
       Holds (Checker.snapshot state (take j rs)) \/
     (j = 0%nat /\ Checker.state_json (Checker.files v) =
                   Checker.state_json Samples.checker_disk)).
Proof.
  apply (checkpoint_lags_by_at_most_nine Samples.answering Samples.checker_disk
           Samples.one_host 1).
  - vm_compute. discriminate.
  - vm_compute. lia.
Defined.

Section CheckerSummary.

Import Checker CheckerSpec.

(** Through the loop [found] stays the length of [ollama_hosts]. *)
Lemma loop_found total to_check rest :
  forall v,
    found v = Z.of_nat (length (ollama_hosts v)) ->
    let v' := exec (concat (map (iteration total to_check) rest)) v in
    found v' = Z.of_nat (length (ollama_hosts v')) /\
    exists out, stdout v' = stdout v ++ out.
Proof.
  induction rest as [|r rest IH]; intros v Hf.
  - simpl. split; [exact Hf|]. exists []. now rewrite app_nil_r.
  - cbn [map concat]. cbv zeta. rewrite exec_app.
    destruct (iteration_exec total to_check r v) as (Ev & _ & Efound & Ehosts & _).
    cbv zeta in Ev, Efound, Ehosts.
    set (u := show_progress total (record_found r (mark_checked r v))) in *.
    destruct (save_if_due_vars to_check u) as (_ & Ef & Eo & _ & _ & _ & Eout).
    destruct (IH (exec (iteration total to_check r) v)) as [H1 (out & H2)].
    { rewrite Ev, Ef, Eo, Efound, Ehosts, Hf, length_app.
      destruct (snd r); simpl; lia. }
    split; [exact H1|].
    rewrite H2, Ev, Eout.
    assert (Hu : exists o, stdout u = stdout v ++ [o]).
    { unfold u, show_progress, say. cbn [stdout].
      unfold record_found. destruct (snd r); eexists; reflexivity. }
    destruct Hu as [o ->]. exists ([o] ++ out). now rewrite app_assoc.
Qed.

End CheckerSummary.

(** X14. The summary of 2.ollama-checker.py agrees with the file it
    writes: in a run that had something to check and was not interrupted,
    the counter [found] ends as the length of [ollama_hosts]; when that list
    is not empty the run ends by printing "Found n/total hosts with Ollama
    running" and "Results saved to ollama.csv" with n the number of rows
    written to ollama.csv under the header; when it is empty it prints that
    no host was found and leaves ollama.csv as it was. *)
Theorem summary_counts_the_rows_written
    (w : Checker.world) (d : Checker.disk) (rows : list Checker.unit_) :
  Checker.nmap_csv d = Holds rows ->
  Checker.dispatched (Checker.loaded d) rows <> [] ->
  let v := Checker.final (Checker.main w None d) in
  let total := str_of_int (Z.of_nat (length (Checker.hosts_list_of rows))) in
  Checker.found v = Z.of_nat (length (Checker.ollama_hosts v)) /\
  exists out,
    match Checker.ollama_hosts v with
    | [] =>
        Checker.ollama_csv (Checker.files v) = Checker.ollama_csv d /\
        Checker.stdout v =
          out ++ [Checker.Print LF;
                  Checker.Print ("✗ No hosts with Ollama found (checked " +:+ total +:+ ")")]
    | hs =>
        Checker.ollama_csv (Checker.files v) =
          Some (Checker.csv_header :: map (fun u => [fst u; snd u]) hs) /\
        Checker.stdout v =
          out ++ [Checker.Print LF;
                  Checker.Print ("✓ Found " +:+ str_of_int (Z.of_nat (length hs)) +:+ "/" +:+
                                 total +:+ " hosts with Ollama running");
                  Checker.Print ("Results saved to " +:+ Checker.OLLAMA_CSV)]
    end.
Proof.
  intros Hrows Hd. cbv zeta. rewrite (main_reads w None d rows Hrows). cbv zeta.
  cbn [Checker.final].
  destruct (Checker.dispatched (Checker.loaded d) rows) as [|u us] eqn:Hdisp;
    [contradiction|].
  destruct (script_loop w (Checker.loaded d) rows u us Hdisp) as (s1 & -> & Hs1).
  rewrite Hdisp.
  set (total := Z.of_nat (length (Checker.hosts_list_of rows))).
  set (to_check := Z.of_nat (length (u :: us))).
  set (rs := Checker.completions w (u :: us)).
  rewrite !exec_app.
  set (v2 := Checker.exec [s1; CheckerSpec.init_counters] (Checker.start d)).
  assert (Hf2 : Checker.found v2 = Z.of_nat (length (Checker.ollama_hosts v2))).
  { unfold v2, Checker.exec. cbn [fold_left]. reflexivity. }
  assert (Hb2 : Checker.at_boundary (Checker.loaded d) [] v2 /\
                Checker.checkpoint_whole d (Checker.loaded d) rs v2 /\
                Checker.ollama_csv (Checker.files v2) = Checker.ollama_csv d).
  { destruct (Hs1 (Checker.start d)) as [o Ho].
    unfold v2, Checker.exec. cbn [fold_left]. rewrite Ho.
    destruct (start_boundary d) as [Hc Hf].
    split; [split; assumption|]. split; [|reflexivity].
    split; [reflexivity | left; reflexivity]. }
  destruct Hb2 as (Hb2 & Hck2 & Hcsv2).
  destruct (loop_found total to_check rs v2 Hf2) as [Hf3 (out & Hout)].
  destruct (loop_end d (Checker.loaded d) total to_check rs v2 Hb2 Hck2 Hcsv2)
    as (_ & _ & Hcsv3).
  cbv zeta in Hf3, Hout, Hcsv3.
  set (v3 := Checker.exec (concat (map (Checker.iteration total to_check) rs)) v2) in *.
  change (Checker.exec [Checker.say (Checker.Print LF); Checker.write_results total;
                        Checker.save_state] v3)
    with (Checker.save_state (Checker.write_results total (Checker.say (Checker.Print LF) v3))).
  unfold Checker.write_results. cbn [Checker.say Checker.ollama_hosts].
  destruct (Checker.ollama_hosts v3) as [|h hs] eqn:Hhosts.
  - cbn. rewrite Hhosts. split; [exact Hf3|].
    exists (Checker.stdout v3). split; [exact Hcsv3|].
    rewrite <- app_assoc. reflexivity.
  - cbn. rewrite Hhosts. split; [exact Hf3|].
    exists (Checker.stdout v3). split; [reflexivity|].
    rewrite Hf3. rewrite <- !app_assoc. reflexivity.
Qed.

Lemma summary_counts_the_rows_written_witness :
  let v := Checker.final (Checker.main Samples.answering None Samples.checker_disk) in
  let total := str_of_int (Z.of_nat (length (Checker.hosts_list_of Samples.one_host))) in
  Checker.found v = Z.of_nat (length (Checker.ollama_hosts v)) /\
  exists out,
    match Checker.ollama_hosts v with
    | [] =>
        Checker.ollama_csv (Checker.files v) = Checker.ollama_csv Samples.checker_disk /\
        Checker.stdout v =
          out ++ [Checker.Print LF;
                  Checker.Print ("✗ No hosts with Ollama found (checked " +:+ total +:+ ")")]
    | hs =>
        Checker.ollama_csv (Checker.files v) =
          Some (Checker.csv_header :: map (fun u => [fst u; snd u]) hs) /\
        Checker.stdout v =
          out ++ [Checker.Print LF;
                  Checker.Print ("✓ Found " +:+ str_of_int (Z.of_nat (length hs)) +:+ "/" +:+
                                 total +:+ " hosts with Ollama running");
                  Checker.Print ("Results saved to " +:+ Checker.OLLAMA_CSV)]
    end.
Proof.
  apply (summary_counts_the_rows_written Samples.answering Samples.checker_disk
           Samples.one_host).
  - reflexivity.
  - vm_compute. discriminate.
Defined.

Section CheckerInterrupt.

Import Checker CheckerSpec.

Lemma iteration_vars total to_check r v n :
  checked_set (exec (take n (iteration total to_check r)) v) =
    (if (1 <=? n)%nat then {[ key (fst r) ]} ∪ checked_set v else checked_set v) /\
  ollama_hosts (exec (take n (iteration total to_check r)) v) =
    ollama_hosts v ++ (if (2 <=? n)%nat then (if snd r then [fst r] else []) else []).
Proof.
  split; [|apply iteration_hosts].
  destruct (save_if_due_vars to_check
              (show_progress total (record_found r (mark_checked r v))))
    as (_ & _ & _ & Es & _).
  destruct r as [[h p] [|]];
    destruct n as [|[|[|[|n]]]]; unfold exec; cbn [take iteration fold_left];
    rewrite ?take_nil; cbn [fold_left Nat.leb]; rewrite ?Es; reflexivity.
Qed.

Lemma loop_vars_prefix state total to_check rs rest :
  forall done v n,
    rs = done ++ rest ->
    at_boundary state done v ->
    exists k k',
      vars_at state rs k k'
        (exec (take n (concat (map (iteration total to_check) rest))) v).
Proof.
  induction rest as [|r rest IH]; intros done v n Hrs Hb.
  - exists (length done), (length done). unfold vars_at. simpl. rewrite take_nil.
    simpl. rewrite Hrs, take_app_length. split; [lia | exact Hb].
  - cbn [map concat]. destruct (decide (n <= 3)%nat) as [Hn|Hn].
    + rewrite take_app_le by (simpl; lia).
      destruct (iteration_vars total to_check r v n) as [Ec Eo].
      destruct (snapshot_snoc state done r) as [Sc So].
      destruct Hb as [Hc Hf].
      assert (Hsnoc : take (length (done ++ [r])) rs = done ++ [r]).
      { replace rs with ((done ++ [r]) ++ rest)
          by (rewrite Hrs, <- app_assoc; reflexivity).
        apply take_app_length. }
      assert (Hdone : take (length done) rs = done)
        by (rewrite Hrs; apply take_app_length).
      destruct n as [|[|n]].
      * exists (length done), (length done). unfold vars_at.
        rewrite Ec, Eo, Hdone. cbn [Nat.leb]. rewrite app_nil_r. split; [lia|]. auto.
      * exists (length (done ++ [r])), (length done). unfold vars_at.
        rewrite Ec, Eo, Hsnoc, Hdone, Sc, Hc. cbn [Nat.leb]. rewrite app_nil_r, length_app.
        simpl length. split; [lia|]. auto.
      * exists (length (done ++ [r])), (length (done ++ [r])). unfold vars_at.
        rewrite Ec, Eo, Hsnoc, Sc, So, Hc, Hf. cbn [Nat.leb]. split; [lia|]. auto.
    + rewrite take_app_ge by (simpl; lia). rewrite exec_app.
      apply (IH (done ++ [r])).
      * rewrite Hrs, <- app_assoc. reflexivity.
      * apply (iteration_whole total to_check r state done v Hb).
Qed.

(** Wherever the [try] block stands, the variables hold the keys of the
    first [k] completions and the rows found among the first [k'], with
    [k' <= k <= k' + 1]. *)
Lemma checker_vars_prefix w d rows n :
  exists k k',
    vars_at (loaded d) (completions w (dispatched (loaded d) rows)) k k'
      (exec (take n (script w (loaded d) rows)) (start d)).
Proof.
  set (state := loaded d).
  destruct (start_boundary d) as [Hc Hf]. fold state in Hc, Hf.
  destruct (dispatched state rows) as [|u us] eqn:Hd.
  - exists 0%nat, 0%nat. rewrite (script_complete w state rows Hd). unfold report_complete.
    unfold vars_at. rewrite take_0. split; [lia|].
    destruct n as [|[|n]]; unfold exec; cbn [take fold_left];
      rewrite ?take_nil; cbn [fold_left]; rewrite ?rewrite_results_hosts.
    + auto.
    + auto.
    + split; [|exact Hf].
      unfold rewrite_results, announce_complete.
      destruct (ollama_hosts _); exact Hc.
  - destruct (script_resuming w state rows u us Hd)
      as (s1 & s2 & total & to_check & -> & H1 & H2).
    rewrite Hd.
    set (rs := completions w (u :: us)).
    set (loop := concat (map (iteration total to_check) rs)).
    destruct (H2 (s1 (start d))) as (F2 & C2 & O2).
    destruct (H1 (start d)) as (F1 & C1 & O1).
    assert (Hb2 : at_boundary state [] (s2 (s1 (start d)))).
    { unfold at_boundary. rewrite C2, C1, O2, O1. split; assumption. }
    destruct (decide (n <= 2)%nat) as [Hn|Hn].
    + exists 0%nat, 0%nat. unfold vars_at. rewrite take_0.
      rewrite take_app_le by (simpl; lia). split; [lia|].
      destruct n as [|[|[|n]]]; try lia; unfold exec; cbn [take fold_left];
        rewrite ?C2, ?C1, ?O2, ?O1; auto.
    + rewrite take_app_ge by (simpl; lia). rewrite exec_app. simpl length.
      change (exec [s1; s2] (start d)) with (s2 (s1 (start d))).
      destruct (decide (n - 2 <= length loop)%nat) as [Hm|Hm].
      * rewrite take_app_le by exact Hm.
        apply (loop_vars_prefix state total to_check rs rs [] _ (n - 2) eq_refl Hb2).
      * rewrite take_app_ge by lia. rewrite exec_app.
        pose proof (loop_whole state total to_check rs [] _ Hb2) as [Hc3 Hf3].
        simpl app in Hc3, Hf3. fold loop in Hc3, Hf3.
        exists (length rs), (length rs). unfold vars_at.
        rewrite (take_ge rs (length rs)) by lia. split; [lia|].
        rewrite <- Hc3, <- Hf3.
        set (v3 := exec loop (s2 (s1 (start d)))).
        destruct (write_results_files total (say (Print LF) v3)) as (_ & _ & E3 & E4).
        destruct (n - 2 - length loop)%nat as [|[|[|m]]]; unfold exec;
          cbn [take fold_left]; rewrite ?take_nil; cbn [fold_left];
          cbn [save_state ollama_hosts checked_set]; rewrite ?E3, ?E4; auto.
Qed.

End CheckerInterrupt.

(** C7 (as the code has it).  In scanner.py a step appends a row to the CSV
    file only for a host with a non-empty list of open ports in a scan that
    returned, the row holding the host and its open ports joined by commas,
    and by the time a worker stands before [save_state()] every such host of
    its scan has its row; a scan that raises adds nothing.  In
    2.ollama-checker.py a probe that meets a [RequestException] is negative,
    one that gets a response is positive exactly on the marker text or
    status 200; however the run ends, interrupted or not, the keys marked
    are those of the first [k] units handed back and the rows found are
    those of the checkpoint followed by the positive units among the first
    [k'], with [k' <= k <= k' + 1]; after a whole run the rows found are all
    the positive units and no other, and ollama.csv holds the header and
    these rows, or is left as it was when there is none. *)
Theorem sink_holds_exactly_interesting_outcomes :
  (forall (w : Scanner.world) (d : Scanner.disk) (st0 st st' : Scanner.state)
          (msgs : list string) (sched : list Scanner.actor) (a : Scanner.actor),
     Scanner.boot d = Ok (st0, msgs) ->
     Scanner.run w sched st0 = Some st ->
     Scanner.step w a st = Some st' ->
     Scanner.csv (Scanner.mem st') = Scanner.csv (Scanner.mem st) \/
     exists i att res n h,
       a = Scanner.Worker i /\ Scanner.scan_outcome w i att = Some res /\
       res !! n = Some h /\ Scanner.open_ports h <> [] /\
       Scanner.csv (Scanner.mem st') =
       Scanner.csv (Scanner.mem st) ++
       [[Scanner.host_name h; join "," (Scanner.open_ports h)]]) /\
  (forall (w : Scanner.world) (d : Scanner.disk) (st0 st : Scanner.state)
          (msgs : list string) (sched : list Scanner.actor)
          (i : nat) (wk : Scanner.worker) (att : nat) (res : Scanner.scan_result),
     Scanner.boot d = Ok (st0, msgs) ->
     Scanner.run w sched st0 = Some st ->
     Scanner.workers st !! i = Some wk ->
     Scanner.at_ wk = Some (Scanner.AtSave att res) ->
     Scanner.scan_outcome w i att = Some res /\
     forall h, h ∈ res -> Scanner.open_ports h <> [] ->
               [Scanner.host_name h; join "," (Scanner.open_ports h)]
               ∈ Scanner.csv (Scanner.mem st)) /\
  (forall (w : Checker.world) (host port msg : string),
     Checker.net w ("http://" +:+ host +:+ ":" +:+ port) = Checker.Refused msg ->
     Checker.check_ollama_host w host port = (host, port, false)) /\
  (forall (w : Checker.world) (host port text : string) (code : Z),
     Checker.net w ("http://" +:+ host +:+ ":" +:+ port) = Checker.Answer code text ->
     Checker.check_ollama_host w host port =
     (host, port, contains "Ollama is running" text || (code =? 200))) /\
  (forall (w : Checker.world) (stop : option nat) (d : Checker.disk)
          (rows : list Checker.unit_),
     Checker.nmap_csv d = Holds rows ->
     let rs := Checker.completions w (Checker.dispatched (Checker.loaded d) rows) in
     let v := Checker.final (Checker.main w stop d) in
     exists k k',
       (k' <= k <= k' + 1)%nat /\
       Checker.checked_set v =
         list_to_set (map (fun r => Checker.key (fst r)) (take k rs)) ∪
         Checker.checked_keys (Checker.loaded d) /\
       Checker.ollama_hosts v =
         Checker.found_rows (Checker.loaded d) ++
         map fst (List.filter snd (take k' rs))) /\
  (forall (w : Checker.world) (d : Checker.disk) (rows : list Checker.unit_),
     Checker.fair w ->
     Checker.nmap_csv d = Holds rows ->
     let rs := Checker.completions w (Checker.dispatched (Checker.loaded d) rows) in
     let v := Checker.final (Checker.main w None d) in
     Checker.ollama_hosts v =
       Checker.found_rows (Checker.loaded d) ++ map fst (List.filter snd rs) /\
     Checker.ollama_csv (Checker.files v) =
       match Checker.ollama_hosts v with
       | [] => Checker.ollama_csv d
       | hs => Some (["Host"; "Open Ports"]%string :: map (fun u => [fst u; snd u]) hs)
       end).
Proof.
  assert (Hopen : forall h, Scanner.open_ports h <> [] <-> Scanner.interesting h = true).
  { intros h. unfold Scanner.interesting.
    destruct (Scanner.open_ports h); split; congruence. }
  split; [|split; [|split; [|split; [|split]]]].
  - intros w d st0 st st' msgs sched a Hb Hrun Hstep.
    destruct (scanner_rows_only_interesting w d st0 msgs sched st a st' Hb Hrun Hstep)
      as [E | (i & att & res & n & h & Ha & Hs & Hn & Hi & E)]; [now left|].
    right. exists i, att, res, n, h. rewrite Hopen. auto.
  - intros w d st0 st msgs sched i wk att res Hb Hrun Hwk Hat.
    destruct (behind_sink_run w d st0 msgs sched st Hb Hrun) as [_ Hsave _ _].
    destruct (Hsave i wk att res Hwk Hat) as [Hs Hrows]. split; [exact Hs|].
    intros h Hh Hi. apply Hopen in Hi. exact (Hrows h Hh Hi).
  - exact check_refused.
  - intros w host port text code. apply check_answer.
  - intros w stop d rows Hrows. cbv zeta.
    rewrite (main_reads w stop d rows Hrows). cbv zeta.
    assert (Hat : forall n,
              exists k k',
                CheckerSpec.vars_at (Checker.loaded d)
                  (Checker.completions w (Checker.dispatched (Checker.loaded d) rows))
                  k k'
                  (Checker.exec (take n (Checker.script w (Checker.loaded d) rows))
                                (Checker.start d))).
    { intros n. apply checker_vars_prefix. }
    assert (Hfull : exists k k',
              CheckerSpec.vars_at (Checker.loaded d)
                (Checker.completions w (Checker.dispatched (Checker.loaded d) rows))
                k k'
                (Checker.exec (Checker.script w (Checker.loaded d) rows)
                              (Checker.start d))).
    { destruct (Hat (length (Checker.script w (Checker.loaded d) rows)))
        as (k & k' & H). rewrite take_ge in H by lia. eauto. }
    destruct stop as [n|]; [destruct (n <? _)%nat|].
    + destruct (Hat n) as (k & k' & Hk & Hc & Hf). exists k, k'.
      split; [exact Hk|]. split; [exact Hc | exact Hf].
    + destruct Hfull as (k & k' & Hk & Hc & Hf). exists k, k'.
      split; [exact Hk|]. split; [exact Hc | exact Hf].
    + destruct Hfull as (k & k' & Hk & Hc & Hf). exists k, k'.
      split; [exact Hk|]. split; [exact Hc | exact Hf].
  - intros w d rows Hfair Hrows.
    destruct (checker_found_rows w d rows Hfair Hrows) as [H1 H2]. cbv zeta.
    split; [exact H1|]. rewrite H2. unfold Checker.reported_csv.
    destruct (Checker.ollama_hosts _); reflexivity.
Qed.

Lemma sink_holds_exactly_interesting_outcomes_witness :
  (exists st0 msgs st st',
     Scanner.boot fresh_disk = Ok (st0, msgs) /\
     Scanner.run live_world (one_worker 1) st0 = Some st /\
     Scanner.step live_world (Scanner.Worker 0) st = Some st' /\
     (Scanner.csv (Scanner.mem st') = Scanner.csv (Scanner.mem st) \/
      exists i att res n h,
        Scanner.Worker 0 = Scanner.Worker i /\
        Scanner.scan_outcome live_world i att = Some res /\
        res !! n = Some h /\ Scanner.open_ports h <> [] /\
        Scanner.csv (Scanner.mem st') =
        Scanner.csv (Scanner.mem st) ++
        [[Scanner.host_name h; join "," (Scanner.open_ports h)]])) /\
  (exists st0 msgs st wk,
     Scanner.boot fresh_disk = Ok (st0, msgs) /\
     Scanner.run live_world (one_worker 4) st0 = Some st /\
     Scanner.workers st !! 0%nat = Some wk /\
     Scanner.at_ wk = Some (Scanner.AtSave 0 [open_host; closed_host]) /\
     Scanner.scan_outcome live_world 0 0 = Some [open_host; closed_host] /\
     forall h, h ∈ [open_host; closed_host] -> Scanner.open_ports h <> [] ->
               [Scanner.host_name h; join "," (Scanner.open_ports h)]
               ∈ Scanner.csv (Scanner.mem st)) /\
  Checker.check_ollama_host silent "10.0.0.5" "11434" = ("10.0.0.5", "11434", false)%string /\
  Checker.check_ollama_host answering "10.0.0.5" "11434" =
    ("10.0.0.5"%string, "11434"%string,
     contains "Ollama is running" "Ollama is running" || (200 =? 200)) /\
  (let rs := Checker.completions answering
               (Checker.dispatched (Checker.loaded checker_disk) one_host) in
   let v := Checker.final (Checker.main answering (Some 4%nat) checker_disk) in
   exists k k',
     (k' <= k <= k' + 1)%nat /\
     Checker.checked_set v =
       list_to_set (map (fun r => Checker.key (fst r)) (take k rs)) ∪
       Checker.checked_keys (Checker.loaded checker_disk) /\
     Checker.ollama_hosts v =
       Checker.found_rows (Checker.loaded checker_disk) ++
       map fst (List.filter snd (take k' rs))) /\
  (let rs := Checker.completions answering
               (Checker.dispatched (Checker.loaded checker_disk) one_host) in
   let v := Checker.final (Checker.main answering None checker_disk) in
   Checker.ollama_hosts v =
     Checker.found_rows (Checker.loaded checker_disk) ++ map fst (List.filter snd rs) /\
   Checker.ollama_csv (Checker.files v) =
     match Checker.ollama_hosts v with
     | [] => Checker.ollama_csv checker_disk
     | hs => Some (["Host"; "Open Ports"]%string :: map (fun u => [fst u; snd u]) hs)
     end).
Proof.
  split; [|split; [|split; [|split; [|split]]]].
  - do 4 eexists. split; [vm_compute; reflexivity|].
    split; [vm_compute; reflexivity|]. split; [vm_compute; reflexivity|].
    eapply (proj1 sink_holds_exactly_interesting_outcomes live_world fresh_disk
              _ _ _ _ (one_worker 1)).
    + vm_compute; reflexivity.
    + vm_compute; reflexivity.
    + vm_compute; reflexivity.
  - do 4 eexists. split; [vm_compute; reflexivity|]. split; [vm_compute; reflexivity|].
    split; [vm_compute; reflexivity|]. split; [vm_compute; reflexivity|].
    eapply (proj1 (proj2 sink_holds_exactly_interesting_outcomes)
              live_world fresh_disk _ _ _ (one_worker 4)).
    + vm_compute; reflexivity.
    + vm_compute; reflexivity.
    + vm_compute; reflexivity.
    + vm_compute; reflexivity.
  - apply (proj1 (proj2 (proj2 sink_holds_exactly_interesting_outcomes))
             silent "10.0.0.5"%string "11434"%string "timed out"%string).
    vm_compute; reflexivity.
  - apply (proj1 (proj2 (proj2 (proj2 sink_holds_exactly_interesting_outcomes)))
             answering "10.0.0.5"%string "11434"%string "Ollama is running"%string 200).
    vm_compute; reflexivity.
  - apply (proj1 (proj2 (proj2 (proj2 (proj2 sink_holds_exactly_interesting_outcomes))))
             answering (Some 4%nat) checker_disk one_host).
    vm_compute; reflexivity.
  - apply (proj2 (proj2 (proj2 (proj2 (proj2 sink_holds_exactly_interesting_outcomes))))
             answering checker_disk one_host).
    + intros l; reflexivity.
    + vm_compute; reflexivity.
Defined.

(** C7 (as stated) fails in 2.ollama-checker.py: the sink ollama.csv is
    written once, after the loop.  With one host that answers and an
    interrupt after the fourth statement of the [try] block, the probe was
    handed to the pool, its outcome is positive and its row is among the
    rows found that the state file keeps, and ollama.csv was never
    written. *)
Lemma interrupted_run_writes_no_sink :
  let out := Checker.main answering (Some 4%nat) checker_disk in
  Checker.probes out = [("10.0.0.5", "11434")%string] /\
  snd (Checker.check_ollama_host answering "10.0.0.5" "11434") = true /\
  Checker.ollama_hosts (Checker.final out) = [("10.0.0.5", "11434")%string] /\
  Checker.exit_code out = 0 /\
  Checker.ollama_csv (Checker.files (Checker.final out)) = None.
Proof. repeat split; vm_compute; reflexivity. Qed.


(** X15. Interrupt, then resume.  When a [KeyboardInterrupt] stops
    2.ollama-checker.py inside its [try] block, the state file it leaves
    holds the keys of the first [k] probes handed back and the rows found
    among the first [k'], with [k' <= k <= k' + 1]: the rows are at most one
    probe behind the keys.  The next run hands to its pool exactly the hosts
    of the input whose key is not among those keys: no probe already handled
    is repeated, and every host not yet handled is probed again. *)
Theorem resume_after_interrupt
    (w1 w2 : Checker.world) (d : Checker.disk) (rows : list Checker.unit_) (n : nat) :
  Checker.nmap_csv d = Holds rows ->
  (n < length (Checker.script w1 (Checker.loaded d) rows))%nat ->
  let state := Checker.loaded d in
  let rs := Checker.completions w1 (Checker.dispatched state rows) in
  let d1 := Checker.files (Checker.final (Checker.main w1 (Some n) d)) in
  exists k k',
    (k' <= k <= k' + 1)%nat /\
    Checker.state_json d1 =
      Holds {| Checker.checked_keys := Checker.checked_keys (Checker.snapshot state (take k rs));
               Checker.found_rows := Checker.found_rows (Checker.snapshot state (take k' rs)) |} /\
    Checker.probes (Checker.main w2 None d1) =
      Checker.hosts_to_check_of
        (Checker.checked_keys (Checker.snapshot state (take k rs)))
        (Checker.hosts_list_of rows).
Proof.
  intros Hrows Hn. cbv zeta.
  rewrite (main_reads w1 (Some n) d rows Hrows). cbv zeta.
  apply Nat.ltb_lt in Hn. rewrite Hn. cbn [Checker.final].
  destruct (checker_vars_prefix w1 d rows n) as (k & k' & Hk & Hc & Hf).
  destruct (checker_prefix w1 d rows n) as [Hnmap _].
  set (v := Checker.exec (take n (Checker.script w1 (Checker.loaded d) rows))
                         (Checker.start d)) in *.
  exists k, k'. split; [exact Hk|].
  assert (Hstate : Checker.state_json (Checker.files (Checker.on_interrupt v)) =
                   Holds {| Checker.checked_keys := Checker.checked_set v;
                            Checker.found_rows := Checker.ollama_hosts v |})
    by reflexivity.
  assert (Hin : Checker.nmap_csv (Checker.files (Checker.on_interrupt v)) = Holds rows).
  { rewrite <- Hrows, <- Hnmap. reflexivity. }
  rewrite Hc, Hf in Hstate. split; [exact Hstate|].
  rewrite (main_reads w2 None _ rows Hin). cbv zeta. cbn [Checker.probes].
  rewrite (loaded_holds _ _ Hstate). reflexivity.
Qed.

Lemma resume_after_interrupt_witness :
  let state := Checker.loaded Samples.checker_disk in
  let rs := Checker.completions Samples.answering
              (Checker.dispatched state Samples.one_host) in
  let d1 := Checker.files (Checker.final
              (Checker.main Samples.answering (Some 3%nat) Samples.checker_disk)) in
  exists k k',
    (k' <= k <= k' + 1)%nat /\
    Checker.state_json d1 =
      Holds {| Checker.checked_keys := Checker.checked_keys (Checker.snapshot state (take k rs));
               Checker.found_rows := Checker.found_rows (Checker.snapshot state (take k' rs)) |} /\
    Checker.probes (Checker.main Samples.silent None d1) =
      Checker.hosts_to_check_of
        (Checker.checked_keys (Checker.snapshot state (take k rs)))
        (Checker.hosts_list_of Samples.one_host).
Proof.
  apply (resume_after_interrupt Samples.answering Samples.silent Samples.checker_disk
           Samples.one_host 3).
  - reflexivity.
  - vm_compute. lia.
Defined.

(** ** 3. ollama-model-list.py: what [fetch_ollama_info] reports *)

Section FetchReport.

Import ModelList FetchSpec.

Lemma model_names_objects ms :
  Forall (fun m => exists fields, m = JObj fields) ms ->
  model_names ms = Ok (List.filter truthy (map name_of ms)).
Proof.
  induction 1 as [|m ms [fields ->] _ IH]; [reflexivity|].
  cbn [model_names map List.filter get name_of].
  change (Ok (default JNull (assoc "name" fields)) ≫= ?k)
    with (k (default JNull (assoc "name" fields))).
  cbv beta. destruct (truthy (default JNull (assoc "name" fields))); [|exact IH].
  change (Ok (default JNull (assoc "name" fields)) ≫= ?k)
    with (k (default JNull (assoc "name" fields))).
  cbv beta. rewrite IH. reflexivity.
Qed.

Lemma model_names_truthy ms names :
  model_names ms = Ok names -> Forall (fun n => truthy n = true) names.
Proof.
  revert names. induction ms as [|m ms IH]; intros names; simpl.
  - intros [= <-]. constructor.
  - destruct (get m "name") as [c|] eqn:Hg; simpl; [|discriminate].
    destruct (truthy c) eqn:Ht; [|apply IH].
    destruct (model_names ms) as [rest|]; simpl; [|discriminate].
    intros [= <-]. constructor; [exact Ht | apply IH; reflexivity].
Qed.

Lemma fetch_models_truthy net base_url timeout names :
  fetch_models net base_url timeout = Ok names ->
  Forall (fun n => truthy n = true) names.
Proof.
  unfold fetch_models.
  destruct (net (base_url +:+ "/api/tags") timeout) as [msg|code reason text body];
    [discriminate|].
  destruct (raise_for_status _ code reason) as [[]|]; simpl; [|discriminate].
  destruct body as [tags|]; simpl; [|discriminate].
  destruct (get_default tags "models" (JArr [])) as [models|]; simpl; [|discriminate].
  destruct (iterate models) as [ms|]; simpl; [|discriminate].
  apply model_names_truthy.
Qed.

End FetchReport.

(** X16. Whatever the host answers, the dictionary [fetch_ollama_info]
    returns has "runtime" equal to "unknown" (the function never detects a
    runtime) and "models" equal to a list of truthy values; when the status
    is "error" that list is empty: a failure while the names are being read
    discards the names already read. *)
Theorem fetch_ollama_info_models_and_runtime
    (net : ModelList.network) (host : string) (timeout : Z) :
  exists (r : gmap string json) (names : list json),
    ModelList.fetch_ollama_info net host timeout = Ok r /\
    r !! "runtime"%string = Some (JStr "unknown") /\
    r !! "models"%string = Some (JArr names) /\
    Forall (fun n => truthy n = true) names /\
    (r !! "status"%string = Some (JStr "error") -> names = []).
Proof.
  unfold ModelList.fetch_ollama_info.
  destruct (ModelList.fetch_models net (ModelList.base_url_of host) timeout)
    as [names|e] eqn:Hf.
  - eexists. exists names. split; [reflexivity|]. split; [reflexivity|].
    split; [reflexivity|]. split; [eapply fetch_models_truthy; exact Hf|].
    intros H. discriminate H.
  - rewrite (fetch_models_raises_exception _ _ _ _ Hf).
    eexists. exists []. split; [reflexivity|]. split; [reflexivity|].
    split; [reflexivity|]. split; [constructor | reflexivity].
Qed.

Lemma fetch_ollama_info_models_and_runtime_witness :
  exists (r : gmap string json) (names : list json),
    ModelList.fetch_ollama_info (fun _ _ => ModelList.Unreachable "timed out")
      "10.0.0.5:11434" 5 = Ok r /\
    r !! "runtime"%string = Some (JStr "unknown") /\
    r !! "models"%string = Some (JArr names) /\
    Forall (fun n => truthy n = true) names /\
    (r !! "status"%string = Some (JStr "error") -> names = []).
Proof.
  exact (fetch_ollama_info_models_and_runtime
           (fun _ _ => ModelList.Unreachable "timed out") "10.0.0.5:11434" 5).
Defined.

(** X17. The success path of [fetch_ollama_info]: when the host answers
    /api/tags with a status outside 400-599 and a JSON object whose "models"
    entry is a list of objects, the result has status "ok", no error, and
    its models are the "name" values of those objects that are truthy, in
    the order of the list; entries without a name, or with an empty one,
    are left out without an error. *)
Theorem fetch_ollama_info_lists_named_models
    (net : ModelList.network) (host : string) (timeout code : Z)
    (reason text : string) (members : list (string * json)) (ms : list json) :
  net (ModelList.base_url_of host +:+ "/api/tags") timeout =
    ModelList.Response code reason text (Some (JObj members)) ->
  (code < 400 \/ 600 <= code) ->
  assoc "models" members = Some (JArr ms) ->
  Forall (fun m => exists fields, m = JObj fields) ms ->
  exists r : gmap string json,
    ModelList.fetch_ollama_info net host timeout = Ok r /\
    r !! "status"%string = Some (JStr "ok") /\
    r !! "error"%string = Some JNull /\
    r !! "models"%string =
      Some (JArr (List.filter truthy (map FetchSpec.name_of ms))).
Proof.
  intros Hnet Hcode Hmodels Hobjs.
  assert (Hf : ModelList.fetch_models net (ModelList.base_url_of host) timeout =
               Ok (List.filter truthy (map FetchSpec.name_of ms))).
  { unfold ModelList.fetch_models. rewrite Hnet.
    assert (Hs : ModelList.raise_for_status
                   (ModelList.base_url_of host +:+ "/api/tags") code reason = Ok tt).
    { unfold ModelList.raise_for_status.
      destruct ((400 <=? code) && (code <? 500)) eqn:E1; [lia|].
      destruct ((500 <=? code) && (code <? 600)) eqn:E2; [lia|]. reflexivity. }
    rewrite Hs. simpl. rewrite Hmodels. simpl.
    apply model_names_objects. exact Hobjs. }
  unfold ModelList.fetch_ollama_info. rewrite Hf.
  eexists. split; [reflexivity|]. repeat split.
Qed.

Lemma fetch_ollama_info_lists_named_models_witness :
  exists r : gmap string json,
    ModelList.fetch_ollama_info (FetchSpec.serving FetchSpec.tags_sample)
      "10.0.0.5:11434" 5 = Ok r /\
    r !! "status"%string = Some (JStr "ok") /\
    r !! "error"%string = Some JNull /\
    r !! "models"%string =
      Some (JArr (List.filter truthy (map FetchSpec.name_of FetchSpec.models_sample))).
Proof.
  eapply (fetch_ollama_info_lists_named_models (FetchSpec.serving FetchSpec.tags_sample)
            "10.0.0.5:11434" 5 200 "OK" "" _ FetchSpec.models_sample).
  - reflexivity.
  - left. lia.
  - reflexivity.
  - repeat constructor; eexists; reflexivity.
Defined.

(** ** 3. ollama-model-list.py: reading the hosts *)

Section Stripping.

Import HostList.

Lemma rstrip_cons_nonspace c s :
  is_space c = false -> rstrip (String c s) = String c (rstrip s).
Proof. intros H. simpl. destruct (rstrip s); [rewrite H|]; reflexivity. Qed.

Lemma rstrip_idem s : rstrip (rstrip s) = rstrip s.
Proof.
  induction s as [|c s IH]; [reflexivity|]. simpl.
  destruct (rstrip s) as [|c' r] eqn:E.
  - destruct (is_space c) eqn:Hc; [reflexivity|]. simpl. rewrite Hc. reflexivity.
  - change (rstrip (String c (String c' r)) = String c (String c' r)).
    cbn [rstrip]. cbn [rstrip] in IH. rewrite IH. reflexivity.
Qed.

Lemma lstrip_head s :
  lstrip s = EmptyString \/ exists c r, lstrip s = String c r /\ is_space c = false.
Proof.
  induction s as [|c s IH]; [now left|]. simpl.
  destruct (is_space c) eqn:Hc; [exact IH|]. right. eauto.
Qed.

Lemma lstrip_rstrip_lstrip s : lstrip (rstrip (lstrip s)) = rstrip (lstrip s).
Proof.
  destruct (lstrip_head s) as [->|(c & r & -> & Hc)]; [reflexivity|].
  rewrite (rstrip_cons_nonspace c r Hc). simpl. rewrite Hc. reflexivity.
Qed.

(** What [strip] returns is empty or clean. *)
Lemma strip_clean s : strip s = EmptyString \/ clean (strip s).
Proof.
  destruct (strip s) eqn:E; [now left|]. right. rewrite <- E. unfold strip in *.
  split; [rewrite E; discriminate|]. split.
  - apply lstrip_rstrip_lstrip.
  - apply rstrip_idem.
Qed.

Lemma clean_strip s : clean s -> strip s = s.
Proof. intros (_ & Hl & Hr). unfold strip. now rewrite Hl, Hr. Qed.

Lemma clean_head s : clean s -> exists c r, s = String c r /\ is_space c = false.
Proof.
  intros (Hne & Hl & _). destruct (lstrip_head s) as [E|(c & r & E & Hc)].
  - congruence.
  - rewrite Hl in E. eauto.
Qed.

Lemma rstrip_app_clean a p :
  p <> EmptyString -> rstrip p = p -> rstrip (a +:+ p) = a +:+ p.
Proof.
  intros Hne Hp. induction a as [|c a IH]; [exact Hp|].
  change (rstrip (String c (a +:+ p)) = String c (a +:+ p)).
  cbn [rstrip]. rewrite IH.
  destruct (a +:+ p) eqn:E; [|reflexivity].
  destruct a; simpl in E; [contradiction | discriminate].
Qed.

(** "host:ports" is clean when both parts are. *)
Lemma clean_key h p : clean h -> clean p -> clean (h +:+ ":" +:+ p).
Proof.
  intros Hh Hp. destruct (clean_head h Hh) as (c & r & -> & Hc).
  destruct Hp as (Hne & _ & Hr). split; [discriminate|]. split.
  - change (lstrip (String c (r +:+ ":" +:+ p)) = String c (r +:+ ":" +:+ p)).
    simpl. rewrite Hc. reflexivity.
  - apply rstrip_app_clean; [discriminate|].
    change (rstrip (String ":" p) = String ":" p).
    rewrite rstrip_cons_nonspace by reflexivity. now rewrite Hr.
Qed.

End Stripping.

Section HostRows.

Import HostList.

Variable repr : json -> string.

Lemma well_keyed_set k v d :
  well_keyed d ->
  match k, v with Some _, Rest _ => False | _, _ => True end ->
  well_keyed (dict_set k v d).
Proof.
  intros Hd Hkv. induction Hd as [|[k' v'] d Hx Hd IH]; simpl.
  - constructor; [|constructor]. destruct k, v; auto.
  - case_bool_decide.
    + constructor; [|exact Hd]. destruct k, v; auto.
    + constructor; [exact Hx | exact IH].
Qed.

Lemma dict_row_well_keyed fieldnames row : well_keyed (dict_row fieldnames row).
Proof.
  unfold dict_row.
  assert (H0 : well_keyed
                 (fold_left (fun d kv => dict_set (Some (fst kv)) (Text (snd kv)) d)
                            (zip fieldnames row) [])).
  { generalize (zip fieldnames row). intros l.
    assert (Hnil : well_keyed []) by constructor. revert Hnil.
    generalize (@nil (option string * cell)).
    induction l as [|kv l IH]; intros d Hd; simpl; [exact Hd|].
    apply IH. apply well_keyed_set; [exact Hd | exact I]. }
  destruct (length fieldnames <? length row)%nat.
  - apply well_keyed_set; [exact H0 | exact I].
  - destruct (length row <? length fieldnames)%nat; [|exact H0].
    revert H0. generalize (drop (length row) fieldnames).
    generalize (fold_left (fun d kv => dict_set (Some (fst kv)) (Text (snd kv)) d)
                          (zip fieldnames row) []).
    intros d l. revert d. induction l as [|k l IH]; intros d Hd; simpl; [exact Hd|].
    apply IH. apply well_keyed_set; [exact Hd | exact I].
Qed.

Lemma dict_get_plain k d : well_keyed d -> plain (dict_get k d).
Proof.
  unfold dict_get. intros Hd. induction Hd as [|[k' v] d Hx _ IH]; simpl.
  - now right.
  - case_bool_decide as E; [|exact IH]. subst k'. simpl.
    destruct v; [left; eauto | now right | contradiction].
Qed.

Lemma or_plain a b : plain a -> plain b -> plain (or_ a b).
Proof. intros Ha Hb. unfold or_. destruct (cell_truthy a); assumption. Qed.

(** A plain cell, stripped when it is truthy: nothing is raised, and the
    text is empty or clean. *)
Lemma stripped_or_empty c :
  plain c ->
  exists s, (if cell_truthy c then cell_strip c else Ok EmptyString) = Ok s /\
            (s = EmptyString \/ clean s).
Proof.
  intros [[t ->] | ->]; simpl.
  - destruct (nonempty t); [|eauto]. exists (strip t). split; [reflexivity|].
    apply strip_clean.
  - eauto.
Qed.

Lemma nonempty_clean s : s = EmptyString \/ clean s -> nonempty s = true -> clean s.
Proof. intros [->|H]; [discriminate | auto]. Qed.

(** The body of the loop over the rows raises nothing and adds clean
    hosts only. *)
Lemma hosts_of_row_clean fieldnames row :
  well_keyed row ->
  exists hs, hosts_of_row repr fieldnames row = Ok hs /\ Forall clean hs.
Proof.
  intros Hrow. unfold hosts_of_row.
  pose proof (or_plain _ _ (dict_get_plain "Host" row Hrow)
                (dict_get_plain "host" row Hrow)) as Hhost.
  assert (Hports : plain (or_ (or_ (dict_get "Open Ports" row) (dict_get "open ports" row))
                              (Text ""))).
  { apply or_plain; [apply or_plain; apply dict_get_plain; exact Hrow|]. left. eauto. }
  destruct (bool_decide ("host"%string ∈ fieldnames)); simpl.
  - destruct (bool_decide ("open ports"%string ∈ fieldnames)); simpl.
    + destruct (stripped_or_empty _ Hhost) as (h & -> & Hh).
      destruct (stripped_or_empty _ Hports) as (p & -> & Hp). simpl.
      destruct (nonempty h) eqn:Nh; simpl.
      * destruct (nonempty p) eqn:Np; simpl.
        -- eexists. split; [reflexivity|]. constructor; [|constructor].
           apply clean_key; apply nonempty_clean; assumption.
        -- eexists. split; [reflexivity|]. constructor; [|constructor].
           apply nonempty_clean; assumption.
      * eexists. split; [reflexivity | constructor].
    + destruct Hhost as [[t Ht] | Ht]; rewrite Ht; simpl.
      * destruct (nonempty t); [|eexists; split; [reflexivity | constructor]].
        simpl. destruct (nonempty (strip t)) eqn:Ns.
        -- eexists. split; [reflexivity|]. constructor; [|constructor].
           apply nonempty_clean; [apply strip_clean | exact Ns].
        -- eexists. split; [reflexivity | constructor].
      * eexists. split; [reflexivity | constructor].
  - set (first := match row with [] => Text "" | (_, v) :: _ => v end).
    destruct (cell_truthy first); simpl; [|eexists; split; [reflexivity | constructor]].
    destruct (nonempty (strip (cell_str repr first))) eqn:Ns.
    + eexists. split; [reflexivity|]. constructor; [|constructor].
      apply nonempty_clean; [apply strip_clean | exact Ns].
    + eexists. split; [reflexivity | constructor].
Qed.

Lemma hosts_of_rows_clean fieldnames rows :
  Forall well_keyed rows ->
  exists hs, hosts_of_rows repr fieldnames rows = Ok hs /\ Forall clean hs.
Proof.
  induction 1 as [|row rows Hrow _ (more & Hmore & Hclean)]; simpl.
  - eexists. split; [reflexivity | constructor].
  - destruct (hosts_of_row_clean fieldnames row Hrow) as (hs & -> & Hhs). simpl.
    rewrite Hmore. simpl. eexists. split; [reflexivity|].
    apply Forall_app. split; assumption.
Qed.

Lemma dict_rows_well_keyed rows : Forall well_keyed (dict_rows rows).
Proof.
  unfold dict_rows. destruct rows as [|header rest]; [constructor|].
  apply Forall_forall. intros d Hd. apply list_elem_of_fmap in Hd as (r & -> & _).
  apply dict_row_well_keyed.
Qed.

End HostRows.


(** X18. [load_hosts_from_path] raises nothing on a file it can read,
    whatever the header and the rows, and every host it returns is clean: it
    is not empty and neither begins nor ends with white space.  This holds
    on its four paths: "Host"/"Open Ports" columns (joined as host:ports), a
    host column alone, any other CSV (first column) and plain text (one host
    per line, blank lines skipped). *)
Theorem load_hosts_from_path_returns_clean_hosts
    (repr : json -> string) (f : HostList.hosts_file) :
  exists hs, HostList.load_hosts_from_path repr f = Ok hs /\ Forall HostList.clean hs.
Proof.
  unfold HostList.load_hosts_from_path.
  destruct (String.eqb (HostList.lower (HostList.suffix f)) ".csv").
  - apply hosts_of_rows_clean. apply dict_rows_well_keyed.
  - eexists. split; [reflexivity|].
    apply Forall_forall. intros h Hh. apply list_elem_of_fmap in Hh as (l & -> & Hl).
    apply list_elem_of_In, List.filter_In in Hl as [_ Hne].
    apply nonempty_clean; [apply strip_clean | exact Hne].
Qed.

Section Pipeline.

Import HostList.

Variable repr : json -> string.

Lemma clean_nonempty s : clean s -> nonempty s = true.
Proof. intros (Hne & _). destruct s; [contradiction | reflexivity]. Qed.

(** A row of ollama.csv, read under its header. *)
Lemma checker_row h p :
  clean h -> clean p ->
  hosts_of_row repr ["host"; "open ports"]%string
               (dict_row Checker.csv_header [h; p]) = Ok [Checker.key (h, p)].
Proof.
  intros Hh Hp.
  assert (Hrow : dict_row Checker.csv_header [h; p] =
                 [(Some "Host"%string, Text h); (Some "Open Ports"%string, Text p)])
    by reflexivity.
  rewrite Hrow. unfold hosts_of_row.
  change (bool_decide ("host"%string ∈ ["host"; "open ports"]%string) &&
          bool_decide ("open ports"%string ∈ ["host"; "open ports"]%string))
    with true.
  change (dict_get "Host" [(Some "Host"%string, Text h); (Some "Open Ports"%string, Text p)])
    with (Text h).
  change (dict_get "Open Ports"
            [(Some "Host"%string, Text h); (Some "Open Ports"%string, Text p)])
    with (Text p).
  assert (Hor : forall t b, nonempty t = true -> or_ (Text t) b = Text t).
  { intros t b Ht. unfold or_. cbn [cell_truthy]. now rewrite Ht. }
  rewrite !Hor by (apply clean_nonempty; assumption).
  cbn [cell_truthy cell_strip].
  rewrite (clean_nonempty h Hh), (clean_nonempty p Hp).
  rewrite (clean_strip h Hh), (clean_strip p Hp).
  change (Ok h ≫= ?k) with (k h). cbv beta.
  change (Ok p ≫= ?k) with (k p). cbv beta.
  rewrite (clean_nonempty h Hh), (clean_nonempty p Hp). reflexivity.
Qed.

Lemma checker_rows (us : list Checker.unit_) :
  Forall (fun u => clean (fst u) /\ clean (snd u)) us ->
  hosts_of_rows repr ["host"; "open ports"]%string
    (map (dict_row Checker.csv_header)
         (List.filter (fun r => negb (bool_decide (r = [])))
                      (map (fun u => [fst u; snd u]) us))) =
  Ok (map Checker.key us).
Proof.
  induction 1 as [|[h p] us [Hh Hp] _ IH]; [reflexivity|].
  cbn [map List.filter fst snd].
  rewrite bool_decide_eq_false_2 by discriminate. cbn [negb map hosts_of_rows].
  rewrite (checker_row h p Hh Hp).
  change (Ok [Checker.key (h, p)] ≫= ?k) with (k [Checker.key (h, p)]). cbv beta.
  rewrite IH. reflexivity.
Qed.

End Pipeline.

(** X19. Stage 3 reads back what stage 2 wrote: on the file that
    2.ollama-checker.py writes as ollama.csv (its header, then one row per
    entry of [ollama_hosts]), [load_hosts_from_path] returns, in the same
    order, the strings host:port, which are the very keys the checker kept
    in its checkpoint, provided host and port are clean (not empty, no
    white space at either end), as the checker's own [strip] leaves them. *)
Theorem model_list_reads_back_the_checker_keys
    (repr : json -> string) (v : Checker.vars) (rows : list (list string)) :
  Forall (fun u => HostList.clean (fst u) /\ HostList.clean (snd u)) (Checker.ollama_hosts v) ->
  Checker.ollama_csv (Checker.files (Checker.write_csv v)) = Some rows ->
  HostList.load_hosts_from_path repr (HostList.ollama_file rows) =
  Ok (map Checker.key (Checker.ollama_hosts v)).
Proof.
  intros Hclean [= <-]. unfold HostList.load_hosts_from_path, HostList.ollama_file.
  cbn [HostList.suffix HostList.csv_rows HostList.fieldnames_of HostList.dict_rows].
  change (String.eqb (HostList.lower ".csv") ".csv") with true. cbv iota.
  change (map HostList.lower Checker.csv_header) with ["host"; "open ports"]%string.
  apply checker_rows. exact Hclean.
Qed.

Lemma model_list_reads_back_the_checker_keys_witness :
  let v := Checker.final (Checker.main Samples.answering None Samples.checker_disk) in
  HostList.load_hosts_from_path (fun _ => EmptyString)
    (HostList.ollama_file [Checker.csv_header; ["10.0.0.5"; "11434"]%string]) =
  Ok (map Checker.key (Checker.ollama_hosts v)).
Proof.
  apply (model_list_reads_back_the_checker_keys (fun _ => EmptyString)
           (Checker.final (Checker.main Samples.answering None Samples.checker_disk))).
  - vm_compute. constructor; [|constructor].
    split; (split; [discriminate|]); split; reflexivity.
  - vm_compute. reflexivity.
Defined.

Section HeaderCase.

Import HostList.

Variable repr : json -> string.

Lemma dict_lookup_set k k' v d :
  dict_lookup k (dict_set k' v d) = if bool_decide (k = k') then Some v else dict_lookup k d.
Proof.
  induction d as [|[k0 v0] d IH]; simpl.
  - reflexivity.
  - destruct (decide (k' = k0)) as [->|Hne].
    + rewrite bool_decide_eq_true_2 by reflexivity. simpl.
      destruct (decide (k = k0)) as [->|Hk].
      * rewrite !bool_decide_eq_true_2 by reflexivity. reflexivity.
      * rewrite !bool_decide_eq_false_2 by exact Hk. reflexivity.
    + rewrite (bool_decide_eq_false_2 (k' = k0)) by exact Hne. simpl.
      destruct (decide (k = k0)) as [->|Hk].
      * rewrite bool_decide_eq_true_2 by reflexivity.
        rewrite bool_decide_eq_false_2 by congruence. reflexivity.
      * rewrite (bool_decide_eq_false_2 (k = k0)) by exact Hk. exact IH.
Qed.

(** A key that is no field name is not in the row dictionary. *)
Lemma dict_row_lacks k fieldnames row :
  k ∉ fieldnames -> dict_lookup (Some k) (dict_row fieldnames row) = None.
Proof.
  intros Hk. unfold dict_row.
  assert (H0 : dict_lookup (Some k)
                 (fold_left (fun d kv => dict_set (Some (fst kv)) (Text (snd kv)) d)
                            (zip fieldnames row) []) = None).
  { assert (Hkeys : forall kv, kv ∈ zip fieldnames row -> fst kv <> k).
    { intros [a b] Hin <-. apply Hk. eapply elem_of_zip_l. exact Hin. }
    revert Hkeys. generalize (zip fieldnames row). intros l.
    assert (Hnil : dict_lookup (Some k) [] = None) by reflexivity. revert Hnil.
    generalize (@nil (option string * cell)).
    induction l as [|kv l IH]; intros d Hd Hkeys; simpl; [exact Hd|].
    apply IH.
    - rewrite dict_lookup_set, bool_decide_eq_false_2; [exact Hd|].
      intros [= E]. apply (Hkeys kv); [left | auto].
    - intros x Hx. apply Hkeys. now right. }
  destruct (length fieldnames <? length row)%nat.
  - rewrite dict_lookup_set, bool_decide_eq_false_2 by discriminate. exact H0.
  - destruct (length row <? length fieldnames)%nat; [|exact H0].
    assert (Hrest : forall x, x ∈ drop (length row) fieldnames -> x <> k).
    { intros x Hx <-. apply Hk. eapply subseteq_drop. exact Hx. }
    revert H0 Hrest. generalize (drop (length row) fieldnames).
    generalize (fold_left (fun d kv => dict_set (Some (fst kv)) (Text (snd kv)) d)
                          (zip fieldnames row) []).
    intros d l. revert d. induction l as [|x l IH]; intros d Hd Hrest; simpl; [exact Hd|].
    apply IH.
    + rewrite dict_lookup_set, bool_decide_eq_false_2; [exact Hd|].
      intros [= E]. apply (Hrest x); [left | auto].
    + intros y Hy. apply Hrest. now right.
Qed.

Lemma hosts_of_row_hostless lowered header row :
  "host"%string ∈ lowered ->
  "Host"%string ∉ header -> "host"%string ∉ header ->
  hosts_of_row repr lowered (dict_row header row) = Ok [].
Proof.
  intros Hin H1 H2. unfold hosts_of_row.
  rewrite (bool_decide_eq_true_2 _ Hin).
  assert (Hhost : or_ (dict_get "Host" (dict_row header row))
                      (dict_get "host" (dict_row header row)) = NoneCell).
  { unfold dict_get. rewrite !dict_row_lacks by assumption. reflexivity. }
  rewrite Hhost. cbn [cell_truthy andb].
  destruct (bool_decide ("open ports"%string ∈ lowered)); [|reflexivity].
  assert (Hports : plain (or_ (or_ (dict_get "Open Ports" (dict_row header row))
                                   (dict_get "open ports" (dict_row header row)))
                              (Text ""))).
  { apply or_plain; [apply or_plain; apply dict_get_plain; apply dict_row_well_keyed|].
    left. eauto. }
  destruct (stripped_or_empty _ Hports) as (p & -> & _). reflexivity.
Qed.

End HeaderCase.

(** X20. The header of a CSV hosts file is matched without regard to
    case, the values are looked up under "Host" and "host" only: when some
    column is named host in another spelling (HOST, hOst, ...) and no column
    is spelled "Host" or "host", [load_hosts_from_path] returns no host at
    all, whatever the rows hold, and raises nothing. *)
Theorem other_spellings_of_host_yield_nothing
    (repr : json -> string) (f : HostList.hosts_file) :
  HostList.lower (HostList.suffix f) = ".csv"%string ->
  "host"%string ∈ map HostList.lower (HostList.fieldnames_of (HostList.csv_rows f)) ->
  "Host"%string ∉ HostList.fieldnames_of (HostList.csv_rows f) ->
  "host"%string ∉ HostList.fieldnames_of (HostList.csv_rows f) ->
  HostList.load_hosts_from_path repr f = Ok [].
Proof.
  intros Hsuffix Hin H1 H2. unfold HostList.load_hosts_from_path.
  rewrite Hsuffix. change (String.eqb ".csv" ".csv") with true. cbv iota.
  destruct (HostList.csv_rows f) as [|header rest]; [reflexivity|].
  cbn [HostList.fieldnames_of HostList.dict_rows] in *.
  induction (List.filter (fun r => negb (bool_decide (r = []))) rest) as [|row rows IH];
    [reflexivity|].
  cbn [map HostList.hosts_of_rows].
  rewrite (hosts_of_row_hostless repr _ header row Hin H1 H2).
  change (Ok [] ≫= ?k) with (k (@nil string)). cbv beta. rewrite IH. reflexivity.
Qed.

Lemma other_spellings_of_host_yield_nothing_witness :
  HostList.load_hosts_from_path (fun _ => EmptyString) HostList.shouting_file = Ok [].
Proof.
  apply (other_spellings_of_host_yield_nothing (fun _ => EmptyString)
           HostList.shouting_file).
  - reflexivity.
  - apply (bool_decide_unpack _). vm_compute. exact I.
  - apply (bool_decide_unpack _). vm_compute. exact I.
  - apply (bool_decide_unpack _). vm_compute. exact I.
Defined.

Section HostPort.

Import HostList.

Lemma prefix_colon c rest : String.prefix ":" (String c rest) = Ascii.eqb c ":".
Proof.
  change (String.prefix ":" (String c rest))
    with (match ascii_dec ":" c with
          | left _ => String.prefix "" rest
          | right _ => false
          end).
  destruct (ascii_dec ":" c) as [<-|Hne].
  - destruct rest; reflexivity.
  - symmetry. apply Ascii.eqb_neq. congruence.
Qed.

Lemma contains_colon_cons c rest :
  contains ":" (String c rest) = Ascii.eqb c ":" || contains ":" rest.
Proof.
  change (contains ":" (String c rest))
    with (String.prefix ":" (String c rest) || contains ":" rest).
  now rewrite prefix_colon.
Qed.

(** [rsplit(":", 1)] cuts at the last colon: what it returns joins back
    to the string, and the second part has no colon. *)
Lemma rsplit_colon_spec s :
  match rsplit_colon s with
  | Some (h, p) =>
      s = h +:+ ":" +:+ p /\ contains ":" p = false /\ contains ":" s = true
  | None => contains ":" s = false
  end.
Proof.
  induction s as [|c s IH]; [reflexivity|].
  cbn [rsplit_colon]. rewrite contains_colon_cons.
  destruct (rsplit_colon s) as [[h p]|].
  - destruct IH as (-> & Hp & Hs). rewrite Hs, orb_true_r. auto.
  - rewrite IH, orb_false_r. destruct (Ascii.eqb_spec c ":") as [->|Hne].
    + auto.
    + reflexivity.
Qed.

Lemma rsplit_colon_join h p :
  contains ":" p = false -> rsplit_colon (h +:+ ":" +:+ p) = Some (h, p).
Proof.
  intros Hp.
  assert (Hnone : rsplit_colon p = None).
  { pose proof (rsplit_colon_spec p) as H. destruct (rsplit_colon p) as [[a b]|]; [|reflexivity].
    destruct H as (_ & _ & H). congruence. }
  induction h as [|c h IH].
  - change (rsplit_colon (String ":" p) = Some (EmptyString, p)).
    cbn [rsplit_colon]. rewrite Hnone. reflexivity.
  - change (rsplit_colon (String c (h +:+ ":" +:+ p)) = Some (String c h, p)).
    cbn [rsplit_colon]. rewrite IH. reflexivity.
Qed.

Lemma digit_no_int_space c : is_digit c = true -> is_int_space c = false.
Proof.
  intros Hc. unfold is_digit, is_int_space in *.
  apply andb_true_iff in Hc as [H1 H2]. apply Nat.leb_le in H1, H2.
  apply orb_false_iff. split.
  - apply andb_false_iff. right. apply Nat.leb_gt. lia.
  - apply Nat.eqb_neq. lia.
Qed.

Lemma digits_unspaced s :
  all_chars is_digit s = true -> skip_space s = s /\ drop_space s = s.
Proof.
  induction s as [|c s IH]; [auto|]. intros H.
  apply andb_true_iff in H as [Hc Hs].
  pose proof (digit_no_int_space c Hc) as Hd.
  destruct (IH Hs) as [_ Hr]. split.
  - simpl. now rewrite Hd.
  - cbn [drop_space]. rewrite Hr, Hd. destruct s; reflexivity.
Qed.

(** A run of digits is its own list of digits. *)
Lemma digits_of_digits s b :
  all_chars is_digit s = true -> (s <> EmptyString \/ b = true) ->
  digits_of b s = Some s.
Proof.
  revert b. induction s as [|c s IH]; intros b Hd Hne.
  - destruct Hne as [Hne| ->]; [contradiction | reflexivity].
  - apply andb_true_iff in Hd as [Hc Hs]. cbn [digits_of]. rewrite Hc.
    rewrite (IH true Hs) by (right; reflexivity). reflexivity.
Qed.

(** [int(str(z))] is [z] for a non-negative [z]. *)
Lemma int_of_str_of_int z : 0 <= z -> int_of_str (str_of_int z) = Ok z.
Proof.
  intros Hz. unfold int_of_str.
  pose proof (str_of_int_digits z Hz) as Hd.
  destruct (digits_unspaced _ Hd) as [-> ->].
  assert (Hne : str_of_int z <> EmptyString).
  { rewrite (str_of_int_nonneg z Hz).
    pose proof (to_uint_nonnil (Z.to_N z)) as Hn.
    destruct (N.to_uint (Z.to_N z)); [contradiction | discriminate ..]. }
  assert (Hsigned : match str_of_int z with
                    | String "-" r => (true, r)
                    | String "+" r => (false, r)
                    | _ => (false, str_of_int z)
                    end = (false, str_of_int z)).
  { destruct (str_of_int z) as [|c r]; [reflexivity|].
    simpl in Hd. apply andb_true_iff in Hd as [Hc _].
    destruct c as [[] [] [] [] [] [] [] []]; try reflexivity; discriminate Hc. }
  rewrite Hsigned. cbn [fst snd].
  rewrite (digits_of_digits _ false Hd) by (left; exact Hne).
  pose proof (unsigned_of_str_of_int z Hz) as Hu.
  unfold RangeExpr.unsigned_of_str in Hu.
  change (Some (str_of_int z) ≫= NilZero.uint_of_string)
    with (NilZero.uint_of_string (str_of_int z)).
  destruct (NilZero.uint_of_string (str_of_int z)) as [d|]; [|discriminate Hu].
  injection Hu as ->. reflexivity.
Qed.

Lemma digits_no_colon z : 0 <= z -> contains ":" (str_of_int z) = false.
Proof.
  intros Hz. pose proof (str_of_int_digits z Hz) as Hd.
  induction (str_of_int z) as [|c s IH]; [reflexivity|].
  simpl in Hd. apply andb_true_iff in Hd as [Hc Hs].
  rewrite contains_colon_cons, (IH Hs), orb_false_r.
  destruct (Ascii.eqb_spec c ":") as [->|]; [discriminate Hc | reflexivity].
Qed.

End HostPort.

(** X21. [split_host_port] cuts the network location at its last colon,
    for a location of ASCII characters, at most 4300 of them: with no colon
    it returns the location and no port; otherwise the location is host,
    colon, port text, the port text holds no colon, and the port is [int]
    of that text or [None] when the text is no integer literal.  The scheme
    "http://" is put in front of a host that has none before the URL is
    parsed; apart from what [urlparse] raises, nothing is raised. *)
Theorem split_host_port_cuts_at_the_last_colon
    (netloc_of : string -> result string) (host netloc : string) :
  netloc_of (if String.prefix "http://" host || String.prefix "https://" host
             then host else "http://" +:+ host) = Ok netloc ->
  within_int netloc ->
  (contains ":" netloc = false /\
   HostList.split_host_port netloc_of host = Ok (netloc, None)) \/
  (exists h p,
     netloc = h +:+ ":" +:+ p /\ contains ":" p = false /\
     HostList.split_host_port netloc_of host =
       Ok (h, match int_of_str p with Ok port => Some port | Raise _ => None end)).
Proof.
  intros Hnet _. unfold HostList.split_host_port. rewrite Hnet.
  change (Ok netloc ≫= ?k) with (k netloc). cbv beta.
  pose proof (rsplit_colon_spec netloc) as H.
  destruct (HostList.rsplit_colon netloc) as [[h p]|].
  - destruct H as (E & Hp & Hs). rewrite Hs. right. exists h, p. auto.
  - rewrite H. left. auto.
Qed.

Lemma split_host_port_cuts_at_the_last_colon_witness :
  (contains ":" "10.0.0.5:11434" = false /\
   HostList.split_host_port (fun _ => Ok "10.0.0.5:11434"%string) "10.0.0.5:11434" =
     Ok ("10.0.0.5:11434"%string, None)) \/
  (exists h p,
     "10.0.0.5:11434"%string = h +:+ ":" +:+ p /\ contains ":" p = false /\
     HostList.split_host_port (fun _ => Ok "10.0.0.5:11434"%string) "10.0.0.5:11434" =
       Ok (h, match int_of_str p with Ok port => Some port | Raise _ => None end)).
Proof.
  apply (split_host_port_cuts_at_the_last_colon
           (fun _ => Ok "10.0.0.5:11434"%string) "10.0.0.5:11434" "10.0.0.5:11434").
  - reflexivity.
  - vm_compute. reflexivity.
Defined.

(** X22. Round trip between stage 2 and stage 3: for a host [h] and a
    port [z >= 0], the key [h:z] that 2.ollama-checker.py builds is split
    back by [split_host_port] into [h] and the integer [z], whenever
    [urlparse] finds the key itself as network location. *)
Theorem split_host_port_inverts_the_checker_key
    (netloc_of : string -> result string) (h : string) (z : Z) :
  0 <= z ->
  let host := Checker.key (h, str_of_int z) in
  netloc_of (if String.prefix "http://" host || String.prefix "https://" host
             then host else "http://" +:+ host) = Ok host ->
  HostList.split_host_port netloc_of host = Ok (h, Some z).
Proof.
  intros Hz host Hnet. unfold HostList.split_host_port. rewrite Hnet.
  change (Ok host ≫= ?k) with (k host). cbv beta.
  assert (Hsplit : HostList.rsplit_colon host = Some (h, str_of_int z)).
  { apply rsplit_colon_join, digits_no_colon, Hz. }
  pose proof (rsplit_colon_spec host) as Hspec. rewrite Hsplit in Hspec.
  destruct Hspec as (_ & _ & ->). rewrite Hsplit, (int_of_str_of_int z Hz). reflexivity.
Qed.

Lemma split_host_port_inverts_the_checker_key_witness :
  HostList.split_host_port (fun url => Ok "10.0.0.5:11434"%string)
    (Checker.key ("10.0.0.5"%string, str_of_int 11434)) =
  Ok ("10.0.0.5"%string, Some 11434).
Proof.
  apply (split_host_port_inverts_the_checker_key
           (fun url => Ok "10.0.0.5:11434"%string) "10.0.0.5" 11434).
  - lia.
  - reflexivity.
Defined.

(** ** 3. ollama-model-list.py: [main] *)

Section Harvest.

Import ModelList HostList.

Variable repr : json -> string.











End Harvest.



(** A server that reports a model named 7 stops the export: [main] raises
    a [TypeError] with the full JSON written and a CSV file that holds the
    header only. *)
Example a_numeric_name_stops_the_export :
  let o := HostList.main (fun _ => EmptyString) HostList.odd_world HostList.default_args
             (Some HostList.one_line_file) in
  HostList.returned o =
    Raise (TypeError "sequence item 0: expected str instance, int found") /\
  HostList.written o !! HostList.OUTPUT_CSV = Some (HostList.Csv [HostList.export_header]) /\
  HostList.written o !! HostList.OUTPUT_FILTERED_JSON = None.
Proof. vm_compute. repeat split. Qed.

(** ** Progress lines: the arithmetic of binary64

  The facts about [SpecFloat]'s rounding that the progress lines need: the
  quotient of two positive integers of ordinary size is a finite double
  that is not zero, and an integer divided by itself is 1.0. *)

Section Digits.

Lemma digits2_pos_size p : digits2_pos p = Pos.size p.
Proof. induction p; simpl; congruence. Qed.

(** [Zdigits2 m] is the number of binary digits of [m]. *)
Lemma Zdigits2_bounds m :
  0 < m -> 2 ^ (Zdigits2 m - 1) <= m < 2 ^ Zdigits2 m.
Proof.
  destruct m as [|p|p]; try lia. intros _. cbn [Zdigits2]. rewrite digits2_pos_size.
  pose proof (Pos.size_gt p) as Hgt. pose proof (Pos.size_le p) as Hle.
  assert (H2 : Z.pos (2 ^ Pos.size p) = 2 ^ Z.pos (Pos.size p)).
  { rewrite Pos2Z.inj_pow. reflexivity. }
  split.
  - assert (H : 2 ^ Z.pos (Pos.size p) <= 2 * Z.pos p).
    { rewrite <- H2. change (2 * Z.pos p) with (Z.pos p~0).
      apply Pos2Z.pos_le_pos. exact Hle. }
    replace (Z.pos (Pos.size p)) with (Z.pos (Pos.size p) - 1 + 1) in H at 1 by lia.
    rewrite Z.pow_add_r in H by lia. change (2 ^ 1) with 2 in H. lia.
  - rewrite <- H2. apply Pos2Z.pos_lt_pos. exact Hgt.
Qed.

Lemma Zdigits2_pos m : 0 < m -> 0 < Zdigits2 m.
Proof. destruct m; simpl; lia. Qed.

Lemma Zdigits2_le m k : 0 < m -> 0 <= k -> m < 2 ^ k -> Zdigits2 m <= k.
Proof.
  intros Hm Hk Hlt. destruct (Zdigits2_bounds m Hm) as [Hlo _].
  destruct (Z_le_gt_dec (Zdigits2 m) k) as [|Hgt]; [assumption|].
  assert (2 ^ k <= 2 ^ (Zdigits2 m - 1)) by (apply Z.pow_le_mono_r; lia). lia.
Qed.

Lemma Zdigits2_ge m k : 0 <= k -> 2 ^ k <= m -> k + 1 <= Zdigits2 m.
Proof.
  intros Hk Hle. assert (Hm : 0 < m) by (pose proof (Z.pow_pos_nonneg 2 k); lia).
  destruct (Zdigits2_bounds m Hm) as [_ Hhi].
  destruct (Z_le_gt_dec (k + 1) (Zdigits2 m)) as [|Hgt]; [assumption|].
  assert (2 ^ Zdigits2 m <= 2 ^ k) by (apply Z.pow_le_mono_r; lia). lia.
Qed.

End Digits.

Section Shift.

Lemma shr_1_m mrs : 0 <= shr_m mrs -> shr_m (shr_1 mrs) = shr_m mrs / 2.
Proof.
  destruct mrs as [m r s]. cbn [shr_m]. intros Hm.
  destruct m as [|[p|p|]|p]; cbn [shr_1 shr_m]; try lia.
  - reflexivity.
  - apply Z.div_unique with (r := 1); lia.
  - apply Z.div_unique with (r := 0); lia.
  - reflexivity.
Qed.

Lemma shr_1_nonneg mrs : 0 <= shr_m mrs -> 0 <= shr_m (shr_1 mrs).
Proof. intros H. rewrite shr_1_m by exact H. apply Z.div_pos; lia. Qed.

Lemma iter_shr_1 p : forall mrs,
  0 <= shr_m mrs ->
  shr_m (SpecFloat.iter_pos shr_1 p mrs) = shr_m mrs / 2 ^ Z.pos p.
Proof.
  induction p as [p IH|p IH|]; intros mrs Hm; cbn [SpecFloat.iter_pos].
  - assert (H1 : 0 <= shr_m (shr_1 mrs)) by (apply shr_1_nonneg; exact Hm).
    assert (H2 : 0 <= shr_m (SpecFloat.iter_pos shr_1 p (shr_1 mrs))).
    { rewrite IH by exact H1. apply Z.div_pos; [exact H1 | apply Z.pow_pos_nonneg; lia]. }
    rewrite IH by exact H2. rewrite IH by exact H1. rewrite shr_1_m by exact Hm.
    rewrite !Z.div_div by (pose proof (Z.pow_pos_nonneg 2 (Z.pos p)); lia).
    f_equal. rewrite Pos2Z.inj_xI, <- !Z.pow_add_r by lia.
    change 2 with (2 ^ 1) at 1. rewrite <- Z.pow_add_r by lia. f_equal. lia.
  - assert (H2 : 0 <= shr_m (SpecFloat.iter_pos shr_1 p mrs)).
    { rewrite IH by exact Hm. apply Z.div_pos; [exact Hm | apply Z.pow_pos_nonneg; lia]. }
    rewrite IH by exact H2. rewrite IH by exact Hm.
    rewrite Z.div_div by (pose proof (Z.pow_pos_nonneg 2 (Z.pos p)); lia).
    f_equal. rewrite Pos2Z.inj_xO, <- Z.pow_add_r by lia. f_equal. lia.
  - rewrite shr_1_m by exact Hm. reflexivity.
Qed.

(** [shr] divides the mantissa by [2 ^ n] and adds [n] to the exponent,
    when [n] is positive. *)
Lemma shr_spec mrs e n :
  0 <= shr_m mrs ->
  shr_m (fst (shr mrs e n)) = shr_m mrs / 2 ^ Z.max n 0 /\
  snd (shr mrs e n) = e + Z.max n 0.
Proof.
  intros Hm. destruct n as [|p|p]; simpl.
  - rewrite Z.div_1_r. split; [reflexivity | lia].
  - rewrite iter_shr_1 by exact Hm. split; reflexivity.
  - rewrite Z.div_1_r. split; [reflexivity | lia].
Qed.

Lemma shr_record_of_loc_m m l : shr_m (shr_record_of_loc m l) = m.
Proof. destruct l as [|[]]; reflexivity. Qed.

Lemma round_nearest_even_bounds m l :
  m <= round_nearest_even m l <= m + 1.
Proof. destruct l as [|[]]; simpl; try lia. destruct (Z.even m); lia. Qed.

End Shift.

Section Rounding.

Lemma fexp64_eq e : fexp 53 1024 e = Z.max (e - 53) (-1074).
Proof. reflexivity. Qed.

Lemma pow2_pos k : 0 <= k -> 0 < 2 ^ k.
Proof. intros. apply Z.pow_pos_nonneg; lia. Qed.

Lemma div_pow2_bounds m d n :
  0 <= n -> n <= d - 1 -> 2 ^ (d - 1) <= m < 2 ^ d ->
  2 ^ (d - 1 - n) <= m / 2 ^ n < 2 ^ (d - n).
Proof.
  intros Hn Hd [Hlo Hhi]. pose proof (pow2_pos n Hn). split.
  - apply Z.div_le_lower_bound; [lia|].
    rewrite Z.mul_comm, <- Z.pow_add_r by lia. replace (d - 1 - n + n) with (d - 1) by lia.
    exact Hlo.
  - apply Z.div_lt_upper_bound; [lia|].
    rewrite <- Z.pow_add_r by lia. replace (n + (d - n)) with d by lia. exact Hhi.
Qed.

(** Rounding a positive mantissa whose value lies between the least
    subnormal and [2 ^ 1023] gives a finite, non-zero double. *)
Lemma binary_round_aux_finite sx mx ex lx :
  0 < mx ->
  -1074 < Zdigits2 mx + ex -> Zdigits2 mx + ex <= 1023 -> ex <= 971 ->
  exists m e, binary_round_aux 53 1024 sx mx ex lx = S754_finite sx m e.
Proof.
  intros Hmx Hlow Hhigh Hex. unfold binary_round_aux, shr_fexp.
  set (d := Zdigits2 mx) in *.
  set (n1 := fexp 53 1024 (d + ex) - ex).
  pose proof (Zdigits2_bounds mx Hmx) as Hd. fold d in Hd.
  pose proof (Zdigits2_pos mx Hmx) as Hdpos. fold d in Hdpos.
  assert (Hn1 : Z.max n1 0 <= d - 1) by (unfold n1; rewrite fexp64_eq; lia).
  destruct (shr_spec (shr_record_of_loc mx lx) ex n1) as [Hm1 He1].
  { rewrite shr_record_of_loc_m. lia. }
  rewrite shr_record_of_loc_m in Hm1.
  destruct (shr (shr_record_of_loc mx lx) ex n1) as [mrs1 e1]. cbn [fst snd] in Hm1, He1.
  pose proof (div_pow2_bounds mx d (Z.max n1 0) ltac:(lia) Hn1 Hd) as Hb1.
  rewrite <- Hm1 in Hb1.
  set (m2 := round_nearest_even (shr_m mrs1) (loc_of_shr_record mrs1)).
  pose proof (round_nearest_even_bounds (shr_m mrs1) (loc_of_shr_record mrs1)) as Hr.
  fold m2 in Hr.
  assert (Hm2lo : 2 ^ (d - 1 - Z.max n1 0) <= m2) by lia.
  assert (Hm2hi : m2 < 2 ^ (d - Z.max n1 0 + 1)).
  { assert (2 ^ (d - Z.max n1 0) < 2 ^ (d - Z.max n1 0 + 1)).
    { apply Z.pow_lt_mono_r; lia. }
    lia. }
  assert (Hm2 : 0 < m2) by (pose proof (pow2_pos (d - 1 - Z.max n1 0)); lia).
  pose proof (Zdigits2_ge m2 (d - 1 - Z.max n1 0) ltac:(lia) Hm2lo) as Hd2lo.
  pose proof (Zdigits2_le m2 (d - Z.max n1 0 + 1) Hm2 ltac:(lia) Hm2hi) as Hd2hi.
  set (d2 := Zdigits2 m2) in *.
  set (n2 := fexp 53 1024 (d2 + e1) - e1).
  assert (Hn2 : Z.max n2 0 <= d2 - 1).
  { unfold n2; rewrite fexp64_eq. clearbody n1 d m2 d2. lia. }
  destruct (shr_spec (shr_record_of_loc m2 loc_Exact) e1 n2) as [Hmf Hef].
  { rewrite shr_record_of_loc_m. lia. }
  rewrite shr_record_of_loc_m in Hmf.
  destruct (shr (shr_record_of_loc m2 loc_Exact) e1 n2) as [mrs2 e2].
  cbn [fst snd] in Hmf, Hef.
  pose proof (Zdigits2_bounds m2 Hm2) as Hdm2. fold d2 in Hdm2.
  pose proof (div_pow2_bounds m2 d2 (Z.max n2 0) ltac:(lia) Hn2 Hdm2) as Hbf.
  rewrite <- Hmf in Hbf.
  assert (Hpos : 0 < shr_m mrs2) by (pose proof (pow2_pos (d2 - 1 - Z.max n2 0)); lia).
  assert (He2 : e2 <= 971).
  { rewrite Hef. unfold n2. rewrite fexp64_eq.
    assert (He1' : e1 <= 970 \/ e1 = ex) by (rewrite He1; unfold n1; rewrite fexp64_eq; lia).
    clearbody n1 d m2 d2. lia. }
  destruct (shr_m mrs2) as [|m|m]; try lia.
  apply Z.leb_le in He2. change (1024 - 53) with 971. rewrite He2. eauto.
Qed.

End Rounding.

Section Division.

(** The quotient of two positive integers below [2 ^ 1000] is a finite,
    non-zero double. *)
Lemma SFdiv_ints_finite pc pt :
  Z.pos pc < 2 ^ 1000 -> Z.pos pt < 2 ^ 1000 ->
  exists m e,
    SFdiv 53 1024 (S754_finite false pc 0) (S754_finite false pt 0) =
    S754_finite false m e.
Proof.
  intros Hc Ht. unfold SFdiv, SFdiv_core_binary.
  set (d1 := Zdigits2 (Z.pos pc)). set (d2 := Zdigits2 (Z.pos pt)).
  pose proof (Zdigits2_bounds (Z.pos pc) ltac:(lia)) as Hd1. fold d1 in Hd1.
  pose proof (Zdigits2_bounds (Z.pos pt) ltac:(lia)) as Hd2. fold d2 in Hd2.
  pose proof (Zdigits2_pos (Z.pos pc) ltac:(lia)) as Hp1. fold d1 in Hp1.
  pose proof (Zdigits2_pos (Z.pos pt) ltac:(lia)) as Hp2. fold d2 in Hp2.
  pose proof (Zdigits2_le (Z.pos pc) 1000 ltac:(lia) ltac:(lia) Hc) as Hl1. fold d1 in Hl1.
  pose proof (Zdigits2_le (Z.pos pt) 1000 ltac:(lia) ltac:(lia) Ht) as Hl2. fold d2 in Hl2.
  set (e' := Z.min (fexp 53 1024 (d1 + 0 - (d2 + 0))) (0 - 0)).
  assert (He' : e' = Z.min (Z.max (d1 - d2 - 53) (-1074)) 0).
  { unfold e', fexp, emin. clearbody d1 d2. lia. }
  set (s := 0 - 0 - e').
  assert (Hs : 0 <= s /\ d2 - d1 + 1 <= s /\ s = - e') by (unfold s; lia).
  set (m' := match s with
             | 0 => Z.pos pc
             | Z.pos _ => Z.shiftl (Z.pos pc) s
             | Z.neg _ => 0
             end).
  assert (Hm' : m' = Z.pos pc * 2 ^ s).
  { unfold m'. destruct s as [|p|p] eqn:Es; [lia | | lia].
    rewrite Z.shiftl_mul_pow2 by lia. reflexivity. }
  destruct (Z.div_eucl m' (Z.pos pt)) as [q r] eqn:Eq.
  assert (Hq : q = m' / Z.pos pt) by (unfold Z.div; rewrite Eq; reflexivity).
  set (k := d1 - 1 + s - d2).
  assert (Hk : 0 <= k) by (unfold k; lia).
  assert (Hm'lo : 2 ^ (d1 - 1 + s) <= m').
  { rewrite Hm', Z.pow_add_r by lia. apply Z.mul_le_mono_nonneg_r; [|lia].
    apply Z.lt_le_incl, pow2_pos. lia. }
  assert (Hm'hi : m' < 2 ^ (d1 + s)).
  { rewrite Hm', Z.pow_add_r by lia. apply Z.mul_lt_mono_pos_r; [|lia].
    apply pow2_pos. lia. }
  assert (Hqlo : 2 ^ k <= q).
  { rewrite Hq. apply Z.div_le_lower_bound; [lia|].
    apply Z.le_trans with (2 ^ d2 * 2 ^ k).
    - apply Z.mul_le_mono_nonneg_r; [|lia]. apply Z.lt_le_incl, pow2_pos. lia.
    - rewrite <- Z.pow_add_r by lia. replace (d2 + k) with (d1 - 1 + s) by (unfold k; lia).
      exact Hm'lo. }
  assert (Hqhi : q < 2 ^ (k + 2)).
  { rewrite Hq. apply Z.div_lt_upper_bound; [lia|].
    apply Z.lt_le_trans with (2 ^ (d2 - 1) * 2 ^ (k + 2)).
    - rewrite <- Z.pow_add_r by lia.
      replace (d2 - 1 + (k + 2)) with (d1 + s) by (unfold k; lia). exact Hm'hi.
    - apply Z.mul_le_mono_nonneg_r; [|lia]. apply Z.lt_le_incl, pow2_pos. lia. }
  assert (Hqpos : 0 < q) by (pose proof (pow2_pos k Hk); lia).
  pose proof (Zdigits2_ge q k Hk Hqlo) as Hdq1.
  pose proof (Zdigits2_le q (k + 2) Hqpos ltac:(lia) Hqhi) as Hdq2.
  apply binary_round_aux_finite.
  - exact Hqpos.
  - unfold k in *. clearbody d1 d2 s e' m'. lia.
  - unfold k in *. clearbody d1 d2 s e' m'. lia.
  - clearbody d1 d2 s m'. lia.
Qed.

(** An integer divided by itself is 1.0. *)
Lemma SFdiv_self p :
  SFdiv 53 1024 (S754_finite false p 0) (S754_finite false p 0) =
  S754_finite false 4503599627370496 (-52).
Proof.
  unfold SFdiv, SFdiv_core_binary.
  replace (Zdigits2 (Z.pos p) + 0 - (Zdigits2 (Z.pos p) + 0)) with 0 by lia.
  change (Z.min (fexp 53 1024 0) (0 - 0)) with (-53).
  change (0 - 0 - -53) with 53.
  cbv iota.
  assert (Hq : Z.div_eucl (Z.shiftl (Z.pos p) 53) (Z.pos p) = (2 ^ 53, 0)).
  { rewrite Z.shiftl_mul_pow2 by lia.
    pose proof (Z.div_eucl_eq (Z.pos p * 2 ^ 53) (Z.pos p) ltac:(lia)) as E.
    pose proof (Z.mod_pos_bound (Z.pos p * 2 ^ 53) (Z.pos p) ltac:(lia)) as Hb.
    unfold Z.modulo in Hb.
    destruct (Z.div_eucl (Z.pos p * 2 ^ 53) (Z.pos p)) as [q r].
    assert (Hr : r = 0).
    { assert (Hdiv : (Z.pos p * 2 ^ 53) mod Z.pos p = 0).
      { rewrite Z.mul_comm. apply Z_mod_mult. }
      assert (Hq' : q = (Z.pos p * 2 ^ 53) / Z.pos p).
      { apply Z.div_unique with (r := r); [lia | lia]. }
      rewrite Z.mul_comm, Z_div_mult in Hq' by lia. subst q. lia. }
    subst r. f_equal. nia. }
  rewrite Hq.
  assert (Hloc : new_location (Z.pos p) 0 = loc_Exact).
  { unfold new_location, new_location_even, new_location_odd.
    destruct (Z.even (Z.pos p)); reflexivity. }
  rewrite Hloc. vm_compute. reflexivity.
Qed.

End Division.

(** ** Progress lines: what the two scripts print *)

Section ProgressLines.

(** [completed / total] on two positive integers below [2 ^ 1000] is a
    finite, non-zero double. *)
Lemma int_truediv_finite (c t : Z) :
  1 <= c < 2 ^ 1000 -> 1 <= t < 2 ^ 1000 ->
  exists m e, F64.int_truediv c t = Ok (S754_finite false m e).
Proof.
  intros Hc Ht.
  destruct c as [|pc|pc]; [lia| |lia].
  destruct t as [|pt|pt]; [lia| |lia].
  destruct (SFdiv_ints_finite pc pt) as (m & e & H); [lia|lia|].
  exists m, e. unfold F64.int_truediv.
  change (Z.pos pt =? 0) with false. cbv iota.
  unfold F64.div, F64.exact_int, F64.prec, F64.emax. rewrite H. reflexivity.
Qed.

(** [n / n] is 1.0 for every positive [n]. *)
Lemma int_truediv_self (n : Z) :
  1 <= n ->
  F64.int_truediv n n = Ok (S754_finite false 4503599627370496 (-52)).
Proof.
  intros Hn. destruct n as [|p|p]; [lia| |lia].
  unfold F64.int_truediv.
  change (Z.pos p =? 0) with false. cbv iota.
  unfold F64.div, F64.exact_int, F64.prec, F64.emax. rewrite SFdiv_self. reflexivity.
Qed.

(** Zero units out of a positive total: the quotient is 0.0. *)
Lemma int_truediv_zero (t : Z) :
  0 < t -> F64.int_truediv 0 t = Ok (S754_zero false).
Proof.
  intros Ht. destruct t as [|p|p]; [lia| |lia]. reflexivity.
Qed.

Lemma number_fixed_float (d : nat) (x : F64.float) :
  number_fixed d (PFloat x) = Ok (F64.format_fixed d x).
Proof. reflexivity. Qed.

(** X24.  scanner.py, [print_progress]: with at least one unit completed and
    a total of at least one (both below [2 ^ 1000]), [completed / total] is a
    finite double that is not zero, so the division of the elapsed time by it
    is never a division by zero.  The call prints its line, or fails only in
    [int(remaining)], with [OverflowError] or the [ValueError] of a NaN, when
    the estimate is not a finite number. *)
Theorem print_progress_positive_total_divides_safely
    (clock start_time : F64.float) (completed total : Z) :
  1 <= completed < 2 ^ 1000 ->
  1 <= total < 2 ^ 1000 ->
  (exists m e, F64.int_truediv completed total = Ok (S754_finite false m e)) /\
  ((exists line,
      Progress.print_progress clock start_time completed total = Ok line) \/
   Progress.print_progress clock start_time completed total =
     Raise OverflowError \/
   Progress.print_progress clock start_time completed total =
     Raise (ValueError "cannot convert float NaN to integer")).
Proof.
  intros Hc Ht.
  destruct (int_truediv_finite completed total Hc Ht) as (m & e & Hq).
  split; [exists m, e; exact Hq|].
  unfold Progress.print_progress.
  unfold Progress.percent_of.
  assert (Htp : (0 <? total) = true) by (apply Z.ltb_lt; lia).
  rewrite Htp, Hq.
  change (Ok (S754_finite false m e) ≫= ?k) with (k (S754_finite false m e)).
  cbv beta.
  match goal with
  | |- context [Ok (PFloat ?x) ≫= ?k] =>
      change (Ok (PFloat x) ≫= k) with (k (PFloat x))
  end.
  cbv beta.
  rewrite (remaining_of_positive _ (S754_finite false m e) completed total);
    [|lia|exact Hq|reflexivity].
  match goal with
  | |- context [Ok (PFloat ?x) ≫= ?k] =>
      change (Ok (PFloat x) ≫= k) with (k (PFloat x))
  end.
  cbv beta.
  rewrite number_fixed_float.
  match goal with
  | |- context [Ok ?x ≫= ?k] => change (Ok x ≫= k) with (k x)
  end.
  cbv beta.
  unfold number_int.
  set (r := F64.sub _ _).
  destruct r as [s| s| |s mr er]; cbn [F64.trunc].
  - left. eexists. reflexivity.
  - right. left. reflexivity.
  - right. right. reflexivity.
  - left. eexists. reflexivity.
Qed.

Lemma print_progress_positive_total_divides_safely_witness :
  (exists m e, F64.int_truediv 9 28 = Ok (S754_finite false m e)) /\
  ((exists line,
      Progress.print_progress (Samples.f64 549) (Samples.f64 0) 9 28 = Ok line) \/
   Progress.print_progress (Samples.f64 549) (Samples.f64 0) 9 28 = Raise OverflowError \/
   Progress.print_progress (Samples.f64 549) (Samples.f64 0) 9 28 =
     Raise (ValueError "cannot convert float NaN to integer")).
Proof.
  apply (print_progress_positive_total_divides_safely (Samples.f64 549) (Samples.f64 0) 9 28); lia.
Defined.

(** X25.  2.ollama-checker.py, [update_progress], on the inputs [main]
    gives it: for [0 <= checked <= total] with a positive total below
    [2 ^ 1000] and a [found] that [str] converts, the call raises nothing
    and writes a bar of [filled] full cells followed by [40 - filled] empty
    ones, where [filled] is [40 * checked // total]; [filled] lies between 0
    and 40, and the bar is full exactly when every host has been checked. *)
Theorem update_progress_draws_the_bar (checked total found : Z) :
  0 <= checked <= total ->
  0 < total < 2 ^ 1000 ->
  printable found ->
  let filled := 40 * checked / total in
  0 <= filled <= 40 /\
  (filled = 40 <-> checked = total) /\
  exists pct,
    Progress.update_progress checked total found =
    Ok (CR +:+ "[" +:+
        (str_repeat "█" filled +:+ str_repeat "░" (40 - filled)) +:+
        "] " +:+ pct +:+ "% (" +:+ str_of_int checked +:+ "/" +:+
        str_of_int total +:+ ") | Found: " +:+ str_of_int found +:+ "   ").
Proof.
  intros Hc Ht _ filled.
  assert (Htp : 0 < total) by lia.
  assert (Hlo : 0 <= 40 * checked / total) by (apply Z.div_pos; lia).
  assert (Hhi : 40 * checked / total <= 40).
  { apply Z.div_le_upper_bound; [exact Htp|]. nia. }
  split; [unfold filled; lia|]. split.
  - unfold filled. split.
    + intros H40.
      assert (Hm : total * (40 * checked / total) <= 40 * checked)
        by (apply Z.mul_div_le; exact Htp).
      rewrite H40 in Hm. lia.
    + intros ->. rewrite Z.div_mul by lia. reflexivity.
  - unfold Progress.update_progress, Progress.percent_of, Progress.bar_length.
    fold filled.
    assert (Hb : (0 <? total) = true) by (apply Z.ltb_lt; exact Htp).
    rewrite Hb.
    assert (Hq : exists q, F64.int_truediv checked total = Ok q).
    { destruct (Z.eq_dec checked 0) as [->|Hne].
      - eexists. apply int_truediv_zero. exact Htp.
      - destruct (int_truediv_finite checked total) as (m & e & H);
          [lia|lia|]. eexists. exact H. }
    destruct Hq as [q Hq]. rewrite Hq.
    exists (F64.format_fixed 1 (F64.mul q (F64.of_Z 100))). reflexivity.
Qed.

Lemma update_progress_draws_the_bar_witness :
  let filled := 40 * 9 / 28 in
  0 <= filled <= 40 /\
  (filled = 40 <-> 9 = 28) /\
  exists pct,
    Progress.update_progress 9 28 3 =
    Ok (CR +:+ "[" +:+
        (str_repeat "█" filled +:+ str_repeat "░" (40 - filled)) +:+
        "] " +:+ pct +:+ "% (" +:+ str_of_int 9 +:+ "/" +:+
        str_of_int 28 +:+ ") | Found: " +:+ str_of_int 3 +:+ "   ").
Proof.
  apply (update_progress_draws_the_bar 9 28 3).
  - lia.
  - lia.
  - unfold printable, int_max_str_digits, Z.lt. split; vm_compute; reflexivity.
Defined.

(** X26.  2.ollama-checker.py, [update_progress]: when the last host has been
    checked ([checked = total >= 1], for every total and [found] that [str]
    converts) the line is the full bar of forty cells and [100.0%]. *)
Theorem update_progress_at_the_end (total found : Z) :
  1 <= total ->
  printable total ->
  printable found ->
  Progress.update_progress total total found =
  Ok (CR +:+ "[" +:+ str_repeat "█" 40 +:+ "] 100.0% (" +:+
      str_of_int total +:+ "/" +:+ str_of_int total +:+ ") | Found: " +:+
      str_of_int found +:+ "   ").
Proof.
  intros Ht _ _.
  unfold Progress.update_progress, Progress.percent_of, Progress.bar_length.
  assert (Hb : (0 <? total) = true) by (apply Z.ltb_lt; lia).
  rewrite Hb, (int_truediv_self total Ht).
  replace (40 * total / total) with 40
    by (symmetry; apply Z.div_mul; lia).
  change (Ok (S754_finite false 4503599627370496 (-52)) ≫= ?k)
    with (k (S754_finite false 4503599627370496 (-52))).
  cbv beta.
  match goal with
  | |- context [Ok (PFloat ?x) ≫= ?k] =>
      change (Ok (PFloat x) ≫= k) with (k (PFloat x))
  end.
  cbv beta.
  rewrite number_fixed_float.
  match goal with
  | |- context [Ok ?x ≫= ?k] => change (Ok x ≫= k) with (k x)
  end.
  cbv beta.
  assert (Hpct : F64.format_fixed 1
            (F64.mul (S754_finite false 4503599627370496 (-52)) (F64.of_Z 100))
          = "100.0"%string) by (vm_compute; reflexivity).
  rewrite Hpct.
  assert (Hbar : (str_repeat "█" 40 +:+ str_repeat "░" (40 - 40))
                 = str_repeat "█" 40) by (vm_compute; reflexivity).
  rewrite Hbar.
  unfold String.app.
  reflexivity.
Qed.

Lemma update_progress_at_the_end_witness :
  Progress.update_progress 28 28 3 =
  Ok (CR +:+ "[" +:+ str_repeat "█" 40 +:+ "] 100.0% (" +:+
      str_of_int 28 +:+ "/" +:+ str_of_int 28 +:+ ") | Found: " +:+
      str_of_int 3 +:+ "   ").
Proof.
  apply (update_progress_at_the_end 28 3).
  - lia.
  - unfold printable, int_max_str_digits, Z.lt. split; vm_compute; reflexivity.
  - unfold printable, int_max_str_digits, Z.lt. split; vm_compute; reflexivity.
Defined.

(** [update_progress] never divides by zero, whatever it is given: both of
    its divisions stand behind [if total > 0]. *)
Lemma update_progress_no_zero_division (checked total found : Z) :
  Progress.update_progress checked total found <> Raise ZeroDivisionError.
Proof.
  unfold Progress.update_progress, Progress.percent_of, Progress.bar_length.
  destruct (0 <? total) eqn:Htp; [|discriminate].
  apply Z.ltb_lt in Htp. unfold F64.int_truediv.
  assert (Hz : (total =? 0) = false) by (apply Z.eqb_neq; lia).
  rewrite Hz.
  destruct (F64.div (F64.exact_int checked) (F64.exact_int total)); discriminate.
Qed.

(** With both counts positive and below [2 ^ 1000], the quotient
    [completed / total] is not zero and [print_progress] divides by it
    safely. *)
Lemma print_progress_no_zero_division
    (clock start_time : F64.float) (completed total : Z) :
  1 <= completed < 2 ^ 1000 ->
  1 <= total < 2 ^ 1000 ->
  Progress.print_progress clock start_time completed total <> Raise ZeroDivisionError.
Proof.
  intros Hc Ht.
  destruct (int_truediv_finite completed total Hc Ht) as (m & e & Hq).
  unfold Progress.print_progress, Progress.percent_of.
  assert (Htp : (0 <? total) = true) by (apply Z.ltb_lt; lia).
  rewrite Htp, Hq.
  rewrite (remaining_of_positive _ (S754_finite false m e) completed total);
    [|lia|exact Hq|reflexivity].
  change (Ok (S754_finite false m e) ≫= ?k) with (k (S754_finite false m e)).
  cbv beta.
  repeat match goal with
         | |- context [Ok (PFloat ?x) ≫= ?k] =>
             change (Ok (PFloat x) ≫= k) with (k (PFloat x)); cbv beta
         end.
  rewrite number_fixed_float.
  match goal with
  | |- context [Ok ?x ≫= ?k] => change (Ok x ≫= k) with (k x)
  end.
  cbv beta. unfold number_int.
  destruct (F64.sub _ _); cbn [F64.trunc]; discriminate.
Qed.

(** The calls of [print_progress] the scanner makes have both counts at
    least 1. *)
Lemma progress_calls_positive w d st0 st msgs sched completed total :
  Scanner.boot d = Ok (st0, msgs) ->
  Scanner.run w sched st0 = Some st ->
  (completed, total) ∈ PoolSpec.progress_calls st0 st ->
  1 <= completed /\ 1 <= total.
Proof.
  intros Hb Hrun Hin.
  destruct (own_run w d st0 msgs sched st Hb Hrun) as [_ _ Hlen].
  unfold PoolSpec.progress_calls in Hin.
  apply list_elem_of_fmap in Hin as (k & [= -> ->] & Hk).
  apply elem_of_seq in Hk. lia.
Qed.

(** C10 (as the code has it).  [update_progress] is safe for every input:
    with a total of zero its percentage and its bar fill are 0 through the
    guard [if total > 0], and it never divides by zero.  [print_progress]
    guards its percentage the same way and is safe for [0] of [0]; its
    second division, [completed / total] of the estimate, has no guard, and
    what keeps it from a zero total is the script: the only call passes the
    number of targets, once per future, and a future exists only for a
    target, so both counts are at least 1, where (below [2 ^ 1000]) no
    division by zero occurs. *)
Theorem progress_lines_and_a_zero_total :
  (forall checked found : Z,
     printable checked -> printable found ->
     Progress.update_progress checked 0 found =
     Ok (CR +:+ "[" +:+ str_repeat "░" 40 +:+ "] 0.0% (" +:+ str_of_int checked +:+
         "/0) | Found: " +:+ str_of_int found +:+ "   ")) /\
  (forall checked total found : Z,
     Progress.update_progress checked total found <> Raise ZeroDivisionError) /\
  (forall completed : Z, Progress.percent_of completed 0 = Ok (PInt 0)) /\
  (forall clock start_time : F64.float,
     Progress.print_progress clock start_time 0 0 =
     Ok (CR +:+ "Progress: 0/0 (0.00%), ETA: 0s")) /\
  (forall (w : Scanner.world) (d : Scanner.disk) (st0 st : Scanner.state)
          (msgs : list string) (sched : list Scanner.actor) (completed total : Z),
     Scanner.boot d = Ok (st0, msgs) ->
     Scanner.run w sched st0 = Some st ->
     (completed, total) ∈ PoolSpec.progress_calls st0 st ->
     1 <= completed /\ 1 <= total) /\
  (forall (clock start_time : F64.float) (completed total : Z),
     1 <= completed < 2 ^ 1000 ->
     1 <= total < 2 ^ 1000 ->
     Progress.print_progress clock start_time completed total <>
     Raise ZeroDivisionError).
Proof.
  split; [|split; [|split; [|split; [|split]]]].
  - intros checked found _ _. apply update_progress_zero_total.
  - exact update_progress_no_zero_division.
  - exact percent_of_zero_total.
  - intros clock start_time. reflexivity.
  - exact progress_calls_positive.
  - exact print_progress_no_zero_division.
Qed.

Lemma progress_lines_and_a_zero_total_witness :
  Progress.update_progress 7 0 2 =
    Ok (CR +:+ "[" +:+ str_repeat "░" 40 +:+ "] 0.0% (" +:+ str_of_int 7 +:+
        "/0) | Found: " +:+ str_of_int 2 +:+ "   ") /\
  (exists st0 msgs st,
     Scanner.boot Samples.fresh_disk = Ok (st0, msgs) /\
     Scanner.run Samples.live_world (Samples.one_worker 5) st0 = Some st /\
     PoolSpec.progress_calls st0 st = [(1, 1)] /\
     1 <= 1 /\ 1 <= 1) /\
  Progress.print_progress (Samples.f64 549) (Samples.f64 0) 9 28 <>
    Raise ZeroDivisionError.
Proof.
  split; [|split].
  - apply (proj1 progress_lines_and_a_zero_total 7 2);
      unfold printable, int_max_str_digits, Z.lt; split; vm_compute; reflexivity.
  - do 3 eexists. split; [vm_compute; reflexivity|].
    split; [vm_compute; reflexivity|]. split; [vm_compute; reflexivity|].
    eapply (proj1 (proj2 (proj2 (proj2 (proj2 progress_lines_and_a_zero_total))))
              Samples.live_world Samples.fresh_disk _ _ _ (Samples.one_worker 5) 1 1).
    + vm_compute; reflexivity.
    + vm_compute; reflexivity.
    + left.
  - apply (proj2 (proj2 (proj2 (proj2 (proj2 progress_lines_and_a_zero_total))))
             (Samples.f64 549) (Samples.f64 0) 9 28); lia.
Defined.

(** C10 (as stated) fails in scanner.py: [print_progress(1, 0)] raises
    [ZeroDivisionError], from the division the guard does not cover. *)
Lemma print_progress_one_of_zero_raises :
  Progress.print_progress (Samples.f64 10) (Samples.f64 0) 1 0 =
  Raise ZeroDivisionError.
Proof. apply print_progress_unguarded_estimate. lia. Qed.

End ProgressLines.
